(** * Scoratis: a shallow embedding of the journaling backend

    The development follows the two modules of the server:
    [database.py] (class [DatabaseManager], the SQLite persistence layer)
    and [main_professional.py] (the Flask handlers, the rule-based fallback
    generator and the video helpers).

    Conventions.
    - Python [str] values are modelled by [string]; the model covers ASCII
      text, and the literal templates of the source are embedded verbatim.
    - SQLite tables are lists of row records in rowid order, with the
      AUTOINCREMENT counter of each table kept next to it.
    - [CURRENT_TIMESTAMP] is an explicit [now] argument of every operation
      that reads the clock.
    - The store is assumed reachable: a statement raises only when an
      integrity constraint of the schema fails. *)

From Stdlib Require Import ZArith NArith Ascii String List Bool Lia.
From Stdlib Require Import DecimalString DecimalN.
From stdpp Require Import base option list sorting gmap strings.

Local Open Scope Z_scope.

(** ** Python string primitives *)

Module PyStr.

Definition is_upper (c : ascii) : bool :=
  let n := nat_of_ascii c in (65 <=? n)%nat && (n <=? 90)%nat.

Definition lower_char (c : ascii) : ascii :=
  if is_upper c then ascii_of_nat (nat_of_ascii c + 32) else c.

(** [s.lower()] *)
Fixpoint lower (s : string) : string :=
  match s with
  | EmptyString => EmptyString
  | String c s' => String (lower_char c) (lower s')
  end.

(** Whitespace of [str.strip()]: TAB, LF, VT, FF, CR, FS, GS, RS, US, SPACE. *)
Definition is_space (c : ascii) : bool :=
  let n := nat_of_ascii c in
  ((9 <=? n)%nat && (n <=? 13)%nat) || ((28 <=? n)%nat && (n <=? 32)%nat).

Fixpoint lstrip (s : string) : string :=
  match s with
  | EmptyString => EmptyString
  | String c s' => if is_space c then lstrip s' else s
  end.

Fixpoint rev_str (s : string) : string :=
  match s with
  | EmptyString => EmptyString
  | String c s' => rev_str s' +:+ String c EmptyString
  end.

Definition rstrip (s : string) : string := rev_str (lstrip (rev_str s)).

(** [s.strip()] *)
Definition strip (s : string) : string := rstrip (lstrip s).

(** [sub in s] on strings: [sub] occurs as a contiguous substring. *)
Fixpoint contains (sub s : string) : bool :=
  String.prefix sub s ||
  match s with
  | EmptyString => false
  | String _ s' => contains sub s'
  end.

(** [any(w in s for w in words)] *)
Definition any_in (words : list string) (s : string) : bool :=
  existsb (fun w => contains w s) words.

(** [s in words] on a list of strings. *)
Definition mem (s : string) (words : list string) : bool :=
  existsb (String.eqb s) words.

(** [len(s)] *)
Definition len (s : string) : Z := Z.of_nat (String.length s).

(** [s[:n]] for a non-negative bound. *)
Definition first_chars (n : nat) (s : string) : string := String.substring 0 n s.

(** [sep.join(parts)] *)
Fixpoint join (sep : string) (parts : list string) : string :=
  match parts with
  | [] => EmptyString
  | [p] => p
  | p :: ps => p +:+ sep +:+ join sep ps
  end.

(** [str(n)] and [int(s)] on non-negative decimal numerals. *)
Definition str (n : N) : string := NilEmpty.string_of_uint (N.to_uint n).

Definition int (s : string) : N :=
  match NilEmpty.uint_of_string s with
  | Some d => N.of_uint d
  | None => 0%N
  end.

(** [f"{n:02d}"] *)
Definition pad2 (n : N) : string :=
  if (n <? 10)%N then "0" +:+ str n else str n.

(** Number of occurrences of a character, [s.count(c)]. *)
Fixpoint count_char (c : ascii) (s : string) : nat :=
  match s with
  | EmptyString => 0%nat
  | String d s' => ((if Ascii.eqb c d then 1 else 0) + count_char c s')%nat
  end.


End PyStr.

(** ** The fallback generator ([generate_fallback], nested in [chat]) *)

Module Fallback.

Import PyStr.

(** The guards of the cascade, each on [msg_lower]. *)
Definition overwhelm (msg_lower : string) : bool :=
  any_in ["everything"; "nothing"; "all of it"; "all";
          "i am not understanding anything"; "not understanding"] msg_lower.

Definition substantial (msg_lower : string) : bool :=
  (30 <? len msg_lower) &&
  any_in ["force"; "gravity"; "spin"; "rotation"; "centrifugal"; "weight"] msg_lower.

Definition confusion (msg_lower : string) : bool :=
  any_in ["don't know"; "dont know"; "idk"; "confused"; "no idea"] msg_lower.

Definition typo (msg_lower : string) : bool :=
  contains "toque" msg_lower && negb (contains "torque" msg_lower).

Definition short (msg_lower : string) : bool :=
  (len msg_lower <? 15) ||
  mem msg_lower ["rotation"; "physics"; "hard"; "difficult"; "clear"; "small"; "tiny"].

Definition learning (msg_lower : string) : bool :=
  any_in ["teach me"; "learn"; "start"; "beginning"; "begenning"] msg_lower.

Definition compound (msg_lower : string) : bool :=
  contains "space" msg_lower &&
  (contains "torque" msg_lower || contains "rotation" msg_lower).

Definition generate_fallback (user_message : string) : string :=
  let msg_lower := strip (lower user_message) in
  if overwhelm msg_lower then
    "Feeling overwhelmed? Let's start with something tiny and concrete. Picture a door opening - that's rotation! What makes a door easy or hard to push open?"
  else if substantial msg_lower then
    "Excellent thinking! You mentioned forces - that's exactly the right track. Now here's a key question: if you spin a coin on a table, what do you think slows it down and makes it stop?"
  else if confusion msg_lower then
    if contains "torque" msg_lower || contains "toque" msg_lower then
      "You're unsure what torque means. Quick anchor: torque is the 'twist' effect of a force—pushing farther from the pivot makes rotation easier. If you push a door near the hinges vs the handle, where does the same push create more rotation?"
    else if any_in ["rotation"; "spin"; "turn"] msg_lower then
      "You're feeling lost about rotation. Here's a simple start: rotation is just spinning around a center point, like a wheel or door. What happens when you try to stop a spinning coin with your finger?"
    else
      "That's completely normal when learning something new! Let's try a concrete example: imagine pushing a door. Would it be easier to push near the hinges or near the handle?"
  else if typo msg_lower then
    "I'm assuming you meant 'torque' (the twist-force that causes rotation). Torque is like the 'oomph' that makes things spin. Are you asking how torque differs from regular force?"
  else if short msg_lower then
    "You said '" +:+ user_message +:+ "'. Let's connect this to something you can picture. Think of a spinning coin - what do you think makes it start spinning, and what makes it wobble and fall over?"
  else if learning msg_lower then
    "Perfect! You want to learn from the beginning. Let's start with the most basic question: when you open a door, do you push near the hinges or near the handle? Why do you think that is?"
  else if compound msg_lower then
    "You're asking about torque vs space concepts. Torque is about causing rotation; space is where things exist and move. Are you wondering how rotational motion works in different environments?"
  else
    "I hear you saying '" +:+ user_message +:+ "'. Let's make this super concrete: imagine you're trying to loosen a tight jar lid. Where do you grip it, and how do you twist? What makes it easier or harder?".

(** Number of question marks of a reply, and whether it ends with one. *)
Definition questions (s : string) : nat := count_char "?"%char s.



End Fallback.

(** ** Video helpers *)

Module Video.

Import PyStr.

Definition is_digit (c : ascii) : bool :=
  let n := nat_of_ascii c in (48 <=? n)%nat && (n <=? 57)%nat.

(** Longest prefix of decimal digits, and the rest: the greedy [\d+]. *)
Fixpoint span_digits (s : string) : string * string :=
  match s with
  | String c s' =>
      if is_digit c then
        let '(ds, rest) := span_digits s' in (String c ds, rest)
      else (EmptyString, s)
  | EmptyString => (EmptyString, EmptyString)
  end.

(** One optional group [(?:(\d+)U)?] of the pattern: the digits are
    followed by the unit letter, or the group is skipped and nothing is
    consumed. *)
Definition opt_group (unit : ascii) (s : string) : option string * string :=
  match span_digits s with
  | (String d ds, String c rest) =>
      if Ascii.eqb c unit then (Some (String d ds), rest) else (None, s)
  | _ => (None, s)
  end.

(** [re.match(r'PT(?:(\d+)H)?(?:(\d+)M)?(?:(\d+)S)?', duration)], returning
    [match.groups()]. *)
Definition match_duration (duration : string)
  : option (option string * option string * option string) :=
  match duration with
  | String "P" (String "T" s) =>
      let '(hours, s1) := opt_group "H" s in
      let '(minutes, s2) := opt_group "M" s1 in
      let '(seconds, _) := opt_group "S" s2 in
      Some (hours, minutes, seconds)
  | _ => None
  end.

Definition int_or_zero (g : option string) : N :=
  match g with
  | Some ds => int ds
  | None => 0%N
  end.

Definition parse_youtube_duration (duration : string) : string :=
  match match_duration duration with
  | None => "0:00"
  | Some (hours, minutes, seconds) =>
      let hours := int_or_zero hours in
      let minutes := int_or_zero minutes in
      let seconds := int_or_zero seconds in
      if (0 <? hours)%N then
        str hours +:+ ":" +:+ pad2 minutes +:+ ":" +:+ pad2 seconds
      else
        str minutes +:+ ":" +:+ pad2 seconds
  end.

End Video.

(** ** The persistence layer ([database.py]) *)

(** Outcome of a statement that may violate a constraint of the schema. *)
Inductive result (A : Type) : Type :=
| Ok (a : A)
| Raise (e : string).
Arguments Ok {A} a.
Arguments Raise {A} e.

Module Db.

(** Rows of the tables created by [init_database]. A nullable column is
    an [option]. The [tags] column holds the JSON text of a list of
    strings and is represented by that list. *)
Record Journal := mkJournal {
  j_id : Z;
  j_title : string;
  j_content : string;
  j_tags : option (list string);
  j_folder_id : option Z;
  j_user_id : Z;
  j_is_shared : bool;
  j_share_token : option string;
  j_created_at : Z;
  j_updated_at : Z }.

Record Folder := mkFolder {
  f_id : Z;
  f_name : string;
  f_description : option string;
  f_color : string;
  f_user_id : Z;
  f_created_at : Z;
  f_updated_at : Z }.

Record VideoHistory := mkVideoHistory {
  v_id : Z;
  v_video_id : string;
  v_title : string;
  v_channel : string;
  v_thumbnail_url : string;
  v_search_query : string;
  v_user_id : Z;
  v_watched_at : Z }.

Record Conversation := mkConversation {
  c_id : Z;
  c_session_id : string;
  c_title : option string;
  c_user_id : Z;
  c_is_deleted : option bool;
  c_deleted_at : option Z;
  c_created_at : Z;
  c_updated_at : Z }.

Record ChatMessage := mkChatMessage {
  m_id : Z;
  m_conversation_id : Z;
  m_session_id : string;
  m_sender : string;
  m_message : string;
  m_timestamp : Z }.

(** The database file: every table with its AUTOINCREMENT counter (the
    largest rowid handed out so far, as kept in [sqlite_sequence]). *)
Record Database := mkDatabase {
  journals : list Journal;
  journals_seq : Z;
  folders : list Folder;
  folders_seq : Z;
  video_history : list VideoHistory;
  video_history_seq : Z;
  conversations : list Conversation;
  conversations_seq : Z;
  chat_messages : list ChatMessage;
  chat_messages_seq : Z }.

(** The tables right after [init_database] on a new file. *)
Definition init_database : Database :=
  mkDatabase [] 0 [] 0 [] 0 [] 0 [] 0.

Definition set_journals (js : list Journal) (db : Database) : Database :=
  mkDatabase js (journals_seq db) (folders db) (folders_seq db)
    (video_history db) (video_history_seq db)
    (conversations db) (conversations_seq db)
    (chat_messages db) (chat_messages_seq db).

Definition set_folders (fs : list Folder) (db : Database) : Database :=
  mkDatabase (journals db) (journals_seq db) fs (folders_seq db)
    (video_history db) (video_history_seq db)
    (conversations db) (conversations_seq db)
    (chat_messages db) (chat_messages_seq db).

Definition set_conversations (cs : list Conversation) (db : Database) : Database :=
  mkDatabase (journals db) (journals_seq db) (folders db) (folders_seq db)
    (video_history db) (video_history_seq db)
    cs (conversations_seq db)
    (chat_messages db) (chat_messages_seq db).

Definition set_chat_messages (ms : list ChatMessage) (db : Database) : Database :=
  mkDatabase (journals db) (journals_seq db) (folders db) (folders_seq db)
    (video_history db) (video_history_seq db)
    (conversations db) (conversations_seq db)
    ms (chat_messages_seq db).

(** [UPDATE t SET ... WHERE p]: rewrite the rows selected by [p]. *)
Definition update_where {A : Type} (p : A -> bool) (f : A -> A) (rows : list A) : list A :=
  map (fun r => if p r then f r else r) rows.

(** [DELETE FROM t WHERE p]. *)
Definition delete_where {A : Type} (p : A -> bool) (rows : list A) : list A :=
  List.filter (fun r => negb (p r)) rows.

(** [SELECT ... WHERE p], in rowid order. *)
Definition select_where {A : Type} (p : A -> bool) (rows : list A) : list A :=
  List.filter p rows.

(** [LIMIT n]: a negative bound is no bound. *)
Definition limit_rows {A : Type} (n : Z) (rows : list A) : list A :=
  if n <? 0 then rows else take (Z.to_nat n) rows.

Definition opt_Z_eqb (a : option Z) (b : Z) : bool :=
  match a with
  | Some x => x =? b
  | None => false
  end.

(** *** Journals *)

Definition create_journal (title content : string) (tags : option (list string))
    (folder_id : option Z) (user_id : Z) (now : Z) (db : Database) : Database * Z :=
  let tags_json :=
    match tags with
    | Some (t :: ts) => Some (t :: ts)
    | _ => None
    end in
  let id := journals_seq db + 1 in
  let row := mkJournal id title content tags_json folder_id user_id false None now now in
  (mkDatabase (journals db ++ [row]) id (folders db) (folders_seq db)
     (video_history db) (video_history_seq db)
     (conversations db) (conversations_seq db)
     (chat_messages db) (chat_messages_seq db), id).

(** One [column = ?] item of the SET list assembled by [update_journal]. *)
Inductive JournalAssign : Type :=
| SetTitle (title : string)
| SetContent (content : string)
| SetTags (tags : list string)
| SetFolderId (folder_id : Z)
| SetUpdatedAt (now : Z).

Definition assign (a : JournalAssign) (j : Journal) : Journal :=
  match a with
  | SetTitle t =>
      mkJournal (j_id j) t (j_content j) (j_tags j) (j_folder_id j) (j_user_id j)
        (j_is_shared j) (j_share_token j) (j_created_at j) (j_updated_at j)
  | SetContent c =>
      mkJournal (j_id j) (j_title j) c (j_tags j) (j_folder_id j) (j_user_id j)
        (j_is_shared j) (j_share_token j) (j_created_at j) (j_updated_at j)
  | SetTags l =>
      mkJournal (j_id j) (j_title j) (j_content j) (Some l) (j_folder_id j) (j_user_id j)
        (j_is_shared j) (j_share_token j) (j_created_at j) (j_updated_at j)
  | SetFolderId f =>
      mkJournal (j_id j) (j_title j) (j_content j) (j_tags j) (Some f) (j_user_id j)
        (j_is_shared j) (j_share_token j) (j_created_at j) (j_updated_at j)
  | SetUpdatedAt n =>
      mkJournal (j_id j) (j_title j) (j_content j) (j_tags j) (j_folder_id j) (j_user_id j)
        (j_is_shared j) (j_share_token j) (j_created_at j) n
  end.

Definition assign_all (updates : list JournalAssign) (j : Journal) : Journal :=
  fold_left (fun r a => assign a r) updates j.

(** [updates.append(...)] when the argument [is not None]. *)
Definition append_if {A B : Type} (f : A -> B) (arg : option A) (updates : list B) : list B :=
  match arg with
  | Some a => updates ++ [f a]
  | None => updates
  end.

Definition update_journal (journal_id : Z) (title content : option string)
    (tags : option (list string)) (folder_id : option Z)
    (now : Z) (db : Database) : Database * bool :=
  let updates := [] in
  let updates := append_if SetTitle title updates in
  let updates := append_if SetContent content updates in
  let updates := append_if SetTags tags updates in
  let updates := append_if SetFolderId folder_id updates in
  match updates with
  | [] => (db, false)
  | _ =>
      let updates := updates ++ [SetUpdatedAt now] in
      (set_journals
         (update_where (fun j => j_id j =? journal_id) (assign_all updates) (journals db)) db,
       true)
  end.

Definition delete_journal (journal_id user_id : Z) (db : Database) : Database * bool :=
  (set_journals
     (delete_where (fun j => (j_id j =? journal_id) && (j_user_id j =? user_id)) (journals db)) db,
   true).

(** The non-null share tokens of a table, for the UNIQUE constraint. *)
Definition share_tokens (js : list Journal) : list string :=
  omap j_share_token js.

Definition unique_tokens (js : list Journal) : bool :=
  bool_decide (NoDup (share_tokens js)).

(** [share_journal]; the result of [secrets.token_urlsafe(16)] is the
    argument [share_token]. The UPDATE raises when it would store a
    token that another row already holds. *)
Definition share_journal (journal_id user_id : Z) (share_token : string)
    (now : Z) (db : Database) : result (Database * string) :=
  let hit j := (j_id j =? journal_id) && (j_user_id j =? user_id) in
  let toggle j :=
    mkJournal (j_id j) (j_title j) (j_content j) (j_tags j) (j_folder_id j) (j_user_id j)
      (negb (j_is_shared j)) (Some share_token) (j_created_at j) now in
  let js := update_where hit toggle (journals db) in
  if existsb hit (journals db) && negb (unique_tokens js) then
    Raise "UNIQUE constraint failed: journals.share_token"
  else Ok (set_journals js db, share_token).

(** *** Folders *)

Definition create_folder (name : string) (description : option string) (color : string)
    (user_id : Z) (now : Z) (db : Database) : Database * Z :=
  let id := folders_seq db + 1 in
  let row := mkFolder id name description color user_id now now in
  (mkDatabase (journals db) (journals_seq db) (folders db ++ [row]) id
     (video_history db) (video_history_seq db)
     (conversations db) (conversations_seq db)
     (chat_messages db) (chat_messages_seq db), id).

Definition clear_folder (j : Journal) : Journal :=
  mkJournal (j_id j) (j_title j) (j_content j) (j_tags j) None (j_user_id j)
    (j_is_shared j) (j_share_token j) (j_created_at j) (j_updated_at j).

Definition delete_folder (folder_id user_id : Z) (db : Database) : Database * bool :=
  let db :=
    set_journals
      (update_where (fun j => opt_Z_eqb (j_folder_id j) folder_id) clear_folder (journals db))
      db in
  (set_folders
     (delete_where (fun f => (f_id f =? folder_id) && (f_user_id f =? user_id)) (folders db)) db,
   true).

(** *** Video history *)

(** [ORDER BY key DESC] and [ORDER BY key ASC]. *)
Definition desc_by {A : Type} (key : A -> Z) : relation A := fun a b => key b <= key a.
Definition asc_by {A : Type} (key : A -> Z) : relation A := fun a b => key a <= key b.

#[global] Instance desc_by_dec {A : Type} (key : A -> Z) : RelDecision (desc_by key).
Proof. intros a b. unfold desc_by. apply _. Defined.

#[global] Instance asc_by_dec {A : Type} (key : A -> Z) : RelDecision (asc_by key).
Proof. intros a b. unfold asc_by. apply _. Defined.

(** [INSERT OR REPLACE]: a row in conflict with the new one on a UNIQUE
    or PRIMARY KEY constraint is deleted first. The only such constraint
    of [video_history] is the primary key [id], and the statement leaves
    [id] to AUTOINCREMENT. *)
Definition add_video_to_history (video_id title channel thumbnail_url search_query : string)
    (user_id : Z) (now : Z) (db : Database) : Database * Z :=
  let id := video_history_seq db + 1 in
  let row := mkVideoHistory id video_id title channel thumbnail_url search_query user_id now in
  let kept := delete_where (fun v => v_id v =? id) (video_history db) in
  (mkDatabase (journals db) (journals_seq db) (folders db) (folders_seq db)
     (kept ++ [row]) id
     (conversations db) (conversations_seq db)
     (chat_messages db) (chat_messages_seq db), id).

Definition get_video_history (user_id : Z) (limit : Z) (db : Database) : list VideoHistory :=
  limit_rows limit
    (merge_sort (desc_by v_watched_at)
       (select_where (fun v => v_user_id v =? user_id) (video_history db))).

(** The history rows of one video for one owner. *)
Definition history_rows (video_id : string) (user_id : Z) (db : Database) : list VideoHistory :=
  select_where (fun v => String.eqb (v_video_id v) video_id && (v_user_id v =? user_id))
    (video_history db).

(** *** Conversations and messages *)

Definition create_conversation (session_id : string) (user_id : Z) (title : option string)
    (now : Z) (db : Database) : Database * Z :=
  let id := conversations_seq db + 1 in
  let row := mkConversation id session_id title user_id (Some false) None now now in
  (mkDatabase (journals db) (journals_seq db) (folders db) (folders_seq db)
     (video_history db) (video_history_seq db)
     (conversations db ++ [row]) id
     (chat_messages db) (chat_messages_seq db), id).

Definition get_or_create_conversation (session_id : string) (user_id : Z)
    (now : Z) (db : Database) : Database * Z :=
  let result :=
    select_where (fun c => String.eqb (c_session_id c) session_id && (c_user_id c =? user_id))
      (conversations db) in
  match result with
  | c :: _ => (db, c_id c)
  | [] => create_conversation session_id user_id None now db
  end.

Definition touch (now : Z) (c : Conversation) : Conversation :=
  mkConversation (c_id c) (c_session_id c) (c_title c) (c_user_id c)
    (c_is_deleted c) (c_deleted_at c) (c_created_at c) now.

Definition set_title (title : string) (c : Conversation) : Conversation :=
  mkConversation (c_id c) (c_session_id c) (Some title) (c_user_id c)
    (c_is_deleted c) (c_deleted_at c) (c_created_at c) (c_updated_at c).

(** Truthiness of an optional string: neither [None] nor empty. *)
Definition truthy (s : option string) : bool :=
  match s with
  | Some (String _ _) => true
  | _ => false
  end.

Definition derive_title (user_message : string) : string :=
  PyStr.first_chars 50 user_message +:+ (if 50 <? PyStr.len user_message then "..." else "").

Definition update_conversation_activity (conversation_id : Z) (user_message : option string)
    (now : Z) (db : Database) : Database :=
  let db :=
    set_conversations
      (update_where (fun c => c_id c =? conversation_id) (touch now) (conversations db)) db in
  if truthy user_message then
    let result := select_where (fun c => c_id c =? conversation_id) (conversations db) in
    match result, user_message with
    | c :: _, Some user_message =>
        if negb (truthy (c_title c)) then
          let title := derive_title user_message in
          set_conversations
            (update_where (fun c => c_id c =? conversation_id) (set_title title)
               (conversations db)) db
        else db
    | _, _ => db
    end
  else db.

Definition add_chat_message (session_id sender message : string) (user_id : Z)
    (now : Z) (db : Database) : Database * Z :=
  let '(db, conversation_id) := get_or_create_conversation session_id user_id now db in
  let id := chat_messages_seq db + 1 in
  let row := mkChatMessage id conversation_id session_id sender message now in
  let db :=
    mkDatabase (journals db) (journals_seq db) (folders db) (folders_seq db)
      (video_history db) (video_history_seq db)
      (conversations db) (conversations_seq db)
      (chat_messages db ++ [row]) id in
  let db :=
    update_conversation_activity conversation_id
      (if String.eqb sender "user" then Some message else None) now db in
  (db, conversation_id).

(** A row of [get_conversation_messages]: sender, message, timestamp. *)
Definition MessageRow : Type := string * string * Z.

Definition get_conversation_messages (session_id : string) (user_id : Z)
    (db : Database) : list MessageRow :=
  let joined :=
    cm ← chat_messages db;
    c ← select_where (fun c => m_conversation_id cm =? c_id c) (conversations db);
    if String.eqb (m_session_id cm) session_id && (c_user_id c =? user_id)
    then [(m_sender cm, m_message cm, m_timestamp cm)] else [] in
  merge_sort (asc_by (fun r : MessageRow => r.2)) joined.

(** A row of [get_conversation_history]. *)
Record ConversationSummary := mkSummary {
  s_id : Z;
  s_session_id : string;
  s_title : option string;
  s_created_at : Z;
  s_updated_at : Z;
  s_deleted_at : option Z;
  s_message_count : Z;
  s_last_message_time : option Z }.

(** [MAX(cm.timestamp)], NULL on no row. *)
Definition max_timestamp (ms : list ChatMessage) : option Z :=
  fold_left (fun acc m =>
               match acc with
               | Some t => Some (Z.max t (m_timestamp m))
               | None => Some (m_timestamp m)
               end) ms None.

Definition summarize (db : Database) (c : Conversation) : ConversationSummary :=
  let ms := select_where (fun cm => m_conversation_id cm =? c_id c) (chat_messages db) in
  mkSummary (c_id c) (c_session_id c) (c_title c) (c_created_at c) (c_updated_at c)
    (c_deleted_at c) (Z.of_nat (length ms)) (max_timestamp ms).

(** The WHERE clause of [get_conversation_history]. *)
Definition listed (user_id : Z) (include_deleted : bool) (c : Conversation) : bool :=
  (c_user_id c =? user_id) &&
  (if negb include_deleted then
     match c_is_deleted c with
     | Some false | None => true
     | Some true => false
     end
   else
     match c_is_deleted c with
     | Some true => true
     | _ => false
     end).

(** The LEFT JOIN with GROUP BY on the columns of [c] gives one row per
    conversation ([id] is the primary key), with the count and the latest
    timestamp of its messages. *)
Definition get_conversation_history (user_id : Z) (limit : Z) (include_deleted : bool)
    (db : Database) : list ConversationSummary :=
  limit_rows limit
    (merge_sort (desc_by s_updated_at)
       (map (summarize db) (select_where (listed user_id include_deleted) (conversations db)))).

Definition trash (now : Z) (c : Conversation) : Conversation :=
  mkConversation (c_id c) (c_session_id c) (c_title c) (c_user_id c)
    (Some true) (Some now) (c_created_at c) now.

Definition untrash (now : Z) (c : Conversation) : Conversation :=
  mkConversation (c_id c) (c_session_id c) (c_title c) (c_user_id c)
    (Some false) None (c_created_at c) now.

Definition owned (conversation_id user_id : Z) (c : Conversation) : bool :=
  (c_id c =? conversation_id) && (c_user_id c =? user_id).

Definition delete_conversation (conversation_id user_id : Z) (permanent : bool)
    (now : Z) (db : Database) : Database * bool :=
  if permanent then
    let db :=
      set_chat_messages
        (delete_where (fun cm => m_conversation_id cm =? conversation_id) (chat_messages db))
        db in
    (set_conversations (delete_where (owned conversation_id user_id) (conversations db)) db,
     true)
  else
    (set_conversations
       (update_where (owned conversation_id user_id) (trash now) (conversations db)) db,
     true).

Definition restore_conversation (conversation_id user_id : Z)
    (now : Z) (db : Database) : Database * bool :=
  (set_conversations
     (update_where (owned conversation_id user_id) (untrash now) (conversations db)) db,
   true).

Definition clear_conversation (session_id : string) (user_id : Z)
    (db : Database) : Database * bool :=
  let result :=
    select_where (fun c => String.eqb (c_session_id c) session_id && (c_user_id c =? user_id))
      (conversations db) in
  match result with
  | c :: _ =>
      let conversation_id := c_id c in
      let db :=
        set_chat_messages
          (delete_where (fun cm => m_conversation_id cm =? conversation_id) (chat_messages db))
          db in
      (set_conversations
         (delete_where (fun c => c_id c =? conversation_id) (conversations db)) db,
       true)
  | [] => (db, false)
  end.

(** *** Listings of journals and folders *)

(** The JSON text of a list of strings, as [json.dumps] writes it: items
    separated by a comma and a space, each between double quotes, with the
    double quote, the backslash and every character outside the printable
    ASCII range escaped. *)
Definition dquote : string := String (ascii_of_nat 34) EmptyString.

Definition hex_digit (n : nat) : ascii :=
  if (n <? 10)%nat then ascii_of_nat (48 + n) else ascii_of_nat (87 + n).

Definition json_escape (c : ascii) : string :=
  let n := nat_of_ascii c in
  if (n =? 34)%nat then "\" +:+ dquote
  else if (n =? 92)%nat then "\\"
  else if (n =? 10)%nat then "\n"
  else if (n =? 13)%nat then "\r"
  else if (n =? 9)%nat then "\t"
  else if (n =? 12)%nat then "\f"
  else if (n =? 8)%nat then "\b"
  else if (n <? 32)%nat || (126 <? n)%nat then
    "\u00" +:+ String (hex_digit (n / 16)) (String (hex_digit (n mod 16)) EmptyString)
  else String c EmptyString.

Fixpoint json_escape_all (s : string) : string :=
  match s with
  | EmptyString => EmptyString
  | String c s' => json_escape c +:+ json_escape_all s'
  end.

Definition json_dumps_str (s : string) : string :=
  dquote +:+ json_escape_all s +:+ dquote.

Definition json_dumps (tags : list string) : string :=
  "[" +:+ PyStr.join ", " (map json_dumps_str tags) +:+ "]".

(** [text LIKE pattern] of SQLite: [%] stands for any run of characters,
    [_] for any one character, and letters of ASCII match without regard
    to case. *)
Fixpoint like (pattern : string) : string -> bool :=
  match pattern with
  | EmptyString => fun text => match text with EmptyString => true | _ => false end
  | String p pattern' =>
      if Ascii.eqb p "%" then
        fix any_run (text : string) : bool :=
          like pattern' text ||
          match text with
          | EmptyString => false
          | String _ text' => any_run text'
          end
      else if Ascii.eqb p "_" then
        fun text =>
          match text with
          | EmptyString => false
          | String _ text' => like pattern' text'
          end
      else
        fun text =>
          match text with
          | EmptyString => false
          | String c text' =>
              Ascii.eqb (PyStr.lower_char p) (PyStr.lower_char c) && like pattern' text'
          end
  end.

(** A row of [get_journals]: the columns of the journal, its tags parsed
    back to a list, and the name of its folder from the LEFT JOIN. *)
Record JournalRow := mkJournalRow {
  r_journal : Journal;
  r_tags : list string;
  r_folder_name : option string }.

(** [journals j LEFT JOIN folders f ON j.folder_id = f.id] *)
Definition join_folder (fs : list Folder) (j : Journal) : list (Journal * option string) :=
  match select_where (fun f => opt_Z_eqb (j_folder_id j) (f_id f)) fs with
  | [] => [(j, None)]
  | matches => map (fun f => (j, Some (f_name f))) matches
  end.

(** The clause added for [search_query]; a NULL [tags] matches nothing. *)
Definition search_matches (search_param : string) (j : Journal) : bool :=
  like search_param (j_title j) || like search_param (j_content j) ||
  match j_tags j with
  | Some tags => like search_param (json_dumps tags)
  | None => false
  end.

Definition get_journals (user_id : Z) (folder_id : option Z) (search_query : option string)
    (db : Database) : list JournalRow :=
  let rows := j ← journals db; join_folder (folders db) j in
  let rows := select_where (fun r => j_user_id r.1 =? user_id) rows in
  let rows :=
    match folder_id with
    | Some f =>
        if f =? 0 then rows
        else select_where (fun r => opt_Z_eqb (j_folder_id r.1) f) rows
    | None => rows
    end in
  let rows :=
    if truthy search_query then
      let search_param := "%" +:+ default "" search_query +:+ "%" in
      select_where (fun r => search_matches search_param r.1) rows
    else rows in
  let rows := merge_sort (desc_by (fun r : Journal * option string => j_updated_at r.1)) rows in
  map (fun r => mkJournalRow r.1 (default [] (j_tags r.1)) r.2) rows.

(** A row of [get_folders]: the folder and the number of journals filed
    in it. *)
Record FolderRow := mkFolderRow {
  r_folder : Folder;
  r_journal_count : Z }.

Definition get_folders (user_id : Z) (db : Database) : list FolderRow :=
  merge_sort (desc_by (fun r => f_updated_at (r_folder r)))
    (map (fun f =>
            mkFolderRow f
              (Z.of_nat (length (select_where (fun j => opt_Z_eqb (j_folder_id j) (f_id f))
                                   (journals db)))))
       (select_where (fun f => f_user_id f =? user_id) (folders db))).

(** One [column = ?] item of the SET list assembled by [update_folder]. *)
Inductive FolderAssign : Type :=
| SetName (name : string)
| SetDescription (description : string)
| SetColor (color : string)
| SetFolderUpdatedAt (now : Z).

Definition assign_folder (a : FolderAssign) (f : Folder) : Folder :=
  match a with
  | SetName n =>
      mkFolder (f_id f) n (f_description f) (f_color f) (f_user_id f)
        (f_created_at f) (f_updated_at f)
  | SetDescription d =>
      mkFolder (f_id f) (f_name f) (Some d) (f_color f) (f_user_id f)
        (f_created_at f) (f_updated_at f)
  | SetColor c =>
      mkFolder (f_id f) (f_name f) (f_description f) c (f_user_id f)
        (f_created_at f) (f_updated_at f)
  | SetFolderUpdatedAt n =>
      mkFolder (f_id f) (f_name f) (f_description f) (f_color f) (f_user_id f)
        (f_created_at f) n
  end.

Definition update_folder (folder_id : Z) (name description color : option string)
    (now : Z) (db : Database) : Database * bool :=
  let updates := [] in
  let updates := append_if SetName name updates in
  let updates := append_if SetDescription description updates in
  let updates := append_if SetColor color updates in
  match updates with
  | [] => (db, false)
  | _ =>
      let updates := updates ++ [SetFolderUpdatedAt now] in
      (set_folders
         (update_where (fun f => f_id f =? folder_id)
            (fun f => fold_left (fun r a => assign_folder a r) updates f) (folders db)) db,
       true)
  end.

(** *** Emptying the trash, statistics *)

Definition is_trashed (user_id : Z) (c : Conversation) : bool :=
  (c_user_id c =? user_id) &&
  match c_is_deleted c with
  | Some true => true
  | _ => false
  end.

Definition empty_trash (user_id : Z) (db : Database) : Database * bool :=
  let trashed_conversations := select_where (is_trashed user_id) (conversations db) in
  let db :=
    fold_left
      (fun db conv =>
         set_chat_messages
           (delete_where (fun cm => m_conversation_id cm =? c_id conv) (chat_messages db)) db)
      trashed_conversations db in
  (set_conversations (delete_where (is_trashed user_id) (conversations db)) db, true).

Record UserStats := mkUserStats {
  total_journals : Z;
  total_folders : Z;
  videos_watched : Z;
  journals_this_week : Z;
  total_conversations : Z }.

(** [COUNT( * )] of the rows selected by [p]. *)
Definition count_where {A : Type} (p : A -> bool) (rows : list A) : Z :=
  Z.of_nat (length (select_where p rows)).

(** Timestamps count seconds: [datetime('now', '-7 days')] is [now] less
    604800. *)
Definition get_user_stats (user_id : Z) (now : Z) (db : Database) : UserStats :=
  mkUserStats
    (count_where (fun j => j_user_id j =? user_id) (journals db))
    (count_where (fun f => f_user_id f =? user_id) (folders db))
    (count_where (fun v => v_user_id v =? user_id) (video_history db))
    (count_where (fun j => (j_user_id j =? user_id) && (now - 604800 <=? j_created_at j))
       (journals db))
    (count_where (fun c => c_user_id c =? user_id) (conversations db)).

End Db.

(** ** The request handlers ([main_professional.py]) *)

Module App.

Import PyStr.

(** Process state: the module-level dict [conversation_memory] and the
    database behind [db]. *)
Record State := mkState {
  conversation_memory : gmap string (list string);
  db : Db.Database }.

(** The text provider returned by [get_genai()], when there is one: the
    text of [model.generate_content(full_prompt)], or [None] when the
    call raises (network failure, timeout, quota, blocked reply). *)
Definition GenAI : Type := string -> option string.

(** One entry of the ["videos"] array of a search response. *)
Record VideoData := mkVideoData {
  video_id : string;
  title : string;
  channel : string;
  thumbnail : string;
  description : string;
  published_at : string;
  duration : string;
  view_count : string }.

(** JSON bodies of the modelled endpoints. *)
Inductive Body : Type :=
| ErrorBody (error : string)
| MessageBody (message : string)
| ReplyBody (reply source : string) (session_id : option string)
| ClearedBody (message session_id : string)
| ShareBody (message share_token share_url : string)
| VideosBody (videos : list VideoData) (source message : option string).

Record Response := mkResponse {
  status : Z;
  body : Body }.

Definition newline : string := String (ascii_of_nat 10) EmptyString.

(** [xs[-n:]] *)
Definition last_n {A : Type} (n : nat) (xs : list A) : list A :=
  drop (length xs - n) xs.

Definition full_prompt (conversation_context : string) : string :=
  "Previous conversation:" +:+ newline +:+ conversation_context +:+ newline +:+ newline +:+
  "Please continue the conversation naturally, maintaining the Socratic teaching approach while building on what has been discussed." +:+ newline +:+ newline +:+
  "Important: Don't use generic openers ('Before we begin…', 'Perfect! Before…', 'Excellent! Before…'). Acknowledge the last user message, give a micro-anchor if needed, and ask one targeted question.".

(** [POST /chat]. [message] and [session_id] are the fields of the JSON
    body; [now] and [later] are the clock readings of the two writes. *)
Definition chat (genai : option GenAI) (message session_id : option string)
    (now later : Z) (st : State) : State * Response :=
  let user_message := strip (default "" message) in
  let session_id := default "default" session_id in
  match user_message with
  | EmptyString => (st, mkResponse 400 (ErrorBody "No message provided"))
  | _ =>
      match genai with
      | None =>
          let response := Fallback.generate_fallback user_message in
          (st, mkResponse 200 (ReplyBody response "fallback" None))
      | Some generate_content =>
          let memory := conversation_memory st in
          let memory :=
            match memory !! session_id with
            | None => <[session_id := []]> memory
            | Some _ => memory
            end in
          let '(db1, _) := Db.add_chat_message session_id "user" user_message 1 now (db st) in
          let history := default [] (memory !! session_id) ++ ["Human: " +:+ user_message] in
          let history := if (10 <? length history)%nat then last_n 10 history else history in
          let memory := <[session_id := history]> memory in
          let conversation_context := join newline history in
          match generate_content (full_prompt conversation_context) with
          | Some text =>
              let '(db2, _) := Db.add_chat_message session_id "ai" text 1 later db1 in
              let memory := <[session_id := history ++ ["Scoratis: " +:+ text]]> memory in
              (mkState memory db2,
               mkResponse 200 (ReplyBody text "ai" (Some session_id)))
          | None =>
              let response := Fallback.generate_fallback user_message in
              let '(db2, _) := Db.add_chat_message session_id "ai" response 1 later db1 in
              (mkState memory db2,
               mkResponse 200 (ReplyBody response "fallback" None))
          end
      end
  end.

(** [POST /chat/clear] *)
Definition clear_chat (session_id : option string) (st : State) : State * Response :=
  let session_id := default "default" session_id in
  let memory := conversation_memory st in
  let memory :=
    match memory !! session_id with
    | Some _ => delete session_id memory
    | None => memory
    end in
  (mkState memory (db st),
   mkResponse 200 (ClearedBody "Conversation memory cleared" session_id)).

(** [POST /journals/<id>/share]; [share_token] is the token drawn by
    [secrets.token_urlsafe]. *)
Definition toggle_journal_sharing (journal_id : Z) (host_url share_token : string)
    (now : Z) (st : State) : State * Response :=
  match Db.share_journal journal_id 1 share_token now (db st) with
  | Ok (db', share_token) =>
      let share_url := host_url +:+ "shared/" +:+ share_token in
      (mkState (conversation_memory st) db',
       mkResponse 200 (ShareBody "Journal sharing toggled successfully" share_token share_url))
  | Raise e => (st, mkResponse 500 (ErrorBody e))
  end.

(** [PUT /journals/<id>] *)
Definition update_journal (journal_id : Z) (title content : option string)
    (tags : option (list string)) (folder_id : option Z)
    (now : Z) (st : State) : State * Response :=
  let '(db', success) := Db.update_journal journal_id title content tags folder_id now (db st) in
  if success then
    (mkState (conversation_memory st) db',
     mkResponse 200 (MessageBody "Journal updated successfully"))
  else
    (mkState (conversation_memory st) db',
     mkResponse 400 (ErrorBody "No changes made")).

(** *** Video search *)

(** An item of [search().list(...)]: the video id and its snippet. *)
Record SearchItem := mkSearchItem {
  i_videoId : string;
  i_title : string;
  i_channelTitle : string;
  i_thumbnail_medium : option string;
  i_description : option string;
  i_publishedAt : string }.

(** An item of [videos().list(...)]. *)
Record VideoDetail := mkVideoDetail {
  d_id : string;
  d_duration : option string;
  d_viewCount : option string }.

(** The client returned by [get_youtube_client()], when there is one. A
    call that raises yields [Raise] with the text of the exception. *)
Record YouTube := mkYouTube {
  search_list : string -> Z -> result (list SearchItem);
  videos_list : list string -> result (list VideoDetail) }.

(** [xs[:n]] for any integer [n]. *)
Definition slice_to {A : Type} (n : Z) (xs : list A) : list A :=
  if n <? 0 then take (Z.to_nat (Z.of_nat (length xs) + n)) xs
  else take (Z.to_nat n) xs.

Definition sample_videos (query : string) : list VideoData :=
  [ mkVideoData "dQw4w9WgXcQ"
      ("Educational Content: " +:+ query +:+ " - Introduction")
      "Educational Channel"
      "https://via.placeholder.com/320x180/8A2BE2/FFFFFF?text=Video+1"
      ("Learn about " +:+ query +:+ " in this comprehensive introduction.")
      "2024-01-01T00:00:00Z" "10:30" "1.2M";
    mkVideoData "dQw4w9WgXcQ"
      ("Advanced " +:+ query +:+ " Techniques")
      "Science Academy"
      "https://via.placeholder.com/320x180/00BFFF/FFFFFF?text=Video+2"
      ("Dive deeper into " +:+ query +:+ " with advanced concepts.")
      "2024-01-02T00:00:00Z" "15:45" "850K" ].

(** The [except] branch of [search_videos]. *)
Definition search_error (e : string) : Response :=
  let error_msg := lower e in
  if contains "quotaexceeded" error_msg then
    mkResponse 429 (ErrorBody "YouTube API quota exceeded. Please try again later.")
  else if contains "keyinvalid" error_msg || contains "forbidden" error_msg then
    mkResponse 401 (ErrorBody "Invalid YouTube API key.")
  else
    mkResponse 500 (ErrorBody ("Failed to fetch videos: " +:+ e)).

(** [int(view_count)] on the decimal numerals the provider sends. *)
Definition int_view_count (view_count : string) : result Z :=
  match NilEmpty.uint_of_string view_count with
  | Some (Decimal.Nil) | None =>
      Raise ("invalid literal for int() with base 10: '" +:+ view_count +:+ "'")
  | Some d => Ok (Z.of_N (N.of_uint d))
  end.

Section Search.

(** [f"{count / unit:.1f}"]: binary floating-point division and
    rounding, kept abstract. *)
Variable format_tenths : Z -> Z -> string.

Definition format_view_count (count : Z) : string :=
  if 1000000 <=? count then format_tenths count 1000000 +:+ "M"
  else if 1000 <=? count then format_tenths count 1000 +:+ "K"
  else if count <? 0 then "-" +:+ str (Z.to_N (- count))
  else str (Z.to_N count).

Definition format_video (video_details : gmap string VideoDetail) (item : SearchItem)
  : result VideoData :=
  let details := video_details !! i_videoId item in
  let duration := default "PT0S" (details ≫= d_duration) in
  let duration_formatted := Video.parse_youtube_duration duration in
  let view_count := default "0" (details ≫= d_viewCount) in
  match int_view_count view_count with
  | Raise e => Raise e
  | Ok n =>
      let view_count_formatted := format_view_count n in
      let description := default "" (i_description item) in
      Ok (mkVideoData (i_videoId item) (i_title item) (i_channelTitle item)
            (default "" (i_thumbnail_medium item))
            (if 200 <? len description then PyStr.first_chars 200 description +:+ "..."
             else description)
            (i_publishedAt item) duration_formatted view_count_formatted)
  end.

(** The loop over the search items: each formatted video is appended
    and recorded in the watch history; an exception leaves the
    history rows written so far. *)
Fixpoint format_videos (video_details : gmap string VideoDetail) (query : string)
    (now : Z) (items : list SearchItem) (formatted_videos : list VideoData)
    (db : Db.Database) : Db.Database * result (list VideoData) :=
  match items with
  | [] => (db, Ok formatted_videos)
  | item :: items =>
      match format_video video_details item with
      | Raise e => (db, Raise e)
      | Ok video_data =>
          let '(db, _) :=
            Db.add_video_to_history (i_videoId item) (i_title item) (i_channelTitle item)
              (thumbnail video_data) query 1 now db in
          format_videos video_details query now items (formatted_videos ++ [video_data]) db
      end
  end.

(** [GET /videos/search]; [q] and [max_results] are the query
    parameters, the latter already read as an integer. *)
Definition search_videos (youtube_client : option YouTube) (q : option string)
    (max_results : option Z) (now : Z) (st : State) : State * Response :=
  let query := strip (default "" q) in
  let max_results := Z.min (default 12 max_results) 25 in
  match query with
  | EmptyString => (st, mkResponse 400 (ErrorBody "Search query is required"))
  | _ =>
      match youtube_client with
      | None =>
          (st, mkResponse 200
                 (VideosBody (slice_to max_results (sample_videos query))
                    (Some "sample") None))
      | Some client =>
          match search_list client query max_results with
          | Raise e => (st, search_error e)
          | Ok items =>
              let video_ids := map i_videoId items in
              match video_ids with
              | [] => (st, mkResponse 200 (VideosBody [] None (Some "No videos found")))
              | _ =>
                  match videos_list client video_ids with
                  | Raise e => (st, search_error e)
                  | Ok details =>
                      let video_details :=
                        fold_left (fun m d => <[d_id d := d]> m) details ∅ in
                      match format_videos video_details query now items [] (db st) with
                      | (db', Raise e) =>
                          (mkState (conversation_memory st) db', search_error e)
                      | (db', Ok formatted_videos) =>
                          (mkState (conversation_memory st) db',
                           mkResponse 200
                             (VideosBody formatted_videos (Some "youtube") None))
                      end
                  end
              end
          end
      end
  end.

End Search.

(** *** Journal and listing endpoints *)

(** The JSON body of an answer: a value, or [{"error": ...}]. *)
Inductive Payload (A : Type) : Type :=
| Json (value : A)
| Error (error : string).
Arguments Json {A} value.
Arguments Error {A} error.

Record Reply (A : Type) := mkReply {
  code : Z;
  payload : Payload A }.
Arguments mkReply {A} code payload.
Arguments code {A} r.
Arguments payload {A} r.

(** [POST /journals]: answers the id of the new journal. *)
Definition create_journal (title content : option string) (tags : option (list string))
    (folder_id : option Z) (now : Z) (st : State) : State * Reply Z :=
  let title := strip (default "" title) in
  let content := strip (default "" content) in
  let tags := default [] tags in
  match title, content with
  | EmptyString, _ | _, EmptyString =>
      (st, mkReply 400 (Error "Title and content are required"))
  | _, _ =>
      let '(db', journal_id) :=
        Db.create_journal title content (Some tags) folder_id 1 now (db st) in
      (mkState (conversation_memory st) db', mkReply 201 (Json journal_id))
  end.

(** [DELETE /journals/<id>] *)
Definition delete_journal (journal_id : Z) (st : State) : State * Reply string :=
  let '(db', _) := Db.delete_journal journal_id 1 (db st) in
  (mkState (conversation_memory st) db', mkReply 200 (Json "Journal deleted successfully")).

(** [GET /journals] *)
Definition get_journals (folder_id : option Z) (search : option string) (st : State)
  : Reply (list Db.JournalRow) :=
  mkReply 200 (Json (Db.get_journals 1 folder_id search (db st))).

(** [GET /chat/history]; [limit] is the query parameter, read as an
    integer. *)
Definition get_conversation_history (limit : option Z) (st : State)
  : Reply (list Db.ConversationSummary) :=
  let limit := Z.min (default 20 limit) 50 in
  mkReply 200 (Json (Db.get_conversation_history 1 limit false (db st))).

(** [GET /chat/trash] *)
Definition get_trash (limit : option Z) (st : State) : Reply (list Db.ConversationSummary) :=
  let limit := Z.min (default 50 limit) 100 in
  mkReply 200 (Json (Db.get_conversation_history 1 limit true (db st))).

(** [GET /videos/history] *)
Definition get_video_history (limit : option Z) (st : State) : Reply (list Db.VideoHistory) :=
  let limit := Z.min (default 50 limit) 100 in
  mkReply 200 (Json (Db.get_video_history 1 limit (db st))).

(** [DELETE /chat/conversation/<id>]; [permanent] is the field of the
    body. *)
Definition delete_conversation (conversation_id : Z) (permanent : option bool) (now : Z)
    (st : State) : State * Reply string :=
  let permanent := default false permanent in
  let '(db', _) := Db.delete_conversation conversation_id 1 permanent now (db st) in
  (mkState (conversation_memory st) db',
   mkReply 200
     (Json (if permanent then "Conversation permanently deleted"
            else "Conversation moved to trash"))).

(** [POST /chat/trash/empty] *)
Definition empty_trash (st : State) : State * Reply string :=
  let '(db', _) := Db.empty_trash 1 (db st) in
  (mkState (conversation_memory st) db', mkReply 200 (Json "Trash emptied successfully")).

End App.

(** ** Contracts

    Definitions used to state the properties: the expected shape of the
    fallback replies, duration tokens, and the invariants of the tables. *)

Section FallbackContract.

Import PyStr Fallback.


End FallbackContract.

Section DurationContract.

Import PyStr Video.

(** A duration token with the given components, each one optional. *)
Definition component (g : option N) (unit : string) : string :=
  match g with
  | Some n => str n +:+ unit
  | None => ""
  end.

Definition duration_token (hours minutes seconds : option N) : string :=
  "PT" +:+ component hours "H" +:+ component minutes "M" +:+ component seconds "S".

(** The format in the words of the specification: H:MM:SS when the hours
    component is present, M:SS otherwise. *)
Definition claimed_format (hours minutes seconds : option N) : string :=
  match hours with
  | Some h => str h +:+ ":" +:+ pad2 (default 0%N minutes) +:+ ":" +:+ pad2 (default 0%N seconds)
  | None => str (default 0%N minutes) +:+ ":" +:+ pad2 (default 0%N seconds)
  end.

End DurationContract.

Section TableContract.

Import Db.

(** Every stored id was handed out by the counter. *)
Definition history_ids_ok (db : Database) : Prop :=
  Forall (fun v => v_id v <= video_history_seq db) (video_history db).

(** Invariants of the [conversations] table: [id] is a primary key handed
    out by AUTOINCREMENT, and a stored title is never the empty string
    (the code stores NULL or a derived title). *)
Record conversations_ok (db : Database) : Prop := {
  ok_ids_unique : NoDup (c_id <$> conversations db);
  ok_ids_bounded : Forall (fun i => i <= conversations_seq db) (c_id <$> conversations db);
  ok_titles : Forall (fun c => c_title c <> Some "") (conversations db) }.

(** The effect of [update_conversation_activity] on the rows. *)
Definition activity (conversation_id : Z) (user_message : option string) (now : Z)
    (cs : list Conversation) : list Conversation :=
  let cs1 := update_where (fun c => c_id c =? conversation_id) (touch now) cs in
  match select_where (fun c => c_id c =? conversation_id) cs1, user_message with
  | c :: _, Some (String a m) =>
      if truthy (c_title c) then cs1
      else update_where (fun c => c_id c =? conversation_id)
             (set_title (derive_title (String a m))) cs1
  | _, _ => cs1
  end.

End TableContract.

Section ListingContract.

Import Db.

(** A search text free of the LIKE wildcards. *)
Fixpoint wildcard_free (q : string) : bool :=
  match q with
  | EmptyString => true
  | String c q' => negb (Ascii.eqb c "%") && negb (Ascii.eqb c "_") && wildcard_free q'
  end.

(** [q] occurs in [s], letters of ASCII compared without regard to case. *)
Definition icontains (q s : string) : bool :=
  PyStr.contains (PyStr.lower q) (PyStr.lower s).

(** The folder filter of [get_journals]: none for no id and for id 0. *)
Definition in_folder (folder_id : option Z) (j : Journal) : Prop :=
  match folder_id with
  | Some f => f = 0 \/ j_folder_id j = Some f
  | None => True
  end.

(** Ids handed out by the AUTOINCREMENT counters. *)
Definition journal_ids_ok (db : Database) : Prop :=
  Forall (fun j => j_id j <= journals_seq db) (journals db).

(** The key a session is resolved by. *)
Definition session_key (c : Conversation) : string * Z := (c_session_id c, c_user_id c).

(** Every window of [conversation_memory] holds at most eleven entries. *)
Definition windows_ok (memory : gmap string (list string)) : Prop :=
  forall session window, memory !! session = Some window -> (length window <= 11)%nat.

End ListingContract.

Section TagContract.

(** A printable character of ASCII that [json.dumps] writes as it is. *)
Definition plain_char (c : ascii) : bool :=
  let n := nat_of_ascii c in
  (32 <=? n)%nat && (n <=? 126)%nat && negb (n =? 34)%nat && negb (n =? 92)%nat.

Fixpoint plain (q : string) : bool :=
  match q with
  | EmptyString => true
  | String c q' => plain_char c && plain q'
  end.

End TagContract.

Section ShareContract.

Import Db.

(** The row selected by [share_journal], and what the UPDATE makes of it. *)
Definition share_hit (journal_id user_id : Z) (j : Journal) : bool :=
  (j_id j =? journal_id) && (j_user_id j =? user_id).

Definition toggle_share (share_token : string) (now : Z) (j : Journal) : Journal :=
  mkJournal (j_id j) (j_title j) (j_content j) (j_tags j) (j_folder_id j) (j_user_id j)
    (negb (j_is_shared j)) (Some share_token) (j_created_at j) now.

(** The constraints of the [journals] table: primary key and UNIQUE share
    token. *)
Record journals_ok (db : Database) : Prop := {
  ok_journal_ids : NoDup (j_id <$> journals db);
  ok_share_tokens : NoDup (share_tokens (journals db)) }.

End ShareContract.

Section SessionContract.

Import Db.

(** The WHERE clause by which a session is resolved to its conversation. *)
Definition of_session (session_id : string) (user_id : Z) (c : Conversation) : bool :=
  String.eqb (c_session_id c) session_id && (c_user_id c =? user_id).

(** At most one conversation per session and owner. *)
Definition sessions_unique (db : Database) : Prop :=
  NoDup (session_key <$> conversations db).

(** What [add_chat_message] hands to [update_conversation_activity]. *)
Definition title_source (sender message : string) : option string :=
  if String.eqb sender "user" then Some message else None.

(** The row that [update_conversation_activity] makes of a row. *)
Definition active_row (conversation_id : Z) (new_title : option string) (now : Z)
    (c : Conversation) : Conversation :=
  if c_id c =? conversation_id then
    match new_title with
    | Some title => set_title title (touch now c)
    | None => touch now c
    end
  else c.

End SessionContract.

Section ChatContract.

(** The window kept for the prompt: the entries of the session so far and
    the message of the user, cut to the last ten. *)
Definition prompt_window (memory : gmap string (list string)) (session user_message : string)
  : list string :=
  let history := default [] (memory !! session) ++ ["Human: " +:+ user_message] in
  if (10 <? length history)%nat then App.last_n 10 history else history.

End ChatContract.

(** * Properties *)

(** ** Strings *)

Section StringFacts.

Import PyStr.



Lemma first_chars_short (n : nat) (s : string) :
  (String.length s <= n)%nat -> first_chars n s = s.
Proof.
  unfold first_chars. revert n.
  induction s as [|c s IH]; intros [|n] Hn; simpl in *; try reflexivity; try lia.
  f_equal. apply IH. lia.
Qed.

Lemma first_chars_length (n : nat) (s : string) :
  (n <= String.length s)%nat -> String.length (first_chars n s) = n.
Proof.
  unfold first_chars. revert n.
  induction s as [|c s IH]; intros [|n] Hn; simpl in *; try reflexivity; try lia.
  f_equal. apply IH. lia.
Qed.

(** The first [n] characters are a prefix: the string is they and a rest. *)
Lemma first_chars_split (n : nat) (s : string) :
  exists rest, s = first_chars n s +:+ rest.
Proof.
  unfold first_chars. revert n.
  induction s as [|c s IH]; intros [|n].
  - exists "". reflexivity.
  - exists "". reflexivity.
  - exists (String c s). reflexivity.
  - destruct (IH n) as (rest & Hrest). exists rest.
    change (String c s = String c (String.substring 0 n s +:+ rest)).
    f_equal. exact Hrest.
Qed.

(** A prefix of a given length is unique. *)
Lemma append_prefix_unique (a b c d : string) :
  a +:+ b = c +:+ d -> String.length a = String.length c -> a = c.
Proof.
  revert c. induction a as [|x a IH]; intros [|y c] H Hlen; simpl in Hlen;
    try reflexivity; try discriminate Hlen.
  change (String x (a +:+ b) = String y (c +:+ d)) in H.
  inversion H. subst y. f_equal. apply IH; [assumption|lia].
Qed.

Lemma append_assoc (a b c : string) : (a +:+ b) +:+ c = a +:+ (b +:+ c).
Proof.
  induction a as [|d a IH]; [reflexivity|].
  change (String d ((a +:+ b) +:+ c) = String d (a +:+ (b +:+ c))).
  rewrite IH. reflexivity.
Qed.

Lemma append_empty_r (a : string) : a +:+ "" = a.
Proof.
  induction a as [|d a IH]; [reflexivity|].
  change (String d (a +:+ "") = String d a).
  rewrite IH. reflexivity.
Qed.

Lemma int_str (n : N) : int (str n) = n.
Proof.
  unfold int, str. rewrite NilEmpty.usu. apply DecimalN.Unsigned.of_to.
Qed.

End StringFacts.

(** ** The fallback generator *)

Section FallbackFacts.

Import PyStr Fallback.





(** The default template also asks two questions, and echoes those of
    the input. *)
Example generate_fallback_default_echo :
  questions (generate_fallback "why is the sky so blue today?") = 3%nat.
Proof. reflexivity. Qed.

End FallbackFacts.

(** ** Duration parsing *)

Section DurationFacts.

Import PyStr Video.

(** The printed numeral of [d] followed by a letter: the digit run stops
    at the letter. *)
Lemma span_digits_numeral (d : Decimal.uint) (c : ascii) (rest : string) :
  is_digit c = false ->
  span_digits (NilEmpty.string_of_uint d +:+ String c rest)
  = (NilEmpty.string_of_uint d, String c rest).
Proof.
  intros Hc. induction d as [|d IH|d IH|d IH|d IH|d IH|d IH|d IH|d IH|d IH|d IH];
    simpl; try (rewrite IH; reflexivity).
  rewrite Hc. reflexivity.
Qed.

Lemma str_nonempty (n : N) : exists d ds, str n = String d ds.
Proof.
  unfold str. destruct n as [|p]; simpl; [eauto|].
  pose proof (DecimalPos.Unsigned.to_uint_nonnil p) as Hp.
  destruct (Pos.to_uint p); simpl; eauto. congruence.
Qed.

Lemma opt_group_numeral (unit c : ascii) (n : N) (rest : string) :
  is_digit c = false ->
  opt_group unit (str n +:+ String c rest)
  = if Ascii.eqb c unit then (Some (str n), rest)
    else (None, str n +:+ String c rest).
Proof.
  intros Hc. unfold opt_group, str.
  rewrite span_digits_numeral by exact Hc.
  destruct (str_nonempty n) as (d & ds & Hn). unfold str in Hn.
  rewrite Hn. reflexivity.
Qed.

Lemma match_duration_token (hours minutes seconds : option N) :
  match_duration (duration_token hours minutes seconds)
  = Some (str <$> hours, str <$> minutes, str <$> seconds).
Proof.
  unfold duration_token, match_duration.
  change ("PT" +:+ ?s) with (String "P" (String "T" s)).
  destruct hours as [h|], minutes as [m|], seconds as [s|]; unfold component;
    rewrite ?append_assoc, ?append_empty_r;
    repeat change (String.append "" ?r) with r;
    repeat change (String ?c "" +:+ ?r) with (String c r).
  all: repeat (rewrite opt_group_numeral by reflexivity; simpl Ascii.eqb; cbv iota).
  all: try reflexivity.
Qed.

(** C7, as amended. For every duration token, whose hours, minutes and
    seconds components are each present or absent, an absent component
    counts as zero and the result is [h:mm:ss] when the hours are not
    zero and [m:ss] otherwise, minutes (after hours) and seconds padded
    with a zero to two digits. The three tokens of the specification
    give ["1:02:03"], ["5:09"] and ["0:00"]. *)
Theorem parse_youtube_duration_format :
  (forall hours minutes seconds : option N,
      parse_youtube_duration (duration_token hours minutes seconds)
      = let h := default 0%N hours in
        let m := default 0%N minutes in
        let s := default 0%N seconds in
        if (0 <? h)%N then str h +:+ ":" +:+ pad2 m +:+ ":" +:+ pad2 s
        else str m +:+ ":" +:+ pad2 s) /\
  parse_youtube_duration "PT1H2M3S" = "1:02:03" /\
  parse_youtube_duration "PT5M9S" = "5:09" /\
  parse_youtube_duration "PT0S" = "0:00".
Proof.
  split; [|repeat split; reflexivity].
  intros hours minutes seconds. unfold parse_youtube_duration.
  rewrite match_duration_token.
  destruct hours, minutes, seconds; simpl; rewrite ?int_str; reflexivity.
Qed.

(** C7 as stated fails on a token whose hours component is present and
    zero: the code prints [m:ss]. *)
Lemma parse_youtube_duration_zero_hours :
  duration_token (Some 0%N) (Some 5%N) (Some 9%N) = "PT0H5M9S" /\
  parse_youtube_duration "PT0H5M9S" = "5:09" /\
  claimed_format (Some 0%N) (Some 5%N) (Some 9%N) = "0:05:09" /\
  parse_youtube_duration (duration_token (Some 0%N) (Some 5%N) (Some 9%N))
  <> claimed_format (Some 0%N) (Some 5%N) (Some 9%N).
Proof. repeat split; try reflexivity. vm_compute. discriminate. Qed.

(** A token that does not start with [PT] yields ["0:00"]. *)
Example parse_youtube_duration_no_match :
  parse_youtube_duration "P1DT2H3M4S" = "0:00".
Proof. reflexivity. Qed.

End DurationFacts.

(** ** Tables *)

Section TableFacts.

Import Db.

Context {A : Type}.

Lemma update_where_length (p : A -> bool) (f : A -> A) (rows : list A) :
  length (update_where p f rows) = length rows.
Proof. unfold update_where. apply length_map. Qed.

Lemma update_where_no_hit (p : A -> bool) (f : A -> A) (rows : list A) :
  existsb p rows = false -> update_where p f rows = rows.
Proof.
  induction rows as [|r rows IH]; simpl; [reflexivity|].
  intros H. apply orb_false_iff in H as [Hr Hrows].
  rewrite Hr, IH by exact Hrows. reflexivity.
Qed.

Lemma update_where_Forall2 (R : A -> A -> Prop) (p : A -> bool) (f : A -> A)
    (rows : list A) :
  (forall r, R r (if p r then f r else r)) ->
  Forall2 R rows (update_where p f rows).
Proof.
  intros Hf. induction rows as [|r rows IH]; simpl; constructor; [apply Hf|exact IH].
Qed.

Lemma update_where_Forall (P : A -> Prop) (p : A -> bool) (f : A -> A) (rows : list A) :
  (forall r, P r -> P (f r)) -> Forall P rows -> Forall P (update_where p f rows).
Proof.
  intros Hf. induction 1 as [|r rows Hr _ IH]; simpl; constructor; [|exact IH].
  destruct (p r); auto.
Qed.

Lemma update_where_lookup (p : A -> bool) (f : A -> A) (rows : list A) (i : nat) :
  update_where p f rows !! i = (fun r => if p r then f r else r) <$> rows !! i.
Proof. unfold update_where. apply list_lookup_fmap. Qed.

Lemma elem_of_update_where (p : A -> bool) (f : A -> A) (rows : list A) (r' : A) :
  r' ∈ update_where p f rows <->
  exists r, r ∈ rows /\ r' = if p r then f r else r.
Proof.
  unfold update_where. rewrite list_elem_of_fmap. split; intros (r & H1 & H2); eauto.
Qed.

Lemma elem_of_select_where (p : A -> bool) (rows : list A) (r : A) :
  r ∈ select_where p rows <-> r ∈ rows /\ p r = true.
Proof.
  unfold select_where. rewrite !list_elem_of_In, filter_In. reflexivity.
Qed.

Lemma elem_of_delete_where (p : A -> bool) (rows : list A) (r : A) :
  r ∈ delete_where p rows <-> r ∈ rows /\ p r = false.
Proof.
  unfold delete_where. rewrite !list_elem_of_In, filter_In, negb_true_iff. reflexivity.
Qed.

Lemma delete_where_no_hit (p : A -> bool) (rows : list A) :
  Forall (fun r => p r = false) rows -> delete_where p rows = rows.
Proof.
  unfold delete_where. induction 1 as [|r rows Hr _ IH]; simpl; [reflexivity|].
  rewrite Hr. simpl. rewrite IH. reflexivity.
Qed.

Lemma select_where_app (p : A -> bool) (l1 l2 : list A) :
  select_where p (l1 ++ l2) = select_where p l1 ++ select_where p l2.
Proof. unfold select_where. apply List.filter_app. Qed.

Lemma limit_rows_all (n : Z) (rows : list A) :
  Z.of_nat (length rows) <= n -> limit_rows n rows = rows.
Proof.
  intros Hn. unfold limit_rows. destruct (n <? 0) eqn:E; [reflexivity|].
  apply take_ge. lia.
Qed.

Lemma elem_of_limit_rows (n : Z) (rows : list A) (r : A) :
  r ∈ limit_rows n rows -> r ∈ rows.
Proof.
  unfold limit_rows. destruct (n <? 0); [auto|].
  intros H. eapply subseteq_take; eauto.
Qed.

End TableFacts.

(** ** Journals *)

Section JournalFacts.

Import Db.

Lemma set_journals_id (db : Database) : set_journals (journals db) db = db.
Proof. destruct db; reflexivity. Qed.

(** The SET list of [update_journal] on one row. *)
Lemma assign_all_columns (title content : option string) (tags : option (list string))
    (folder_id : option Z) (now : Z) (j : Journal) :
  let updates :=
    append_if SetFolderId folder_id
      (append_if SetTags tags
         (append_if SetContent content (append_if SetTitle title [])))
    ++ [SetUpdatedAt now] in
  assign_all updates j
  = mkJournal (j_id j) (default (j_title j) title) (default (j_content j) content)
      (from_option Some (j_tags j) tags) (from_option Some (j_folder_id j) folder_id)
      (j_user_id j) (j_is_shared j) (j_share_token j) (j_created_at j) now.
Proof. destruct title, content, tags, folder_id; reflexivity. Qed.

(** C9. In [update_journal] a field passed as [None] leaves its column as
    it was, in every row; a folder reference that is set stays set
    through the update, while [delete_folder] does null it; and a call
    whose fields are all [None] returns [False] and leaves the database
    as it was, the handler answering 400. *)
Theorem update_journal_none_keeps_column (journal_id : Z) (title content : option string)
    (tags : option (list string)) (folder_id : option Z) (now : Z) (st : App.State) :
  let db := App.db st in
  let db' := (update_journal journal_id title content tags folder_id now db).1 in
  Forall2 (fun j j' =>
             j_id j' = j_id j /\
             (title = None -> j_title j' = j_title j) /\
             (content = None -> j_content j' = j_content j) /\
             (tags = None -> j_tags j' = j_tags j) /\
             (folder_id = None -> j_folder_id j' = j_folder_id j) /\
             (is_Some (j_folder_id j) -> is_Some (j_folder_id j')))
    (journals db) (journals db') /\
  (forall f user_id,
      Forall2 (fun j j' => j_folder_id j = Some f -> j_folder_id j' = None)
        (journals db) (journals (delete_folder f user_id db).1)) /\
  (title = None -> content = None -> tags = None -> folder_id = None ->
   update_journal journal_id title content tags folder_id now db = (db, false) /\
   App.update_journal journal_id title content tags folder_id now st
   = (st, App.mkResponse 400 (App.ErrorBody "No changes made"))).
Proof.
  intros db db'. split; [|split].
  - subst db'. unfold update_journal.
    pose proof (assign_all_columns title content tags folder_id now) as Hcols.
    cbv zeta in Hcols.
    destruct (append_if SetFolderId folder_id
                (append_if SetTags tags
                   (append_if SetContent content (append_if SetTitle title []))))
      as [|a updates] eqn:E.
    + simpl. destruct title, content, tags, folder_id; try discriminate E.
      apply Forall2_same_length_lookup_2; [reflexivity|].
      intros i j j' H1 H2. assert (j = j') by congruence. subst j'. tauto.
    + simpl. apply update_where_Forall2.
      intros j. destruct (j_id j =? journal_id); [|tauto].
      rewrite Hcols.
      destruct title, content, tags, folder_id; simpl;
        repeat split; try discriminate; try tauto; eauto.
  - intros f user_id. simpl. apply update_where_Forall2.
    intros j Hj. rewrite Hj. simpl. rewrite Z.eqb_refl. reflexivity.
  - intros -> -> -> ->. split; [reflexivity|].
    unfold App.update_journal. simpl. destruct st; reflexivity.
Qed.

(** C9 on a journal filed in folder 3: renaming it keeps the folder. *)
Lemma update_journal_none_keeps_column_witness :
  let st :=
    App.mkState ∅ (create_journal "Notes" "Torque" None (Some 3) 1 5 init_database).1 in
  journals (update_journal 1 (Some "Day one") None None None 7 (App.db st)).1
  = [mkJournal 1 "Day one" "Torque" None (Some 3) 1 false None 5 7] /\
  update_journal 1 None None None None 7 (App.db st) = (App.db st, false).
Proof.
  intros st.
  pose proof (update_journal_none_keeps_column 1 None None None None 7 st) as (_ & _ & H).
  split; [reflexivity|]. apply H; reflexivity.
Defined.

End JournalFacts.

(** ** Sharing *)

Section ShareFacts.

Import Db.

(** C10. When no journal row has the given id and owner 1, [share_journal]
    still returns the token it drew, the UPDATE touches no row, and the
    share endpoint answers 200 with that token and its URL; a token that
    no stored journal held before is held by none afterwards. *)
Theorem share_journal_unmatched_returns_token (journal_id : Z)
    (host_url share_token : string) (now : Z) (st : App.State) :
  existsb (fun j => (j_id j =? journal_id) && (j_user_id j =? 1))
    (journals (App.db st)) = false ->
  share_token ∉ share_tokens (journals (App.db st)) ->
  share_journal journal_id 1 share_token now (App.db st) = Ok (App.db st, share_token) /\
  App.toggle_journal_sharing journal_id host_url share_token now st
  = (st, App.mkResponse 200
           (App.ShareBody "Journal sharing toggled successfully" share_token
              (host_url +:+ "shared/" +:+ share_token))) /\
  Forall (fun j => j_share_token j <> Some share_token)
    (journals (App.db (App.toggle_journal_sharing journal_id host_url share_token now st).1)).
Proof.
  intros Hmiss Hfresh.
  assert (Hdb : share_journal journal_id 1 share_token now (App.db st)
                = Ok (App.db st, share_token)).
  { unfold share_journal. rewrite Hmiss. simpl.
    rewrite update_where_no_hit by exact Hmiss.
    rewrite set_journals_id. reflexivity. }
  assert (Hresp : App.toggle_journal_sharing journal_id host_url share_token now st
                  = (st, App.mkResponse 200
                           (App.ShareBody "Journal sharing toggled successfully" share_token
                              (host_url +:+ "shared/" +:+ share_token)))).
  { unfold App.toggle_journal_sharing. rewrite Hdb. destruct st; reflexivity. }
  split; [exact Hdb|]. split; [exact Hresp|].
  rewrite Hresp. simpl. apply Forall_forall. intros j Hj Htok.
  apply Hfresh. unfold share_tokens. apply list_elem_of_omap. eauto.
Qed.

(** C10 on a database whose only journal has id 1: sharing journal 7. *)
Lemma share_journal_unmatched_returns_token_witness :
  let st :=
    App.mkState ∅ (create_journal "Notes" "Torque" None None 1 5 init_database).1 in
  App.toggle_journal_sharing 7 "http://127.0.0.1:5001/" "k3Yt0kEn" 9 st
  = (st, App.mkResponse 200
           (App.ShareBody "Journal sharing toggled successfully" "k3Yt0kEn"
              "http://127.0.0.1:5001/shared/k3Yt0kEn")).
Proof.
  intros st.
  refine (proj1 (proj2 (share_journal_unmatched_returns_token 7 "http://127.0.0.1:5001/"
                          "k3Yt0kEn" 9 st _ _))).
  - reflexivity.
  - vm_compute. intros H. inversion H.
Defined.

(** On a matching row the flag flips and the token is stored. *)
Example share_journal_matched :
  let db := (create_journal "Notes" "Torque" None None 1 5 init_database).1 in
  share_journal 1 1 "k3Yt0kEn" 9 db
  = Ok (set_journals [mkJournal 1 "Notes" "Torque" None None 1 true (Some "k3Yt0kEn") 5 9] db,
        "k3Yt0kEn").
Proof. reflexivity. Qed.

End ShareFacts.

(** ** Watch history *)

Section HistoryFacts.

Import Db.

Lemma init_history_ids_ok : history_ids_ok init_database.
Proof. constructor. Qed.

Lemma add_video_to_history_ids_ok (video_id title channel thumbnail_url search_query : string)
    (user_id now : Z) (db : Database) :
  history_ids_ok db ->
  history_ids_ok
    (add_video_to_history video_id title channel thumbnail_url search_query user_id now db).1.
Proof.
  unfold history_ids_ok. intros Hok. simpl.
  apply Forall_app. split.
  - apply Forall_forall. intros v Hv. apply elem_of_delete_where in Hv as [Hv _].
    rewrite Forall_forall in Hok. specialize (Hok v Hv). lia.
  - repeat constructor. simpl. lia.
Qed.

(** The INSERT OR REPLACE of [add_video_to_history] replaces nothing: the
    rows of the video for the owner are the former ones and the new one. *)
Lemma add_video_to_history_appends (video_id title channel thumbnail_url search_query : string)
    (user_id now : Z) (db : Database) :
  history_ids_ok db ->
  history_rows video_id user_id
    (add_video_to_history video_id title channel thumbnail_url search_query user_id now db).1
  = history_rows video_id user_id db
    ++ [mkVideoHistory (video_history_seq db + 1) video_id title channel thumbnail_url
          search_query user_id now].
Proof.
  intros Hok. unfold history_rows. simpl.
  rewrite delete_where_no_hit.
  - rewrite select_where_app. simpl.
    rewrite String.eqb_refl, Z.eqb_refl. reflexivity.
  - eapply Forall_impl; [exact Hok|]. simpl. intros v Hv. lia.
Qed.

(** C2 on the input of the specification: video ["abc123"] added twice
    for owner 1 leaves two history rows for that id, the first call's
    row among them. *)
Theorem add_video_to_history_twice_keeps_both :
  let db1 :=
    (add_video_to_history "abc123" "Torque basics" "Physics Hub" "thumb-1" "torque"
       1 100 init_database).1 in
  let db2 :=
    (add_video_to_history "abc123" "Torque, revisited" "Physics Hub" "thumb-2" "rotation"
       1 200 db1).1 in
  history_rows "abc123" 1 db2
  = [mkVideoHistory 1 "abc123" "Torque basics" "Physics Hub" "thumb-1" "torque" 1 100;
     mkVideoHistory 2 "abc123" "Torque, revisited" "Physics Hub" "thumb-2" "rotation" 1 200] /\
  get_video_history 1 50 db2
  = [mkVideoHistory 2 "abc123" "Torque, revisited" "Physics Hub" "thumb-2" "rotation" 1 200;
     mkVideoHistory 1 "abc123" "Torque basics" "Physics Hub" "thumb-1" "torque" 1 100] /\
  length (history_rows "abc123" 1 db2) = 2%nat.
Proof. repeat split; vm_compute; reflexivity. Qed.

End HistoryFacts.

(** ** Conversations *)

Section ConversationFacts.

Import Db.

Lemma init_conversations_ok : conversations_ok init_database.
Proof. split; simpl; constructor. Qed.

Lemma truthy_title (t : option string) :
  t <> Some "" -> truthy t = match t with Some _ => true | None => false end.
Proof. destruct t as [[|c s]|]; simpl; congruence. Qed.

Lemma derive_title_nonempty (message : string) :
  message <> "" -> derive_title message <> "".
Proof. destruct message; [congruence|]. intros _. discriminate. Qed.

Lemma derive_title_short (message : string) :
  (String.length message <= 50)%nat -> derive_title message = message.
Proof.
  intros H. unfold derive_title, PyStr.len.
  rewrite first_chars_short by exact H.
  destruct (50 <? Z.of_nat (String.length message)) eqn:E; [lia|].
  apply append_empty_r.
Qed.

Lemma derive_title_long (message : string) :
  (50 < String.length message)%nat ->
  derive_title message = PyStr.first_chars 50 message +:+ "...".
Proof.
  intros H. unfold derive_title, PyStr.len.
  destruct (50 <? Z.of_nat (String.length message)) eqn:E; [reflexivity|lia].
Qed.

(** Rows with a unique key are determined by the key. *)
Lemma unique_id_eq (cs : list Conversation) (c c' : Conversation) :
  NoDup (c_id <$> cs) -> c ∈ cs -> c' ∈ cs -> c_id c = c_id c' -> c = c'.
Proof.
  induction cs as [|x cs IH]; intros Hnd Hc Hc' Hid; [inversion Hc|].
  rewrite fmap_cons in Hnd. apply NoDup_cons in Hnd as [Hx Hnd].
  apply elem_of_cons in Hc as [->|Hc]; apply elem_of_cons in Hc' as [->|Hc'].
  - reflexivity.
  - exfalso. apply Hx. rewrite Hid. apply list_elem_of_fmap. eauto.
  - exfalso. apply Hx. rewrite <- Hid. apply list_elem_of_fmap. eauto.
  - auto.
Qed.

Lemma update_where_ids (p : Conversation -> bool) (f : Conversation -> Conversation)
    (cs : list Conversation) :
  (forall c, c_id (f c) = c_id c) ->
  c_id <$> update_where p f cs = c_id <$> cs.
Proof.
  intros Hf. unfold update_where. induction cs as [|c cs IH]; simpl; [reflexivity|].
  f_equal; [|exact IH]. destruct (p c); auto.
Qed.

(** *** The conversation a session resolves to *)

Lemma get_or_create_conversation_spec (session_id : string) (user_id now : Z)
    (db : Database) :
  let r := get_or_create_conversation session_id user_id now db in
  chat_messages r.1 = chat_messages db /\
  chat_messages_seq r.1 = chat_messages_seq db /\
  ((r.1 = db /\ exists c, c ∈ conversations db /\ c_id c = r.2) \/
   (conversations r.1
    = conversations db
      ++ [mkConversation (conversations_seq db + 1) session_id None user_id
            (Some false) None now now] /\
    conversations_seq r.1 = conversations_seq db + 1 /\
    r.2 = conversations_seq db + 1)).
Proof.
  unfold get_or_create_conversation.
  destruct (select_where _ (conversations db)) as [|c cs] eqn:E; simpl.
  - repeat split; try reflexivity. right. repeat split; reflexivity.
  - repeat split; try reflexivity. left. split; [reflexivity|].
    exists c. split; [|reflexivity].
    assert (Hc : c ∈ select_where
              (fun c => String.eqb (c_session_id c) session_id && (c_user_id c =? user_id))
              (conversations db)) by (rewrite E; left).
    apply elem_of_select_where in Hc. tauto.
Qed.

Lemma update_conversation_activity_rows (conversation_id : Z)
    (user_message : option string) (now : Z) (db : Database) :
  update_conversation_activity conversation_id user_message now db
  = set_conversations (activity conversation_id user_message now (conversations db)) db.
Proof.
  unfold update_conversation_activity, activity.
  destruct user_message as [[|a m]|]; simpl;
    destruct (select_where _ _) as [|c cs]; try reflexivity.
  destruct (truthy (c_title c)); reflexivity.
Qed.

Lemma activity_ids (conversation_id : Z) (user_message : option string) (now : Z)
    (cs : list Conversation) :
  c_id <$> activity conversation_id user_message now cs = c_id <$> cs.
Proof.
  unfold activity.
  destruct (select_where _ _) as [|c ?]; [|destruct user_message as [[|a m]|]];
    try destruct (truthy (c_title c));
    rewrite ?update_where_ids; auto.
Qed.

Lemma activity_length (conversation_id : Z) (user_message : option string) (now : Z)
    (cs : list Conversation) :
  length (activity conversation_id user_message now cs) = length cs.
Proof.
  rewrite <- (length_fmap c_id), activity_ids, length_fmap. reflexivity.
Qed.

(** A row keeps its place; its title changes only when NULL or empty. *)
Lemma activity_lookup (conversation_id : Z) (user_message : option string) (now : Z)
    (cs : list Conversation) (i : nat) (c : Conversation) :
  NoDup (c_id <$> cs) ->
  cs !! i = Some c ->
  exists c', activity conversation_id user_message now cs !! i = Some c' /\
             c_id c' = c_id c /\
             (truthy (c_title c) = true -> c_title c' = c_title c).
Proof.
  intros Hnd Hi. unfold activity.
  set (cs1 := update_where (fun c => c_id c =? conversation_id) (touch now) cs).
  assert (H1 : cs1 !! i = Some (if c_id c =? conversation_id then touch now c else c)).
  { subst cs1. rewrite update_where_lookup, Hi. reflexivity. }
  assert (Hkeep : exists c', cs1 !! i = Some c' /\ c_id c' = c_id c /\ c_title c' = c_title c).
  { eexists. split; [exact H1|]. destruct (c_id c =? conversation_id); auto. }
  destruct (select_where _ cs1) as [|h hs] eqn:E;
    [destruct Hkeep as (c' & ? & ? & ?); exists c'; auto|].
  destruct user_message as [[|a m]|];
    try (destruct Hkeep as (c' & ? & ? & ?); exists c'; auto; fail).
  destruct (truthy (c_title h)) eqn:Eh;
    [destruct Hkeep as (c' & ? & ? & ?); exists c'; auto|].
  rewrite update_where_lookup, H1. simpl.
  assert (Hh : h ∈ cs1 /\ (c_id h =? conversation_id) = true).
  { apply (elem_of_select_where (fun c => c_id c =? conversation_id)).
    rewrite E. left. }
  destruct Hh as [Hh Hhid]. apply Z.eqb_eq in Hhid.
  destruct (c_id c =? conversation_id) eqn:Ec.
  - simpl. rewrite Ec. eexists. split; [reflexivity|]. split; [reflexivity|].
    intros Ht. exfalso. apply Z.eqb_eq in Ec.
    assert (h = touch now c).
    { apply (unique_id_eq cs1).
      - subst cs1. rewrite update_where_ids; auto.
      - exact Hh.
      - apply list_elem_of_lookup. exists i. exact H1.
      - simpl. congruence. }
    subst h. simpl in Eh. congruence.
  - rewrite Ec. eexists. split; [reflexivity|]. auto.
Qed.

Lemma activity_titles (conversation_id : Z) (user_message : option string) (now : Z)
    (cs : list Conversation) :
  Forall (fun c => c_title c <> Some "") cs ->
  Forall (fun c => c_title c <> Some "") (activity conversation_id user_message now cs).
Proof.
  intros Hcs. unfold activity.
  assert (H1 : Forall (fun c => c_title c <> Some "")
                 (update_where (fun c => c_id c =? conversation_id) (touch now) cs))
    by (apply update_where_Forall; auto).
  destruct (select_where _ _) as [|h hs]; [exact H1|].
  destruct user_message as [[|a m]|]; try exact H1.
  destruct (truthy (c_title h)); [exact H1|].
  apply update_where_Forall; [|exact H1].
  intros c _. simpl. discriminate.
Qed.

(** A first non-empty user message gives the title to a conversation
    whose title is NULL. *)
Lemma activity_sets_title (conversation_id : Z) (a : ascii) (m : string) (now : Z)
    (cs : list Conversation) (c0 : Conversation) :
  c0 ∈ cs -> c_id c0 = conversation_id ->
  (forall c, c ∈ cs -> c_id c = conversation_id -> c_title c = None) ->
  exists c', c' ∈ activity conversation_id (Some (String a m)) now cs /\
             c_id c' = conversation_id /\
             c_title c' = Some (derive_title (String a m)).
Proof.
  intros Hc0 Hid Hnull. unfold activity.
  set (hit := fun c => c_id c =? conversation_id).
  set (cs1 := update_where hit (touch now) cs).
  assert (H0 : touch now c0 ∈ cs1).
  { apply elem_of_update_where. exists c0. split; [exact Hc0|].
    unfold hit. rewrite (proj2 (Z.eqb_eq _ _) Hid). reflexivity. }
  assert (Hsel : touch now c0 ∈ select_where hit cs1).
  { apply elem_of_select_where. split; [exact H0|].
    unfold hit. simpl. apply Z.eqb_eq. exact Hid. }
  destruct (select_where hit cs1) as [|h hs] eqn:E; [inversion Hsel|].
  assert (Hh : h ∈ cs1 /\ hit h = true).
  { apply elem_of_select_where. rewrite E. left. }
  destruct Hh as [Hh Hhid].
  apply elem_of_update_where in Hh as (c & Hc & Hhc).
  assert (Hht : c_title h = None).
  { unfold hit in Hhid. apply Z.eqb_eq in Hhid.
    assert (c_id c = conversation_id).
    { subst h. destruct (hit c); simpl in Hhid; exact Hhid. }
    subst h. destruct (hit c); simpl; auto. }
  rewrite Hht. simpl.
  exists (set_title (derive_title (String a m)) (touch now c0)).
  split; [|split; [exact Hid|reflexivity]].
  apply elem_of_update_where. exists (touch now c0). split; [exact H0|].
  unfold hit at 1. simpl. rewrite (proj2 (Z.eqb_eq _ _) Hid). reflexivity.
Qed.

(** *** [add_chat_message] *)

Lemma add_chat_message_rows (session_id sender message : string) (user_id now : Z)
    (db : Database) :
  let r := get_or_create_conversation session_id user_id now db in
  let user_message := if String.eqb sender "user" then Some message else None in
  let db' := (add_chat_message session_id sender message user_id now db).1 in
  (add_chat_message session_id sender message user_id now db).2 = r.2 /\
  conversations db' = activity r.2 user_message now (conversations r.1) /\
  conversations_seq db' = conversations_seq r.1 /\
  chat_messages db'
  = chat_messages db
    ++ [mkChatMessage (chat_messages_seq db + 1) r.2 session_id sender message now] /\
  chat_messages_seq db' = chat_messages_seq db + 1.
Proof.
  intros r user_message db'. subst db'.
  pose proof (get_or_create_conversation_spec session_id user_id now db) as (Hm & Hs & _).
  fold r in Hm, Hs. unfold add_chat_message. fold r. fold user_message.
  destruct r as [db0 cid]. simpl in *.
  rewrite update_conversation_activity_rows. simpl.
  rewrite Hm, Hs. repeat split; reflexivity.
Qed.

Lemma add_chat_message_ok (session_id sender message : string) (user_id now : Z)
    (db : Database) :
  conversations_ok db ->
  conversations_ok (add_chat_message session_id sender message user_id now db).1.
Proof.
  intros [Hnd Hb Ht].
  pose proof (add_chat_message_rows session_id sender message user_id now db)
    as (_ & Hc & Hseq & _).
  pose proof (get_or_create_conversation_spec session_id user_id now db)
    as (_ & _ & Hr).
  cbv zeta in Hc, Hseq, Hr.
  destruct Hr as [[Hr _]|(Hr & Hrs & _)].
  - rewrite Hr in Hc, Hseq.
    split; rewrite ?Hc, ?Hseq, ?activity_ids; auto using activity_titles.
  - rewrite Hr in Hc. rewrite Hrs in Hseq.
    split; rewrite ?Hc, ?Hseq, ?activity_ids.
    + rewrite fmap_app. apply NoDup_app. split; [exact Hnd|]. split.
      * intros i Hi Hi'. simpl in Hi'. apply list_elem_of_singleton in Hi'.
        rewrite Forall_forall in Hb. specialize (Hb i Hi). lia.
      * simpl. apply NoDup_singleton.
    + rewrite fmap_app. apply Forall_app. split.
      * eapply Forall_impl; [exact Hb|]. simpl. intros; lia.
      * repeat constructor. simpl. lia.
    + apply activity_titles. apply Forall_app. split; [exact Ht|].
      repeat constructor. simpl. discriminate.
Qed.

(** C5. Storing a message never changes a title that exists, and keeps
    every conversation in place; the first user message stored in a
    conversation whose title is NULL makes the title the first 50
    characters of that message, followed by ["..."] exactly when the
    message is longer than 50 characters: a message of at most 50
    characters is the title as it is, and a longer one splits into a head
    of exactly 50 characters and a rest, the title being the head and
    ["..."]. The message is not empty, as the chat handler ensures. *)
Theorem title_derived_once (session_id sender message : string) (user_id now : Z)
    (db : Database) :
  conversations_ok db ->
  let db' := (add_chat_message session_id sender message user_id now db).1 in
  let conversation_id := (add_chat_message session_id sender message user_id now db).2 in
  conversations_ok db' /\
  (forall i c t,
      conversations db !! i = Some c -> c_title c = Some t ->
      exists c', conversations db' !! i = Some c' /\
                 c_id c' = c_id c /\ c_title c' = Some t) /\
  (sender = "user" -> message <> "" ->
   (forall c, c ∈ conversations db -> c_id c = conversation_id -> c_title c = None) ->
   exists c', c' ∈ conversations db' /\ c_id c' = conversation_id /\
              c_title c'
              = Some (PyStr.first_chars 50 message
                      +:+ (if 50 <? PyStr.len message then "..." else "")) /\
              ((String.length message <= 50)%nat -> c_title c' = Some message) /\
              ((50 < String.length message)%nat ->
               c_title c' = Some (PyStr.first_chars 50 message +:+ "...") /\
               exists head rest,
                 message = head +:+ rest /\ String.length head = 50%nat /\
                 c_title c' = Some (head +:+ "..."))).
Proof.
  intros Hok db' conversation_id.
  pose proof (add_chat_message_ok session_id sender message user_id now db Hok) as Hok'.
  pose proof (add_chat_message_rows session_id sender message user_id now db)
    as (Hid & Hc & _).
  pose proof (get_or_create_conversation_spec session_id user_id now db)
    as (_ & _ & Hr).
  cbv zeta in Hc, Hr, Hid. fold db' in Hc. fold conversation_id in Hid.
  destruct Hok as [Hnd Hb Ht].
  set (r := get_or_create_conversation session_id user_id now db) in *.
  assert (Hnd0 : NoDup (c_id <$> conversations r.1)).
  { destruct Hr as [[Hr _]|(Hr & _ & _)]; rewrite Hr; [exact Hnd|].
    rewrite fmap_app. apply NoDup_app. split; [exact Hnd|]. split.
    - intros i Hi Hi'. simpl in Hi'. apply list_elem_of_singleton in Hi'.
      rewrite Forall_forall in Hb. specialize (Hb i Hi). lia.
    - simpl. apply NoDup_singleton. }
  split; [exact Hok'|]. split.
  - intros i c t Hi Htitle.
    assert (Hi0 : conversations r.1 !! i = Some c).
    { destruct Hr as [[Hr _]|(Hr & _ & _)]; rewrite Hr; [exact Hi|].
      apply lookup_app_l_Some. exact Hi. }
    destruct (activity_lookup r.2
                (if String.eqb sender "user" then Some message else None)
                now _ i c Hnd0 Hi0) as (c' & Hc' & Hidc & Hkeep).
    exists c'. rewrite Hc. split; [exact Hc'|]. split; [exact Hidc|].
    rewrite Hkeep, Htitle; [reflexivity|].
    rewrite Forall_forall in Ht.
    assert (Hin : c ∈ conversations db) by (apply list_elem_of_lookup; eauto).
    specialize (Ht c Hin). rewrite truthy_title, Htitle by exact Ht. reflexivity.
  - intros -> Hne Hnull. simpl in Hc.
    destruct message as [|a m]; [congruence|].
    assert (H0 : exists c0, c0 ∈ conversations r.1 /\ c_id c0 = r.2).
    { destruct Hr as [[Hr (c0 & Hc0 & Hc0id)]|(Hr & _ & Hr2)].
      - rewrite Hr. eauto.
      - rewrite Hr, Hr2. eexists. split; [apply elem_of_app; right; left|reflexivity]. }
    destruct H0 as (c0 & Hc0 & Hc0id).
    destruct (activity_sets_title r.2 a m now (conversations r.1) c0 Hc0 Hc0id)
      as (c' & Hin & Hidc & Htitle).
    { intros c Hcin Hcid. rewrite <- Hid in Hcid.
      destruct Hr as [[Hr _]|(Hr & _ & _)]; rewrite Hr in Hcin; [auto|].
      apply elem_of_app in Hcin as [Hcin|Hcin]; [auto|].
      apply list_elem_of_singleton in Hcin. subst c. reflexivity. }
    exists c'. rewrite Hc. split; [exact Hin|]. split; [congruence|].
    split; [exact Htitle|]. rewrite Htitle. split; intros Hlen.
    + rewrite derive_title_short by exact Hlen. reflexivity.
    + rewrite derive_title_long by exact Hlen. split; [reflexivity|].
      destruct (first_chars_split 50 (String a m)) as (rest & Hrest).
      exists (PyStr.first_chars 50 (String a m)), rest.
      split; [exact Hrest|]. split; [|reflexivity].
      apply first_chars_length. lia.
Qed.

(** C5 on the example of the specification: in session ["s1"] the message
    ["Hello"] gives the title, and ["World"] leaves it. A message of 68
    characters in a new session gives its first 50 characters and
    ["..."]. *)
Lemma title_derived_once_witness :
  let db1 := (add_chat_message "s1" "user" "Hello" 1 10 init_database).1 in
  let db2 := (add_chat_message "s1" "user" "World" 1 20 db1).1 in
  let long := "Why does a spinning top stay upright while it keeps turning so fast?" in
  let db3 := (add_chat_message "s2" "user" long 1 30 db2).1 in
  (exists c, c ∈ conversations db1 /\ c_id c = 1 /\ c_title c = Some "Hello") /\
  (exists c, conversations db2 !! 0%nat = Some c /\ c_id c = 1 /\ c_title c = Some "Hello") /\
  (exists c, c ∈ conversations db3 /\ c_id c = 2 /\
             c_title c = Some "Why does a spinning top stay upright while it keep...") /\
  (exists c, conversations db3 !! 0%nat = Some c /\ c_id c = 1 /\ c_title c = Some "Hello").
Proof.
  intros db1 db2 long db3.
  pose proof (title_derived_once "s1" "user" "Hello" 1 10 init_database
                init_conversations_ok) as (Hok1 & _ & Hfirst).
  fold db1 in Hok1.
  pose proof (title_derived_once "s1" "user" "World" 1 20 db1 Hok1) as (Hok2 & Hkeep & _).
  fold db2 in Hok2.
  pose proof (title_derived_once "s2" "user" long 1 30 db2 Hok2) as (_ & Hkeep3 & Hlong).
  split; [|split; [|split]].
  - destruct Hfirst as (c & Hc & Hid & _ & Hshort & _).
    + reflexivity.
    + discriminate.
    + intros c Hc. inversion Hc.
    + exists c. split; [exact Hc|]. split; [exact Hid|]. apply Hshort. simpl. lia.
  - destruct (Hkeep 0%nat (mkConversation 1 "s1" (Some "Hello") 1 (Some false) None 10 10)
                "Hello") as (c & Hc & Hid & Htitle).
    + reflexivity.
    + reflexivity.
    + exists c. auto.
  - destruct Hlong as (c & Hc & Hid & _ & _ & Hcut).
    + reflexivity.
    + discriminate.
    + intros c Hc Hid. exfalso. vm_compute in Hid.
      apply list_elem_of_singleton in Hc. subst c. discriminate Hid.
    + destruct Hcut as (_ & head & rest & Hsplit & Hlen & Htitle); [simpl; lia|].
      exists c. split; [exact Hc|]. split; [exact Hid|].
      rewrite Htitle.
      replace head with "Why does a spinning top stay upright while it keep";
        [reflexivity|]. symmetry.
      apply (append_prefix_unique head rest
               "Why does a spinning top stay upright while it keep" "s turning so fast?").
      * rewrite <- Hsplit. reflexivity.
      * rewrite Hlen. reflexivity.
  - destruct (Hkeep3 0%nat (mkConversation 1 "s1" (Some "Hello") 1 (Some false) None 10 20)
                "Hello") as (c & Hc & Hid & Htitle).
    + reflexivity.
    + reflexivity.
    + exists c. auto.
Defined.

End ConversationFacts.

(** ** The trash *)

Section TrashFacts.

Import Db.

Lemma set_conversations_id (db : Database) : set_conversations (conversations db) db = db.
Proof. destruct db; reflexivity. Qed.

(** The ids of a listing are ids of rows that pass its WHERE clause; with
    a LIMIT that covers the table, they are all of them. *)
Lemma listing_ids_sound (user_id limit : Z) (include_deleted : bool) (db : Database)
    (conversation_id : Z) :
  conversation_id ∈ s_id <$> get_conversation_history user_id limit include_deleted db ->
  exists c, c ∈ conversations db /\ listed user_id include_deleted c = true /\
            c_id c = conversation_id.
Proof.
  unfold get_conversation_history. intros H.
  apply list_elem_of_fmap in H as (s & -> & Hs).
  apply elem_of_limit_rows in Hs.
  rewrite merge_sort_Permutation in Hs.
  apply list_elem_of_fmap in Hs as (c & -> & Hc).
  apply elem_of_select_where in Hc as [Hc Hl]. eauto.
Qed.

Lemma listing_ids_complete (user_id limit : Z) (include_deleted : bool) (db : Database)
    (c : Conversation) :
  Z.of_nat (length (conversations db)) <= limit ->
  c ∈ conversations db -> listed user_id include_deleted c = true ->
  c_id c ∈ s_id <$> get_conversation_history user_id limit include_deleted db.
Proof.
  intros Hlimit Hc Hl. unfold get_conversation_history.
  rewrite limit_rows_all.
  - apply list_elem_of_fmap. exists (summarize db c). split; [reflexivity|].
    rewrite merge_sort_Permutation. apply list_elem_of_fmap. exists c.
    split; [reflexivity|]. apply elem_of_select_where. auto.
  - rewrite merge_sort_Permutation, length_fmap.
    unfold select_where. pose proof (List.filter_length_le (listed user_id include_deleted)
                                       (conversations db)). lia.
Qed.

Lemma owned_spec (conversation_id user_id : Z) (c : Conversation) :
  owned conversation_id user_id c = true <->
  c_id c = conversation_id /\ c_user_id c = user_id.
Proof. unfold owned. rewrite andb_true_iff, !Z.eqb_eq. reflexivity. Qed.

(** A session none of whose messages is stored reads back empty. *)
Lemma get_conversation_messages_none (session_id : string) (user_id : Z) (db : Database) :
  Forall (fun cm => m_session_id cm <> session_id) (chat_messages db) ->
  get_conversation_messages session_id user_id db = [].
Proof.
  intros Hs. unfold get_conversation_messages.
  assert (E : (cm ← chat_messages db;
               c ← select_where (fun c => m_conversation_id cm =? c_id c) (conversations db);
               if String.eqb (m_session_id cm) session_id && (c_user_id c =? user_id)
               then [(m_sender cm, m_message cm, m_timestamp cm)] else []) = []).
  { induction (chat_messages db) as [|cm cms IH]; [reflexivity|].
    apply Forall_cons in Hs as [Hs1 Hs].
    rewrite bind_cons, (IH Hs), app_nil_r.
    apply String.eqb_neq in Hs1. rewrite Hs1. simpl.
    induction (select_where _ _) as [|c cs IHc]; [reflexivity|].
    rewrite bind_cons, IHc. reflexivity. }
  rewrite E. reflexivity.
Qed.

(** C6. For a conversation of the owner: a non-permanent delete takes it
    out of the default listing and puts it in the trash listing, keeping
    its messages; restore puts it back in the default listing and out of
    the trash, with the deletion time cleared, and on a conversation that
    was active the database is the initial one up to [updated_at]; a
    permanent delete takes it out of both listings, leaves no message
    row of it, and a session whose messages were all its own reads back
    empty. Membership in a listing is stated for a LIMIT that covers the
    table; absence holds for every LIMIT. *)
Theorem trash_lifecycle (conversation_id user_id now later : Z) (db : Database) :
  (exists c, c ∈ conversations db /\ owned conversation_id user_id c = true) ->
  let ids limit include_deleted d :=
    s_id <$> get_conversation_history user_id limit include_deleted d in
  let covers limit := Z.of_nat (length (conversations db)) <= limit in
  let db1 := (delete_conversation conversation_id user_id false now db).1 in
  let db2 := (restore_conversation conversation_id user_id later db1).1 in
  let db3 := (delete_conversation conversation_id user_id true now db).1 in
  ((forall limit, conversation_id ∉ ids limit false db1) /\
   (forall limit, covers limit -> conversation_id ∈ ids limit true db1) /\
   chat_messages db1 = chat_messages db) /\
  ((forall limit, covers limit -> conversation_id ∈ ids limit false db2) /\
   (forall limit, conversation_id ∉ ids limit true db2) /\
   (forall c, c ∈ conversations db2 -> owned conversation_id user_id c = true ->
              c_is_deleted c = Some false /\ c_deleted_at c = None) /\
   ((forall c, c ∈ conversations db -> owned conversation_id user_id c = true ->
               c_is_deleted c = Some false /\ c_deleted_at c = None) ->
    db2 = set_conversations
            (update_where (owned conversation_id user_id) (touch later) (conversations db))
            db)) /\
  ((forall limit include_deleted, conversation_id ∉ ids limit include_deleted db3) /\
   Forall (fun cm => m_conversation_id cm <> conversation_id) (chat_messages db3) /\
   (forall session_id user,
       (forall cm, cm ∈ chat_messages db -> m_session_id cm = session_id ->
                   m_conversation_id cm = conversation_id) ->
       get_conversation_messages session_id user db3 = [])).
Proof.
  intros (c0 & Hc0 & Hown0) ids covers db1 db2 db3.
  assert (Hlisted : forall incl c, listed user_id incl c = true -> c_user_id c = user_id).
  { intros incl c H. unfold listed in H. apply andb_true_iff in H as [H _].
    apply Z.eqb_eq in H. exact H. }
  split; [|split].
  - (* soft delete *)
    split; [|split; [|reflexivity]].
    + intros limit Hin. apply listing_ids_sound in Hin as (c & Hc & Hl & Hid).
      simpl in Hc. apply elem_of_update_where in Hc as (c1 & Hc1 & ->).
      pose proof (Hlisted _ _ Hl) as Hu.
      destruct (owned conversation_id user_id c1) eqn:E.
      * unfold listed in Hl. simpl in Hl. rewrite andb_false_r in Hl. discriminate.
      * apply not_true_iff_false in E. apply E. apply owned_spec. auto.
    + intros limit Hlimit.
      replace conversation_id with (c_id (trash now c0))
        by (simpl; apply owned_spec in Hown0; tauto).
      apply listing_ids_complete.
      * simpl. rewrite update_where_length. exact Hlimit.
      * simpl. apply elem_of_update_where. exists c0. rewrite Hown0. auto.
      * unfold listed. simpl. apply owned_spec in Hown0 as [_ ->].
        rewrite Z.eqb_refl. reflexivity.
  - (* restore *)
    assert (Hrows : conversations db2
                    = update_where (owned conversation_id user_id) (untrash later)
                        (conversations db)).
    { simpl. unfold update_where. rewrite map_map. apply map_ext. intros c.
      destruct (owned conversation_id user_id c) eqn:E.
      - unfold owned in *. simpl. rewrite E. reflexivity.
      - rewrite E. reflexivity. }
    split; [|split; [|split]].
    + intros limit Hlimit.
      replace conversation_id with (c_id (untrash later c0))
        by (simpl; apply owned_spec in Hown0; tauto).
      apply listing_ids_complete.
      * rewrite Hrows, update_where_length. exact Hlimit.
      * rewrite Hrows. apply elem_of_update_where. exists c0. rewrite Hown0. auto.
      * unfold listed. simpl. apply owned_spec in Hown0 as [_ ->].
        rewrite Z.eqb_refl. reflexivity.
    + intros limit Hin. apply listing_ids_sound in Hin as (c & Hc & Hl & Hid).
      rewrite Hrows in Hc. apply elem_of_update_where in Hc as (c1 & Hc1 & ->).
      pose proof (Hlisted _ _ Hl) as Hu.
      destruct (owned conversation_id user_id c1) eqn:E.
      * unfold listed in Hl. simpl in Hl. rewrite andb_false_r in Hl. discriminate.
      * apply not_true_iff_false in E. apply E. apply owned_spec. auto.
    + intros c Hc Hown. rewrite Hrows in Hc.
      apply elem_of_update_where in Hc as (c1 & Hc1 & ->).
      destruct (owned conversation_id user_id c1) eqn:E; [auto|].
      congruence.
    + intros Hactive.
      assert (Hdb2 : db2 = set_conversations (conversations db2) db)
        by (destruct db; reflexivity).
      rewrite Hdb2, Hrows. f_equal.
      unfold update_where. apply map_ext_in. intros c Hc.
      destruct (owned conversation_id user_id c) eqn:E; [|reflexivity].
      apply list_elem_of_In in Hc. destruct (Hactive c Hc E) as [Hd Ht].
      destruct c; simpl in *. subst. reflexivity.
  - (* permanent delete *)
    assert (Hmsgs : Forall (fun cm => m_conversation_id cm <> conversation_id)
                      (chat_messages db3)).
    { apply Forall_forall. intros cm Hcm. simpl in Hcm.
      apply elem_of_delete_where in Hcm as [_ Hcm]. apply Z.eqb_neq. exact Hcm. }
    split; [|split; [exact Hmsgs|]].
    + intros limit incl Hin. apply listing_ids_sound in Hin as (c & Hc & Hl & Hid).
      simpl in Hc. apply elem_of_delete_where in Hc as [_ Hc].
      apply not_true_iff_false in Hc. apply Hc. apply owned_spec. eauto.
    + intros session_id user Hsession.
      apply get_conversation_messages_none.
      apply Forall_forall. intros cm Hcm Hs.
      rewrite Forall_forall in Hmsgs. apply (Hmsgs cm Hcm).
      apply Hsession; [|exact Hs].
      simpl in Hcm. apply elem_of_delete_where in Hcm. tauto.
Qed.

(** C6 on the conversation of session ["s1"]: trashed, it is listed in
    the trash and not in the default listing; purged, its session reads
    back empty. *)
Lemma trash_lifecycle_witness :
  let db := (add_chat_message "s1" "user" "Hello" 1 10 init_database).1 in
  let db1 := (delete_conversation 1 1 false 20 db).1 in
  let db3 := (delete_conversation 1 1 true 20 db).1 in
  (1 ∈ (s_id <$> get_conversation_history 1 50 true db1)) /\
  (1 ∉ (s_id <$> get_conversation_history 1 20 false db1)) /\
  get_conversation_messages "s1" 1 db3 = [].
Proof.
  intros db db1 db3.
  assert (Hc : exists c, c ∈ conversations db /\ owned 1 1 c = true).
  { eexists. split; [left|reflexivity]. }
  pose proof (trash_lifecycle 1 1 20 30 db Hc) as ((Hout & Hin & _) & _ & (_ & _ & Hgone)).
  split; [|split].
  - apply Hin. simpl. lia.
  - apply Hout.
  - apply Hgone. intros cm Hcm _. apply list_elem_of_singleton in Hcm. subst cm. reflexivity.
Defined.

Lemma delete_where_ids_unique (p : Conversation -> bool) (cs : list Conversation) :
  NoDup (c_id <$> cs) -> NoDup (c_id <$> delete_where p cs).
Proof.
  unfold delete_where. induction cs as [|c cs IH]; intros H; [constructor|].
  rewrite fmap_cons in H. apply NoDup_cons in H as [Hc Hnd].
  simpl. destruct (negb (p c)); [|auto].
  rewrite fmap_cons. apply NoDup_cons. split; [|auto].
  intros Hin. apply Hc. apply list_elem_of_fmap in Hin as (c' & -> & Hc').
  apply list_elem_of_fmap. exists c'. split; [reflexivity|].
  apply list_elem_of_In in Hc'. apply filter_In in Hc'. apply list_elem_of_In. tauto.
Qed.

(** The invariants of the table are kept by the trash operations. *)
Lemma delete_conversation_ok (conversation_id user_id : Z) (permanent : bool) (now : Z)
    (db : Database) :
  conversations_ok db ->
  conversations_ok (delete_conversation conversation_id user_id permanent now db).1.
Proof.
  intros [Hnd Hb Ht]. destruct permanent; simpl.
  - assert (Hsub : forall c, c ∈ delete_where (owned conversation_id user_id) (conversations db)
                             -> c ∈ conversations db)
      by (intros c Hc; apply elem_of_delete_where in Hc; tauto).
    split; simpl.
    + apply delete_where_ids_unique. exact Hnd.
    + apply Forall_fmap, Forall_forall. intros c Hc. simpl.
      rewrite Forall_fmap, Forall_forall in Hb. apply (Hb c). auto.
    + apply Forall_forall. intros c Hc. rewrite Forall_forall in Ht. auto.
  - split; simpl.
    + rewrite update_where_ids; auto.
    + rewrite update_where_ids; auto.
    + apply update_where_Forall; auto.
Qed.

Lemma restore_conversation_ok (conversation_id user_id now : Z) (db : Database) :
  conversations_ok db ->
  conversations_ok (restore_conversation conversation_id user_id now db).1.
Proof.
  intros [Hnd Hb Ht]. split; simpl.
  - rewrite update_where_ids; auto.
  - rewrite update_where_ids; auto.
  - apply update_where_Forall; auto.
Qed.

(** In a listing sorted by [updated_at] descending, a row strictly newer
    than the rows of every other id comes first. *)
Lemma newest_first (l : list ConversationSummary) (x : ConversationSummary) :
  StronglySorted (desc_by s_updated_at) l ->
  x ∈ l ->
  (forall y, y ∈ l -> s_id y <> s_id x -> s_updated_at y < s_updated_at x) ->
  s_id <$> head l = Some (s_id x).
Proof.
  intros Hsorted Hx Hmax. destruct l as [|h t]; [inversion Hx|].
  simpl. f_equal. apply StronglySorted_inv in Hsorted as [_ Hh].
  apply elem_of_cons in Hx as [->|Hx]; [reflexivity|].
  destruct (decide (s_id h = s_id x)) as [|Hne]; [assumption|]. exfalso.
  assert (s_updated_at h < s_updated_at x) by (apply Hmax; [left|exact Hne]).
  rewrite Forall_forall in Hh. specialize (Hh x Hx).
  unfold desc_by in Hh. lia.
Qed.

#[local] Instance desc_by_total {A : Type} (key : A -> Z) : Total (desc_by key).
Proof. intros a b. unfold desc_by. lia. Qed.

#[local] Instance desc_by_transitive {A : Type} (key : A -> Z) : Transitive (desc_by key).
Proof. intros a b c. unfold desc_by. lia. Qed.

(** With a clock that has moved on since every stored update, the
    conversation just trashed heads the trash listing, whatever the LIMIT
    of at least one row. *)
Lemma trashed_listed_first (conversation_id user_id now limit : Z) (db : Database)
    (c0 : Conversation) :
  c0 ∈ conversations db -> owned conversation_id user_id c0 = true ->
  Forall (fun c => c_updated_at c < now) (conversations db) ->
  1 <= limit ->
  s_id <$> head (get_conversation_history user_id limit true
                   (delete_conversation conversation_id user_id false now db).1)
  = Some conversation_id.
Proof.
  intros Hc0 Hown Hclock Hlimit.
  set (db1 := (delete_conversation conversation_id user_id false now db).1).
  unfold get_conversation_history.
  set (l := merge_sort (desc_by s_updated_at)
              (map (summarize db1) (select_where (listed user_id true) (conversations db1)))).
  assert (Hid : c_id c0 = conversation_id) by (apply owned_spec in Hown; tauto).
  assert (Hhead : s_id <$> head l = Some (s_id (summarize db1 (trash now c0)))).
  { apply newest_first.
    - apply StronglySorted_merge_sort; apply _.
    - subst l. rewrite merge_sort_Permutation. apply list_elem_of_fmap.
      exists (trash now c0). split; [reflexivity|]. apply elem_of_select_where. split.
      + subst db1. simpl. apply elem_of_update_where. exists c0. rewrite Hown. auto.
      + unfold listed. simpl. apply owned_spec in Hown as [_ ->].
        rewrite Z.eqb_refl. reflexivity.
    - intros y Hy Hne. subst l. rewrite merge_sort_Permutation in Hy.
      apply list_elem_of_fmap in Hy as (c & -> & Hc).
      apply elem_of_select_where in Hc as [Hc Hl]. subst db1. simpl in Hc.
      apply elem_of_update_where in Hc as (c1 & Hc1 & ->).
      simpl in Hne |- *.
      destruct (owned conversation_id user_id c1) eqn:E.
      + exfalso. apply Hne. simpl. apply owned_spec in E. lia.
      + rewrite Forall_forall in Hclock. apply Hclock. exact Hc1. }
  simpl in Hhead. rewrite Hid in Hhead.
  unfold limit_rows. destruct (limit <? 0) eqn:E; [lia|].
  destruct (Z.to_nat limit) as [|n] eqn:En; [lia|].
  destruct l as [|h t]; [discriminate Hhead|]. exact Hhead.
Qed.

End TrashFacts.

(** ** Handlers *)

Section ChatFacts.

Import Db App.

(** C1 at the absent provider: [chat] answers with the fallback reply and
    leaves the state as it was. Neither the user message nor the reply
    is written to the database. *)
Theorem chat_absent_provider_persists_nothing (message session_id : option string)
    (now later : Z) (st : State) :
  PyStr.strip (default "" message) <> "" ->
  chat None message session_id now later st
  = (st, mkResponse 200
           (ReplyBody (Fallback.generate_fallback (PyStr.strip (default "" message)))
              "fallback" None)).
Proof.
  intros Hne. unfold chat.
  destruct (PyStr.strip (default "" message)); [congruence|reflexivity].
Qed.

(** C1 on a new database: after the request no message of session ["s1"]
    is stored. *)
Lemma chat_absent_provider_persists_nothing_witness :
  let st := mkState ∅ init_database in
  let r := chat None (Some "I don't know torque") (Some "s1") 10 11 st in
  chat_messages (db r.1) = [] /\
  get_conversation_messages "s1" 1 (db r.1) = [] /\
  status r.2 = 200.
Proof.
  intros st r. subst r.
  rewrite (chat_absent_provider_persists_nothing (Some "I don't know torque") (Some "s1")
             10 11 st) by (vm_compute; discriminate).
  repeat split.
Defined.

(** With a provider whose call fails, the sibling path: the user message
    is stored, then the fallback reply, as sender ["ai"]. *)
Lemma chat_provider_failure_persists (generate_content : GenAI)
    (message session_id : option string) (now later : Z) (st : State) :
  let user_message := PyStr.strip (default "" message) in
  let session := default "default" session_id in
  let r := chat (Some generate_content) message session_id now later st in
  user_message <> "" ->
  (forall prompt, generate_content prompt = None) ->
  body r.2 = ReplyBody (Fallback.generate_fallback user_message) "fallback" None /\
  exists conversation_id conversation_id',
    chat_messages (db r.1)
    = chat_messages (db st)
      ++ [mkChatMessage (chat_messages_seq (db st) + 1) conversation_id session "user"
            user_message now;
          mkChatMessage (chat_messages_seq (db st) + 1 + 1) conversation_id' session "ai"
            (Fallback.generate_fallback user_message) later].
Proof.
  intros user_message session r Hne Hfail. subst r. unfold chat.
  fold user_message session.
  destruct user_message as [|a m] eqn:Eu; [congruence|]. rewrite <- Eu. clear Hne.
  pose proof (add_chat_message_rows session "user" user_message 1 now (db st))
    as (_ & _ & _ & Hm1 & Hs1).
  cbv zeta in Hm1, Hs1.
  destruct (add_chat_message session "user" user_message 1 now (db st)) as [db1 c1].
  simpl in Hm1, Hs1. rewrite Hfail.
  pose proof (add_chat_message_rows session "ai"
                (Fallback.generate_fallback user_message) 1 later db1)
    as (_ & _ & _ & Hm2 & _).
  cbv zeta in Hm2.
  destruct (add_chat_message session "ai" (Fallback.generate_fallback user_message)
              1 later db1) as [db2 c2].
  simpl in *. split; [reflexivity|].
  rewrite Hm2, Hm1, Hs1, <- app_assoc. simpl. eauto.
Qed.

(** C8. [clear_chat] removes the entry of the session from
    [conversation_memory] and nothing else: the database, with every
    conversation and message row, and the entries of the other sessions
    are as before. *)
Theorem clear_chat_memory_only (session_id : option string) (st : State) :
  let session := default "default" session_id in
  let st' := (clear_chat session_id st).1 in
  conversation_memory st' = delete session (conversation_memory st) /\
  conversation_memory st' !! session = None /\
  (forall other, other <> session ->
                 conversation_memory st' !! other = conversation_memory st !! other) /\
  db st' = db st /\
  conversations (db st') = conversations (db st) /\
  chat_messages (db st') = chat_messages (db st).
Proof.
  intros session st'.
  assert (Hmem : conversation_memory st' = delete session (conversation_memory st)).
  { subst st'. unfold clear_chat. fold session. simpl.
    destruct (conversation_memory st !! session) eqn:E; [reflexivity|].
    symmetry. apply delete_id. exact E. }
  split; [exact Hmem|]. rewrite Hmem.
  split; [apply lookup_delete_eq|].
  split; [intros other Hother; apply lookup_delete_ne; congruence|].
  repeat split.
Qed.

(** C8 after a chat turn with a failing provider: the window of ["s1"] is
    dropped, the two stored messages stay. *)
Lemma clear_chat_memory_only_witness :
  let st := (chat (Some (fun _ => None)) (Some "Hello") (Some "s1") 10 11
               (mkState ∅ init_database)).1 in
  let st' := (clear_chat (Some "s1") st).1 in
  conversation_memory st !! "s1" = Some ["Human: Hello"] /\
  conversation_memory st' !! "s1" = None /\
  length (chat_messages (db st')) = 2%nat.
Proof.
  intros st st'.
  pose proof (clear_chat_memory_only (Some "s1") st) as (_ & Hnone & _ & Hdb & _).
  split; [reflexivity|]. split; [exact Hnone|].
  fold st' in Hdb. rewrite Hdb. reflexivity.
Defined.

End ChatFacts.

(** ** Video search *)

Section SearchFacts.

Import Db App.

Variable format_tenths : Z -> Z -> string.

(** The three answers of the [except] branch, each by its cause. *)
Lemma search_error_cases (e : string) :
  let error_msg := PyStr.lower e in
  (PyStr.contains "quotaexceeded" error_msg = true ->
   search_error e
   = mkResponse 429 (ErrorBody "YouTube API quota exceeded. Please try again later.")) /\
  (PyStr.contains "quotaexceeded" error_msg = false ->
   PyStr.contains "keyinvalid" error_msg = true \/
   PyStr.contains "forbidden" error_msg = true ->
   search_error e = mkResponse 401 (ErrorBody "Invalid YouTube API key.")) /\
  (PyStr.contains "quotaexceeded" error_msg = false ->
   PyStr.contains "keyinvalid" error_msg = false ->
   PyStr.contains "forbidden" error_msg = false ->
   search_error e = mkResponse 500 (ErrorBody ("Failed to fetch videos: " +:+ e))).
Proof.
  intros error_msg. unfold search_error. fold error_msg.
  split; [|split].
  - intros ->. reflexivity.
  - intros -> [H|H]; rewrite H; [reflexivity|].
    rewrite orb_true_r. reflexivity.
  - intros -> -> ->. reflexivity.
Qed.

Lemma sample_videos_cut (query : string) (limit : Z) :
  0 <= limit ->
  Z.of_nat (length (slice_to limit (sample_videos query))) = Z.min 2 limit.
Proof.
  intros H. unfold slice_to. destruct (limit <? 0) eqn:E; [lia|].
  rewrite length_take. simpl length. lia.
Qed.

Lemma search_error_status (e : string) :
  (status (search_error e) = 429 \/ status (search_error e) = 401 \/
   status (search_error e) = 500) /\
  exists error, body (search_error e) = ErrorBody error.
Proof.
  unfold search_error.
  destruct (PyStr.contains "quotaexceeded" _); [simpl; eauto|].
  destruct (_ || _); simpl; eauto.
Qed.

(** C4, as amended. For a search with a non-empty query: with no video
    provider the answer is 200 with the two fixed sample videos, cut to
    [max_results], tagged ["sample"], and the state is as before; when the
    search call or the details call of a provider raises, the state is as
    before and the answer is the error body of the exception: 429 with
    the quota message when the text of the exception, in lower case,
    contains ["quotaexceeded"]; if not, 401 with the key message when it
    contains ["keyinvalid"] or ["forbidden"]; and 500 with the text of
    the exception in every other case. *)
Theorem search_videos_degradation (q : option string) (max_results : option Z)
    (now : Z) (st : State) :
  let query := PyStr.strip (default "" q) in
  let limit := Z.min (default 12 max_results) 25 in
  query <> "" ->
  search_videos format_tenths None q max_results now st
  = (st, mkResponse 200
           (VideosBody (slice_to limit (sample_videos query)) (Some "sample") None)) /\
  (2 <= limit -> slice_to limit (sample_videos query) = sample_videos query) /\
  (length (sample_videos query) = 2%nat /\
   map title (sample_videos query)
   = ["Educational Content: " +:+ query +:+ " - Introduction";
      "Advanced " +:+ query +:+ " Techniques"] /\
   map view_count (sample_videos query) = ["1.2M"; "850K"] /\
   (0 <= limit ->
    Z.of_nat (length (slice_to limit (sample_videos query))) = Z.min 2 limit)) /\
  (forall client e,
      search_list client query limit = Raise e ->
      search_videos format_tenths (Some client) q max_results now st
      = (st, search_error e)) /\
  (forall client item items e,
      search_list client query limit = Ok (item :: items) ->
      videos_list client (map i_videoId (item :: items)) = Raise e ->
      search_videos format_tenths (Some client) q max_results now st
      = (st, search_error e)) /\
  (forall e,
      (status (search_error e) = 429 \/ status (search_error e) = 401 \/
       status (search_error e) = 500) /\
      exists error, body (search_error e) = ErrorBody error) /\
  (forall e,
      let error_msg := PyStr.lower e in
      (PyStr.contains "quotaexceeded" error_msg = true ->
       search_error e
       = mkResponse 429
           (ErrorBody "YouTube API quota exceeded. Please try again later.")) /\
      (PyStr.contains "quotaexceeded" error_msg = false ->
       PyStr.contains "keyinvalid" error_msg = true \/
       PyStr.contains "forbidden" error_msg = true ->
       search_error e = mkResponse 401 (ErrorBody "Invalid YouTube API key.")) /\
      (PyStr.contains "quotaexceeded" error_msg = false ->
       PyStr.contains "keyinvalid" error_msg = false ->
       PyStr.contains "forbidden" error_msg = false ->
       search_error e = mkResponse 500 (ErrorBody ("Failed to fetch videos: " +:+ e)))).
Proof.
  intros query limit Hne. unfold search_videos. fold query limit.
  destruct query as [|a m] eqn:Eq; [congruence|]. rewrite <- Eq. clear Hne.
  split; [reflexivity|]. split; [|split; [|split; [|split; [|split]]]].
  - intros Hl. unfold slice_to. destruct (limit <? 0) eqn:E; [lia|].
    apply take_ge. simpl. lia.
  - split; [reflexivity|]. split; [reflexivity|]. split; [reflexivity|].
    apply sample_videos_cut.
  - intros client e He. rewrite He. reflexivity.
  - intros client item items e Hs Hv. rewrite Hs.
    simpl map in *. cbv iota. rewrite Hv. reflexivity.
  - apply search_error_status.
  - apply search_error_cases.
Qed.

End SearchFacts.

Section SearchExamples.

Import Db App.

(** C4 without a provider: the default request gets both sample videos.
    With a provider whose search call raises, the answer follows the
    text of the exception: 429 for an exceeded quota, 401 for an invalid
    key and for a forbidden one, 500 with the text for a timeout. *)
Lemma search_videos_degradation_witness :
  let st := mkState ∅ init_database in
  let failing e := Some (mkYouTube (fun _ _ => Raise e) (fun _ => Ok [])) in
  let search client := search_videos (fun _ _ => "") client (Some "torque") None 10 st in
  search None
  = (st, mkResponse 200 (VideosBody (sample_videos "torque") (Some "sample") None)) /\
  map title (sample_videos "torque")
  = ["Educational Content: torque - Introduction"; "Advanced torque Techniques"] /\
  search (failing "HttpError 403: quotaExceeded")
  = (st, mkResponse 429
           (ErrorBody "YouTube API quota exceeded. Please try again later.")) /\
  search (failing "HttpError 400: keyInvalid")
  = (st, mkResponse 401 (ErrorBody "Invalid YouTube API key.")) /\
  search (failing "HttpError 403: Forbidden")
  = (st, mkResponse 401 (ErrorBody "Invalid YouTube API key.")) /\
  search (failing "timed out")
  = (st, mkResponse 500 (ErrorBody "Failed to fetch videos: timed out")).
Proof.
  intros st failing search.
  destruct (search_videos_degradation (fun _ _ => "") (Some "torque") None 10 st)
    as (H & Hall & (_ & Htitles & _) & Hraise & _ & _ & Hcause).
  - vm_compute. discriminate.
  - split; [unfold search; rewrite H, Hall; [reflexivity|vm_compute; discriminate]|].
    split; [exact Htitles|].
    assert (Hfail : forall e, search (failing e) = (st, search_error e)).
    { intros e. apply (Hraise (mkYouTube (fun _ _ => Raise e) (fun _ => Ok [])) e).
      reflexivity. }
    rewrite !Hfail.
    destruct (Hcause "HttpError 403: quotaExceeded") as (Hquota & _ & _).
    destruct (Hcause "HttpError 400: keyInvalid") as (_ & Hkey & _).
    destruct (Hcause "HttpError 403: Forbidden") as (_ & Hforbidden & _).
    destruct (Hcause "timed out") as (_ & _ & Hother).
    rewrite Hquota by reflexivity.
    rewrite Hkey by (reflexivity || (left; reflexivity)).
    rewrite Hforbidden by (reflexivity || (right; reflexivity)).
    rewrite Hother by reflexivity.
    repeat split.
Defined.

(** C4 as stated fails: a provider whose search call raises on an
    exceeded quota makes the search answer 429 with an error body, not
    the sample set. *)
Lemma search_videos_provider_failure_is_error :
  let client :=
    mkYouTube (fun _ _ => Raise "HttpError 403: quotaExceeded") (fun _ => Ok []) in
  let r :=
    search_videos (fun _ _ => "") (Some client) (Some "torque") None 10
      (mkState ∅ init_database) in
  r.2 = mkResponse 429 (ErrorBody "YouTube API quota exceeded. Please try again later.") /\
  r.2 <> mkResponse 200 (VideosBody (sample_videos "torque") (Some "sample") None).
Proof. split; [reflexivity|]. vm_compute. discriminate. Qed.

(** The provider path on one item: its duration is parsed and the video
    is recorded in the watch history. *)
Example search_videos_success :
  let client :=
    mkYouTube
      (fun _ _ => Ok [mkSearchItem "abc123" "Torque" "Physics Hub" (Some "thumb")
                        (Some "A short lesson") "2024-05-01T00:00:00Z"])
      (fun _ => Ok [mkVideoDetail "abc123" (Some "PT5M9S") (Some "850")]) in
  let r :=
    search_videos (fun _ _ => "") (Some client) (Some "torque") None 10
      (mkState ∅ init_database) in
  body r.2
  = VideosBody [mkVideoData "abc123" "Torque" "Physics Hub" "thumb" "A short lesson"
                  "2024-05-01T00:00:00Z" "5:09" "850"] (Some "youtube") None /\
  video_history (db r.1)
  = [mkVideoHistory 1 "abc123" "Torque" "Physics Hub" "thumb" "torque" 1 10].
Proof. split; vm_compute; reflexivity. Qed.

End SearchExamples.

(** ** Searching journals *)

Section SearchJournalFacts.

Import Db.

Lemma like_any_run (pattern text : string) :
  like (String "%" pattern) text
  = like pattern text ||
    match text with
    | EmptyString => false
    | String _ text' => like (String "%" pattern) text'
    end.
Proof. destruct text; reflexivity. Qed.

Lemma like_percent (text : string) : like "%" text = true.
Proof.
  induction text as [|c text IH]; [reflexivity|].
  rewrite like_any_run, IH. apply orb_true_r.
Qed.

Lemma like_plain_char (p : ascii) (pattern text : string) :
  Ascii.eqb p "%" = false -> Ascii.eqb p "_" = false ->
  like (String p pattern) text
  = match text with
    | EmptyString => false
    | String c text' =>
        Ascii.eqb (PyStr.lower_char p) (PyStr.lower_char c) && like pattern text'
    end.
Proof. intros H1 H2. simpl. rewrite H1, H2. destruct text; reflexivity. Qed.

Lemma prefix_cons (a b : ascii) (s t : string) :
  String.prefix (String a s) (String b t) = Ascii.eqb a b && String.prefix s t.
Proof.
  simpl. destruct (ascii_dec a b) as [->|Hne].
  - rewrite Ascii.eqb_refl. reflexivity.
  - apply Ascii.eqb_neq in Hne. rewrite Hne. reflexivity.
Qed.

(** A pattern of plain characters followed by [%] matches the texts that
    start with it, case apart. *)
Lemma like_plain_prefix (q text : string) :
  wildcard_free q = true ->
  like (q +:+ "%") text = String.prefix (PyStr.lower q) (PyStr.lower text).
Proof.
  revert text. induction q as [|p q IH]; intros text Hq.
  - change ("" +:+ "%") with "%". rewrite like_percent. destruct (PyStr.lower text); reflexivity.
  - simpl in Hq. apply andb_true_iff in Hq as [Hp Hq]. apply andb_true_iff in Hp as [Hp1 Hp2].
    apply negb_true_iff in Hp1, Hp2.
    change (String p q +:+ "%") with (String p (q +:+ "%")).
    rewrite like_plain_char by assumption.
    destruct text as [|c text]; [reflexivity|].
    change (PyStr.lower (String p q)) with (String (PyStr.lower_char p) (PyStr.lower q)).
    change (PyStr.lower (String c text)) with (String (PyStr.lower_char c) (PyStr.lower text)).
    rewrite prefix_cons, IH by exact Hq. reflexivity.
Qed.

(** The search parameter [%q%] of a wildcard-free text is containment,
    case apart. *)
Lemma like_search_param (q text : string) :
  wildcard_free q = true ->
  like ("%" +:+ q +:+ "%") text = icontains q text.
Proof.
  intros Hq. change ("%" +:+ q +:+ "%") with (String "%" (q +:+ "%")).
  unfold icontains. induction text as [|c text IH].
  - rewrite like_any_run, like_plain_prefix by exact Hq. reflexivity.
  - rewrite like_any_run, like_plain_prefix, IH by exact Hq. reflexivity.
Qed.

Lemma opt_Z_eqb_spec (a : option Z) (b : Z) : opt_Z_eqb a b = true <-> a = Some b.
Proof.
  destruct a as [x|]; simpl; [|split; discriminate].
  rewrite Z.eqb_eq. split; congruence.
Qed.

Lemma join_folder_fst (fs : list Folder) (j : Journal) (r : Journal * option string) :
  r ∈ join_folder fs j -> r.1 = j.
Proof.
  unfold join_folder. destruct (select_where _ fs) as [|f matches].
  - intros H. apply list_elem_of_singleton in H. subst r. reflexivity.
  - intros H. apply list_elem_of_fmap in H as (f' & -> & _). reflexivity.
Qed.

Lemma join_folder_nonempty (fs : list Folder) (j : Journal) :
  exists name, (j, name) ∈ join_folder fs j.
Proof.
  unfold join_folder. destruct (select_where _ fs) as [|f matches].
  - exists None. left.
  - exists (Some (f_name f)). left.
Qed.

Lemma joined_journals (db : Database) (j : Journal) :
  j ∈ fst <$> (j ← journals db; join_folder (folders db) j) <-> j ∈ journals db.
Proof.
  rewrite list_elem_of_fmap. split.
  - intros (r & -> & Hr). apply list_elem_of_bind in Hr as (j' & Hr & Hj').
    apply join_folder_fst in Hr. rewrite Hr. exact Hj'.
  - intros Hj. destruct (join_folder_nonempty (folders db) j) as (name & Hname).
    exists (j, name). split; [reflexivity|]. apply list_elem_of_bind. eauto.
Qed.

Lemma select_where_fst {B : Type} (p : Journal -> bool) (rows : list (Journal * B))
    (j : Journal) :
  j ∈ fst <$> select_where (fun r => p r.1) rows <-> j ∈ fst <$> rows /\ p j = true.
Proof.
  rewrite !list_elem_of_fmap. split.
  - intros (r & -> & Hr). apply elem_of_select_where in Hr as [Hr Hp]. eauto.
  - intros [(r & -> & Hr) Hp]. exists r. split; [reflexivity|].
    apply elem_of_select_where. auto.
Qed.

(** The journals of a listing: those of the owner that pass the folder
    filter and, when a search text is given, the search clause. *)
Lemma get_journals_journals (user_id : Z) (folder_id : option Z)
    (search_query : option string) (db : Database) (j : Journal) :
  j ∈ r_journal <$> get_journals user_id folder_id search_query db <->
  j ∈ journals db /\ j_user_id j = user_id /\ in_folder folder_id j /\
  (truthy search_query = true ->
   search_matches ("%" +:+ default "" search_query +:+ "%") j = true).
Proof.
  unfold get_journals.
  rewrite <- list_fmap_compose.
  change (r_journal ∘ _) with (fst : Journal * option string -> Journal).
  rewrite merge_sort_Permutation.
  set (rows0 := j ← journals db; join_folder (folders db) j).
  set (rows1 := select_where (fun r : Journal * option string => j_user_id r.1 =? user_id) rows0).
  set (rows2 := match folder_id with
                | Some f => if f =? 0 then rows1
                            else select_where (fun r => opt_Z_eqb (j_folder_id r.1) f) rows1
                | None => rows1
                end).
  assert (H1 : j ∈ fst <$> rows1 <-> j ∈ journals db /\ j_user_id j = user_id).
  { subst rows1. rewrite (select_where_fst (fun j => j_user_id j =? user_id)).
    subst rows0. rewrite joined_journals, Z.eqb_eq. reflexivity. }
  assert (H2 : j ∈ fst <$> rows2 <->
               j ∈ journals db /\ j_user_id j = user_id /\ in_folder folder_id j).
  { subst rows2. unfold in_folder. destruct folder_id as [f|]; [|rewrite H1; tauto].
    destruct (f =? 0) eqn:E.
    - apply Z.eqb_eq in E. rewrite H1. tauto.
    - apply Z.eqb_neq in E.
      rewrite (select_where_fst (fun j => opt_Z_eqb (j_folder_id j) f)), H1, opt_Z_eqb_spec.
      tauto. }
  destruct (truthy search_query) eqn:Et.
  - rewrite (select_where_fst
               (fun j => search_matches ("%" +:+ default "" search_query +:+ "%") j)), H2.
    tauto.
  - rewrite H2. split; [intros (? & ? & ?); repeat split; auto; discriminate|tauto].
Qed.

End SearchJournalFacts.

(** ** Listing journals *)

Section JournalListingFacts.

Import Db.

#[local] Existing Instance desc_by_total.
#[local] Existing Instance desc_by_transitive.

(** X1. For a search text without [%] and [_], [get_journals] lists
    exactly the owner's journals (within the folder filter) whose title,
    content or stored tags text contains the search text, letters of ASCII
    compared without regard to case. *)
Theorem get_journals_search_contains (user_id : Z) (folder_id : option Z) (q : string)
    (db : Database) (j : Journal) :
  wildcard_free q = true -> q <> "" ->
  (j ∈ r_journal <$> get_journals user_id folder_id (Some q) db <->
   j ∈ journals db /\ j_user_id j = user_id /\ in_folder folder_id j /\
   (icontains q (j_title j) = true \/ icontains q (j_content j) = true \/
    exists tags, j_tags j = Some tags /\ icontains q (json_dumps tags) = true)).
Proof.
  intros Hq Hne. rewrite get_journals_journals.
  assert (Ht : truthy (Some q) = true) by (destruct q; [congruence|reflexivity]).
  unfold search_matches. simpl default. rewrite !like_search_param by exact Hq.
  assert (Hs : icontains q (j_title j) || icontains q (j_content j) ||
               match j_tags j with
               | Some tags => like ("%" +:+ q +:+ "%") (json_dumps tags)
               | None => false
               end = true <->
               icontains q (j_title j) = true \/ icontains q (j_content j) = true \/
               exists tags, j_tags j = Some tags /\ icontains q (json_dumps tags) = true).
  { rewrite !orb_true_iff. destruct (j_tags j) as [tags|].
    - rewrite like_search_param by exact Hq. split.
      + intros [[H|H]|H]; eauto.
      + intros [H|[H|(tags' & Heq & H)]]; auto. inversion Heq. subst. auto.
    - split.
      + intros [[H|H]|H]; auto. discriminate.
      + intros [H|[H|(tags' & Heq & H)]]; auto. discriminate. }
  rewrite <- Hs. split.
  - intros (H1 & H2 & H3 & H4). auto.
  - intros (H1 & H2 & H3 & H4). auto.
Qed.

(** X1 on a journal tagged ["Lab"]: the search text ["LAB"] finds it. *)
Lemma get_journals_search_contains_witness :
  let db := (create_journal "Torque" "Twist force" (Some ["phys"; "Lab"]) None 1 5
               init_database).1 in
  mkJournal 1 "Torque" "Twist force" (Some ["phys"; "Lab"]) None 1 false None 5 5
  ∈ r_journal <$> get_journals 1 None (Some "LAB") db.
Proof.
  intros db.
  apply (get_journals_search_contains 1 None "LAB" db); [reflexivity|discriminate|].
  split; [left|]. split; [reflexivity|]. split; [exact I|].
  right. right. eexists. split; reflexivity.
Defined.

(** X2. Every listing of [get_journals] is ordered by [updated_at], latest
    first, holds journals of the owner only, each with its tags parsed
    back ([[]] for NULL); a folder id of 0 filters nothing, as no folder
    id, and an empty search text searches nothing, as no search text. *)
Theorem get_journals_newest_first (user_id : Z) (folder_id : option Z)
    (search_query : option string) (db : Database) :
  StronglySorted
    (fun a b => j_updated_at (r_journal b) <= j_updated_at (r_journal a))
    (get_journals user_id folder_id search_query db) /\
  Forall (fun r => j_user_id (r_journal r) = user_id /\
                   r_journal r ∈ journals db /\
                   r_tags r = default [] (j_tags (r_journal r)))
    (get_journals user_id folder_id search_query db) /\
  get_journals user_id (Some 0) search_query db = get_journals user_id None search_query db /\
  get_journals user_id folder_id (Some "") db = get_journals user_id folder_id None db.
Proof.
  split; [|split; [|split; reflexivity]].
  - unfold get_journals.
    apply (StronglySorted_fmap _
             (desc_by (fun r : Journal * option string => j_updated_at r.1))).
    + intros a b Hab. exact Hab.
    + apply StronglySorted_merge_sort; apply _.
  - apply Forall_forall. intros r Hr.
    assert (Hj : r_journal r ∈ r_journal <$> get_journals user_id folder_id search_query db)
      by (apply list_elem_of_fmap; eauto).
    apply get_journals_journals in Hj as (H1 & H2 & _).
    split; [exact H2|]. split; [exact H1|].
    unfold get_journals in Hr. apply list_elem_of_fmap in Hr as (x & -> & _). reflexivity.
Qed.

End JournalListingFacts.

(** ** Searching by tag *)

Section TagSearchFacts.

Import Db.

Lemma nat_lower_char (c : ascii) :
  nat_of_ascii (PyStr.lower_char c)
  = if PyStr.is_upper c then (nat_of_ascii c + 32)%nat else nat_of_ascii c.
Proof.
  unfold PyStr.lower_char. destruct (PyStr.is_upper c) eqn:E; [|reflexivity].
  apply nat_ascii_embedding. unfold PyStr.is_upper in E.
  apply andb_true_iff in E as [_ E]. apply Nat.leb_le in E. lia.
Qed.

Lemma plain_char_bounds (c : ascii) :
  plain_char c = true <->
  (32 <= nat_of_ascii c <= 126 /\ nat_of_ascii c <> 34 /\ nat_of_ascii c <> 92)%nat.
Proof.
  unfold plain_char. rewrite !andb_true_iff, !negb_true_iff, !Nat.leb_le, !Nat.eqb_neq. lia.
Qed.

(** Characters equal up to case are plain together. *)
Lemma plain_char_lower (p c : ascii) :
  plain_char p = true -> PyStr.lower_char p = PyStr.lower_char c -> plain_char c = true.
Proof.
  intros Hp Heq. apply plain_char_bounds in Hp. apply plain_char_bounds.
  apply (f_equal nat_of_ascii) in Heq. rewrite !nat_lower_char in Heq.
  unfold PyStr.is_upper in Heq. cbv zeta in Heq.
  destruct ((65 <=? nat_of_ascii p)%nat && (nat_of_ascii p <=? 90)%nat) eqn:E1;
    destruct ((65 <=? nat_of_ascii c)%nat && (nat_of_ascii c <=? 90)%nat) eqn:E2;
    repeat match goal with
           | H : _ && _ = true |- _ => apply andb_true_iff in H as [? ?]
           | H : _ && _ = false |- _ => apply andb_false_iff in H as [?|?]
           | H : (_ <=? _)%nat = true |- _ => apply Nat.leb_le in H
           | H : (_ <=? _)%nat = false |- _ => apply Nat.leb_gt in H
           end; lia.
Qed.

Lemma json_escape_plain (c : ascii) :
  plain_char c = true -> json_escape c = String c EmptyString.
Proof.
  intros Hc. apply plain_char_bounds in Hc. unfold json_escape.
  repeat match goal with
         | |- context [(nat_of_ascii c =? ?k)%nat] =>
             rewrite (proj2 (Nat.eqb_neq (nat_of_ascii c) k)) by lia
         end.
  rewrite (proj2 (Nat.ltb_ge _ _)), (proj2 (Nat.ltb_ge _ _)) by lia. reflexivity.
Qed.

Lemma lower_app (a b : string) : PyStr.lower (a +:+ b) = PyStr.lower a +:+ PyStr.lower b.
Proof.
  induction a as [|c a IH]; [reflexivity|].
  change (String (PyStr.lower_char c) (PyStr.lower (a +:+ b))
          = String (PyStr.lower_char c) (PyStr.lower a +:+ PyStr.lower b)).
  rewrite IH. reflexivity.
Qed.

Lemma prefix_app (q a b : string) :
  String.prefix q a = true -> String.prefix q (a +:+ b) = true.
Proof.
  revert a. induction q as [|p q IH]; intros a H; [destruct (a +:+ b); reflexivity|].
  destruct a as [|c a]; [discriminate H|].
  change (String c a +:+ b) with (String c (a +:+ b)).
  rewrite prefix_cons in *. apply andb_true_iff in H as [H1 H2].
  rewrite H1, IH by exact H2. reflexivity.
Qed.

Lemma contains_app_l (q a b : string) :
  PyStr.contains q a = true -> PyStr.contains q (a +:+ b) = true.
Proof.
  induction a as [|c a IH]; simpl PyStr.contains at 1; intros H.
  - rewrite orb_false_r in H.
    destruct q; [|discriminate H]. destruct b; reflexivity.
  - change (String c a +:+ b) with (String c (a +:+ b)). simpl PyStr.contains.
    apply orb_true_iff in H as [H|H]; apply orb_true_iff.
    + left. apply (prefix_app _ (String c a)). exact H.
    + right. auto.
Qed.

Lemma contains_app_r (q a b : string) :
  PyStr.contains q b = true -> PyStr.contains q (a +:+ b) = true.
Proof.
  intros H. induction a as [|c a IH]; [exact H|].
  change (String c a +:+ b) with (String c (a +:+ b)). simpl PyStr.contains.
  rewrite IH. apply orb_true_r.
Qed.

Lemma contains_prefix (q s : string) :
  String.prefix q s = true -> PyStr.contains q s = true.
Proof.
  intros H. destruct s; unfold PyStr.contains; fold PyStr.contains; rewrite H; reflexivity.
Qed.

(** Escaping keeps a plain text where it starts ... *)
Lemma prefix_escape (q s : string) :
  plain q = true ->
  String.prefix (PyStr.lower q) (PyStr.lower s) = true ->
  String.prefix (PyStr.lower q) (PyStr.lower (json_escape_all s)) = true.
Proof.
  revert s. induction q as [|p q IH]; intros s Hq H;
    [destruct (PyStr.lower (json_escape_all s)); reflexivity|].
  destruct s as [|c s]; [discriminate H|].
  simpl in Hq. apply andb_true_iff in Hq as [Hp Hq].
  change (PyStr.lower (String p q)) with (String (PyStr.lower_char p) (PyStr.lower q)) in *.
  change (PyStr.lower (String c s)) with (String (PyStr.lower_char c) (PyStr.lower s)) in H.
  rewrite prefix_cons in H. apply andb_true_iff in H as [H1 H2].
  apply Ascii.eqb_eq in H1.
  change (json_escape_all (String c s)) with (json_escape c +:+ json_escape_all s).
  rewrite (json_escape_plain c) by (eapply plain_char_lower; eauto).
  change (String c "" +:+ json_escape_all s) with (String c (json_escape_all s)).
  change (PyStr.lower (String c (json_escape_all s)))
    with (String (PyStr.lower_char c) (PyStr.lower (json_escape_all s))).
  rewrite prefix_cons, H1, Ascii.eqb_refl. simpl. apply IH; assumption.
Qed.

(** ... and so wherever it occurs. *)
Lemma icontains_escape (q s : string) :
  plain q = true -> icontains q s = true -> icontains q (json_escape_all s) = true.
Proof.
  intros Hq. unfold icontains. induction s as [|c s IH]; intros H.
  - exact H.
  - change (PyStr.lower (String c s)) with (String (PyStr.lower_char c) (PyStr.lower s)) in H.
    simpl PyStr.contains in H. apply orb_true_iff in H as [H|H].
    + apply contains_prefix, prefix_escape; assumption.
    + change (json_escape_all (String c s)) with (json_escape c +:+ json_escape_all s).
      rewrite lower_app. apply contains_app_r. auto.
Qed.

Lemma contains_join (q sep x : string) (parts : list string) :
  x ∈ parts -> PyStr.contains q x = true -> PyStr.contains q (PyStr.join sep parts) = true.
Proof.
  intros Hx Hq. induction parts as [|p parts IH]; [inversion Hx|].
  apply elem_of_cons in Hx as [->|Hx].
  - destruct parts as [|p' parts]; [exact Hq|].
    change (PyStr.join sep (p :: p' :: parts)) with (p +:+ sep +:+ PyStr.join sep (p' :: parts)).
    apply contains_app_l. exact Hq.
  - destruct parts as [|p' parts]; [inversion Hx|].
    change (PyStr.join sep (p :: p' :: parts)) with (p +:+ sep +:+ PyStr.join sep (p' :: parts)).
    apply contains_app_r, contains_app_r. auto.
Qed.

Lemma lower_join (sep : string) (parts : list string) :
  PyStr.lower (PyStr.join sep parts) = PyStr.join (PyStr.lower sep) (map PyStr.lower parts).
Proof.
  induction parts as [|p parts IH]; [reflexivity|].
  destruct parts as [|p' parts]; [reflexivity|].
  change (PyStr.join sep (p :: p' :: parts)) with (p +:+ sep +:+ PyStr.join sep (p' :: parts)).
  rewrite !lower_app, IH. reflexivity.
Qed.

(** A tag that contains a plain text makes the stored tags text contain
    it. *)
Lemma icontains_json_dumps (q tag : string) (tags : list string) :
  plain q = true -> tag ∈ tags -> icontains q tag = true ->
  icontains q (json_dumps tags) = true.
Proof.
  intros Hq Htag H. apply icontains_escape in H; [|exact Hq].
  unfold icontains, json_dumps in *. rewrite !lower_app, lower_join.
  apply contains_app_r, contains_app_l.
  apply (contains_join _ _ (PyStr.lower (json_dumps_str tag))).
  - apply list_elem_of_fmap. exists (json_dumps_str tag). split; [reflexivity|].
    apply list_elem_of_fmap. eauto.
  - unfold json_dumps_str. rewrite !lower_app. apply contains_app_r, contains_app_l. exact H.
Qed.

(** X3. A search text of plain characters (printable ASCII other than the
    double quote, the backslash, [%] and [_]) finds every journal of the
    owner one of whose tags contains it, case apart. The match runs on the
    JSON text of the tags: the text ["["] finds every journal that has
    stored tags. *)
Theorem get_journals_search_by_tag (user_id : Z) (folder_id : option Z) (db : Database)
    (j : Journal) (tags : list string) :
  j ∈ journals db -> j_user_id j = user_id -> in_folder folder_id j ->
  j_tags j = Some tags ->
  (forall q tag,
      wildcard_free q = true -> plain q = true -> q <> "" ->
      tag ∈ tags -> icontains q tag = true ->
      j ∈ r_journal <$> get_journals user_id folder_id (Some q) db) /\
  j ∈ r_journal <$> get_journals user_id folder_id (Some "[") db.
Proof.
  intros Hj Hu Hf Ht.
  assert (Hfound : forall q, wildcard_free q = true ->
                             icontains q (json_dumps tags) = true ->
                             j ∈ r_journal <$> get_journals user_id folder_id (Some q) db).
  { intros q Hw Hc. apply get_journals_journals. repeat split; auto.
    intros _. unfold search_matches. simpl default. rewrite Ht.
    rewrite (like_search_param q (json_dumps tags)) by exact Hw.
    rewrite Hc. apply orb_true_r. }
  split.
  - intros q tag Hw Hq Hne Htag Hc. apply Hfound; [exact Hw|].
    eapply icontains_json_dumps; eauto.
  - apply Hfound; [reflexivity|].
    unfold icontains, json_dumps. rewrite lower_app. apply contains_app_l. reflexivity.
Qed.

End TagSearchFacts.

(** ** Journals and folders: create, update, delete *)

Section JournalCrudFacts.

Import Db.

(** X3 on a journal tagged ["Lab"]: the text ["ab"] finds it. *)
Lemma get_journals_search_by_tag_witness :
  let db := (create_journal "Torque" "Twist force" (Some ["phys"; "Lab"]) None 1 5
               init_database).1 in
  mkJournal 1 "Torque" "Twist force" (Some ["phys"; "Lab"]) None 1 false None 5 5
  ∈ r_journal <$> get_journals 1 None (Some "ab") db.
Proof.
  intros db.
  destruct (get_journals_search_by_tag 1 None db
              (mkJournal 1 "Torque" "Twist force" (Some ["phys"; "Lab"]) None 1 false None 5 5)
              ["phys"; "Lab"]) as [H _]; [left|reflexivity|exact I|reflexivity|].
  apply (H "ab" "Lab"); [reflexivity|reflexivity|discriminate|right; left|reflexivity].
Defined.

Lemma get_journals_row_tags (user_id : Z) (folder_id : option Z)
    (search_query : option string) (db : Database) (row : JournalRow) :
  row ∈ get_journals user_id folder_id search_query db ->
  r_tags row = default [] (j_tags (r_journal row)).
Proof.
  unfold get_journals. intros H. apply list_elem_of_fmap in H as (x & -> & _). reflexivity.
Qed.

Lemma init_journal_ids_ok : journal_ids_ok init_database.
Proof. constructor. Qed.

(** X4. [create_journal] hands out an id that no stored journal has, keeps
    the journals there were, and the unfiltered listing of the owner then
    holds the new journal with the title, content and folder given and
    with the tags given read back ([[]] for no tags). *)
Theorem create_journal_listed (title content : string) (tags : option (list string))
    (folder_id : option Z) (user_id now : Z) (db : Database) :
  journal_ids_ok db ->
  let r := create_journal title content tags folder_id user_id now db in
  r.2 = journals_seq db + 1 /\
  journal_ids_ok r.1 /\
  (forall j, j ∈ journals db -> j_id j <> r.2 /\ j ∈ journals r.1) /\
  exists row,
    row ∈ get_journals user_id None None r.1 /\
    j_id (r_journal row) = r.2 /\
    j_title (r_journal row) = title /\
    j_content (r_journal row) = content /\
    j_folder_id (r_journal row) = folder_id /\
    j_is_shared (r_journal row) = false /\
    r_tags row = default [] tags.
Proof.
  intros Hok r. subst r. unfold journal_ids_ok in *. simpl.
  split; [reflexivity|]. split; [|split].
  - apply Forall_app. split.
    + eapply Forall_impl; [exact Hok|]. simpl. intros; lia.
    + repeat constructor. simpl. lia.
  - intros j Hj. rewrite Forall_forall in Hok. specialize (Hok j Hj).
    split; [lia|]. apply elem_of_app. auto.
  - set (j := mkJournal (journals_seq db + 1) title content
                match tags with
                | Some (t :: ts) => Some (t :: ts)
                | _ => None
                end folder_id user_id false None now now).
    set (db' := (create_journal title content tags folder_id user_id now db).1).
    assert (Hj : j ∈ r_journal <$> get_journals user_id None None db').
    { apply get_journals_journals. split; [|repeat split; discriminate].
      subst db'. simpl. apply elem_of_app. right. left. }
    apply list_elem_of_fmap in Hj as (row & Hrow & Hin). exists row.
    split; [exact Hin|].
    rewrite (get_journals_row_tags _ _ _ _ _ Hin), <- Hrow. subst j. simpl.
    repeat split. destruct tags as [[|t ts]|]; reflexivity.
Qed.

(** X4 on a new database. *)
Lemma create_journal_listed_witness :
  exists row,
    row ∈ get_journals 1 None None
            (create_journal "Torque" "Twist force" (Some ["phys"]) None 1 5 init_database).1 /\
    j_id (r_journal row) = 1 /\ r_tags row = ["phys"].
Proof.
  destruct (create_journal_listed "Torque" "Twist force" (Some ["phys"]) None 1 5
              init_database init_journal_ids_ok) as (_ & _ & _ & row & H1 & H2 & _ & _ & _ & _ & H3).
  exists row. auto.
Defined.

(** X5. [update_journal] selects its row by id alone. With some field
    given it returns [True] whether or not a row has the id: on no such
    row the database is as before and the handler still answers 200.
    Rows of another id are never changed, and a row of the id is changed
    whoever owns it. *)
Theorem update_journal_by_id_only (journal_id : Z) (title content : option string)
    (tags : option (list string)) (folder_id : option Z) (now : Z) (st : App.State) :
  is_Some title \/ is_Some content \/ is_Some tags \/ is_Some folder_id ->
  let db := App.db st in
  let r := update_journal journal_id title content tags folder_id now db in
  r.2 = true /\
  Forall2 (fun j j' => (j_id j <> journal_id -> j' = j) /\
                       (j_id j = journal_id ->
                        j_user_id j' = j_user_id j /\ j_updated_at j' = now /\
                        j_title j' = default (j_title j) title))
    (journals db) (journals r.1) /\
  ((forall j, j ∈ journals db -> j_id j <> journal_id) ->
   r = (db, true) /\
   App.update_journal journal_id title content tags folder_id now st
   = (st, App.mkResponse 200 (App.MessageBody "Journal updated successfully"))).
Proof.
  intros Hsome db r.
  pose proof (assign_all_columns title content tags folder_id now) as Hcols.
  cbv zeta in Hcols.
  assert (Hr : r = (set_journals
                      (update_where (fun j => j_id j =? journal_id)
                         (assign_all
                            (append_if SetFolderId folder_id
                               (append_if SetTags tags
                                  (append_if SetContent content (append_if SetTitle title [])))
                             ++ [SetUpdatedAt now])) (journals db)) db, true)).
  { subst r. unfold update_journal.
    destruct title, content, tags, folder_id; try reflexivity.
    destruct Hsome as [[? H]|[[? H]|[[? H]|[? H]]]]; discriminate H. }
  split; [rewrite Hr; reflexivity|]. split.
  - rewrite Hr. simpl. apply update_where_Forall2. intros j.
    destruct (j_id j =? journal_id) eqn:E.
    + apply Z.eqb_eq in E. rewrite Hcols. simpl. split; [congruence|auto].
    + apply Z.eqb_neq in E. split; [reflexivity|congruence].
  - intros Hmiss.
    assert (Hsame : r = (db, true)).
    { rewrite Hr. rewrite update_where_no_hit, set_journals_id; [reflexivity|].
      apply not_true_iff_false. intros Hex. apply existsb_exists in Hex as (j & Hj & Hid).
      apply Z.eqb_eq in Hid. apply (Hmiss j); [apply list_elem_of_In; exact Hj|exact Hid]. }
    split; [exact Hsame|].
    unfold App.update_journal. fold db. fold r. rewrite Hsame. destruct st; reflexivity.
Qed.

(** X5 on a database whose only journal has id 1: updating journal 9. *)
Lemma update_journal_by_id_only_witness :
  let st :=
    App.mkState ∅ (create_journal "Notes" "Torque" None None 1 5 init_database).1 in
  App.update_journal 9 (Some "Renamed") None None None 7 st
  = (st, App.mkResponse 200 (App.MessageBody "Journal updated successfully")).
Proof.
  intros st.
  destruct (update_journal_by_id_only 9 (Some "Renamed") None None None 7 st) as (_ & _ & H).
  - left. eauto.
  - apply H. intros j Hj Hid. apply list_elem_of_singleton in Hj. subst j. discriminate Hid.
Defined.

Lemma delete_where_sublist {A : Type} (p : A -> bool) (rows : list A) :
  delete_where p rows `sublist_of` rows.
Proof.
  unfold delete_where. induction rows as [|r rows IH]; simpl; [constructor|].
  destruct (negb (p r)); [apply sublist_skip|apply sublist_cons]; exact IH.
Qed.

(** X6. [delete_journal] removes exactly the rows of the given id and
    owner and keeps the others in order; no listing of the owner holds the
    id afterwards; when no row has the id and owner, the database is as
    before. *)
Theorem delete_journal_removes (journal_id user_id : Z) (db : Database) :
  let db' := (delete_journal journal_id user_id db).1 in
  (forall j, j ∈ journals db' <->
             j ∈ journals db /\ ~ (j_id j = journal_id /\ j_user_id j = user_id)) /\
  journals db' `sublist_of` journals db /\
  (forall folder_id search_query j,
      j ∈ r_journal <$> get_journals user_id folder_id search_query db' ->
      j_id j <> journal_id) /\
  ((forall j, j ∈ journals db -> ~ (j_id j = journal_id /\ j_user_id j = user_id)) ->
   db' = db).
Proof.
  intros db'. subst db'. simpl.
  assert (Hmem : forall j,
             j ∈ delete_where (fun j => (j_id j =? journal_id) && (j_user_id j =? user_id))
                   (journals db) <->
             j ∈ journals db /\ ~ (j_id j = journal_id /\ j_user_id j = user_id)).
  { intros j. rewrite elem_of_delete_where, andb_false_iff, !Z.eqb_neq.
    split; intros [H1 H2]; (split; [exact H1|]).
    - intros [? ?]. destruct H2; congruence.
    - destruct (decide (j_id j = journal_id)); [right; intros ?; apply H2; auto|left; auto]. }
  split; [exact Hmem|]. split; [|split].
  - apply delete_where_sublist.
  - intros folder_id search_query j Hj Hid.
    apply get_journals_journals in Hj as (Hin & Hu & _). simpl in Hin.
    apply Hmem in Hin as [_ Hin]. auto.
  - intros Hnone. rewrite delete_where_no_hit, set_journals_id; [reflexivity|].
    apply Forall_forall. intros j Hj. specialize (Hnone j Hj).
    rewrite andb_false_iff, !Z.eqb_neq.
    destruct (decide (j_id j = journal_id)); [right; intros ?; apply Hnone; auto|left; auto].
Qed.

(** X6 on a database with journals 1 and 2: deleting journal 1, then a
    journal that is not there. *)
Lemma delete_journal_removes_witness :
  let db0 := (create_journal "One" "First" None None 1 5 init_database).1 in
  let db := (create_journal "Two" "Second" None None 1 6 db0).1 in
  j_id <$> journals (delete_journal 1 1 db).1 = [2] /\
  (delete_journal 9 1 db).1 = db.
Proof.
  intros db0 db. split; [reflexivity|].
  apply (delete_journal_removes 9 1 db). intros j Hj [Hid _].
  apply elem_of_cons in Hj as [->|Hj]; [discriminate Hid|].
  apply list_elem_of_singleton in Hj. subst j. discriminate Hid.
Defined.

End JournalCrudFacts.

(** ** Folders *)

Section FolderFacts.

Import Db.

Lemma set_folders_id (db : Database) : set_folders (folders db) db = db.
Proof. destruct db; reflexivity. Qed.

Lemma get_folders_rows (user_id : Z) (db : Database) (row : FolderRow) :
  row ∈ get_folders user_id db ->
  r_folder row ∈ folders db /\ f_user_id (r_folder row) = user_id /\
  r_journal_count row
  = count_where (fun j => opt_Z_eqb (j_folder_id j) (f_id (r_folder row))) (journals db).
Proof.
  unfold get_folders. rewrite merge_sort_Permutation. intros H.
  apply list_elem_of_fmap in H as (f & -> & Hf).
  apply elem_of_select_where in Hf as [Hf Hu]. apply Z.eqb_eq in Hu. auto.
Qed.

(** X7. [delete_folder] deletes no journal: every journal keeps its row
    and its columns, but for the folder reference of those filed in the
    folder, which becomes NULL, so that no journal refers to the folder
    afterwards. The folder leaves the listing of the owner given. The
    journals are unfiled without regard to the owner: when the folder is
    not of the owner given, it stays while its journals are unfiled all
    the same. *)
Theorem delete_folder_unfiles (folder_id user_id : Z) (db : Database) :
  let db' := (delete_folder folder_id user_id db).1 in
  Forall2 (fun j j' => (j_folder_id j <> Some folder_id -> j' = j) /\
                       (j_folder_id j = Some folder_id -> j' = clear_folder j))
    (journals db) (journals db') /\
  Forall (fun j => j_folder_id j <> Some folder_id) (journals db') /\
  (forall row, row ∈ get_folders user_id db' -> f_id (r_folder row) <> folder_id) /\
  ((forall f, f ∈ folders db -> f_id f = folder_id -> f_user_id f <> user_id) ->
   folders db' = folders db).
Proof.
  intros db'. subst db'. simpl. split; [|split; [|split]].
  - apply update_where_Forall2. intros j.
    destruct (opt_Z_eqb (j_folder_id j) folder_id) eqn:E.
    + apply opt_Z_eqb_spec in E. split; [congruence|reflexivity].
    + split; [reflexivity|]. intros H. apply opt_Z_eqb_spec in H. congruence.
  - apply Forall_forall. intros j Hj.
    apply elem_of_update_where in Hj as (j0 & _ & ->).
    destruct (opt_Z_eqb (j_folder_id j0) folder_id) eqn:E; [discriminate|].
    intros H. apply opt_Z_eqb_spec in H. congruence.
  - intros row Hrow Hid. apply get_folders_rows in Hrow as (Hin & Hu & _).
    simpl in Hin. apply elem_of_delete_where in Hin as [_ Hin].
    rewrite Hid, Hu, !Z.eqb_refl in Hin. discriminate.
  - intros Hother. apply delete_where_no_hit. apply Forall_forall. intros f Hf.
    apply andb_false_iff. destruct (f_id f =? folder_id) eqn:E; [right|left; reflexivity].
    apply Z.eqb_eq in E. apply Z.eqb_neq. auto.
Qed.

(** X7 on a folder of owner 2 with a journal of owner 1 in it: owner 1
    deletes the folder. *)
Lemma delete_folder_unfiles_witness :
  let db0 := (create_folder "Shared" None "#8A2BE2" 2 3 init_database).1 in
  let db := (create_journal "Notes" "Torque" None (Some 1) 1 5 db0).1 in
  folders (delete_folder 1 1 db).1 = folders db /\
  j_folder_id <$> journals (delete_folder 1 1 db).1 = [None].
Proof.
  intros db0 db.
  destruct (delete_folder_unfiles 1 1 db) as (_ & _ & _ & H).
  split; [|reflexivity]. apply H. intros f Hf _.
  apply list_elem_of_singleton in Hf. subst f. discriminate.
Defined.

(** The SET list of [update_folder] on one row. *)
Lemma assign_folder_columns (name description color : option string) (now : Z) (f : Folder) :
  fold_left (fun r a => assign_folder a r)
    (append_if SetColor color
       (append_if SetDescription description (append_if SetName name []))
     ++ [SetFolderUpdatedAt now]) f
  = mkFolder (f_id f) (default (f_name f) name)
      (from_option Some (f_description f) description)
      (default (f_color f) color) (f_user_id f) (f_created_at f) now.
Proof. destruct name, description, color; reflexivity. Qed.

(** X8. In [update_folder] a field passed as [None] leaves its column as
    it was and rows of another id are never changed; a description that is
    set stays set; a call whose fields are all [None] returns [False] and
    changes nothing, and a call with some field returns [True] even when no
    folder has the id, the database being as before. *)
Theorem update_folder_none_keeps_column (folder_id : Z) (name description color : option string)
    (now : Z) (db : Database) :
  let r := update_folder folder_id name description color now db in
  Forall2 (fun f f' =>
             f_id f' = f_id f /\ f_user_id f' = f_user_id f /\
             (f_id f <> folder_id -> f' = f) /\
             (name = None -> f_name f' = f_name f) /\
             (description = None -> f_description f' = f_description f) /\
             (color = None -> f_color f' = f_color f) /\
             (is_Some (f_description f) -> is_Some (f_description f')))
    (folders db) (folders r.1) /\
  (name = None -> description = None -> color = None -> r = (db, false)) /\
  (is_Some name \/ is_Some description \/ is_Some color ->
   r.2 = true /\
   ((forall f, f ∈ folders db -> f_id f <> folder_id) -> r.1 = db)).
Proof.
  intros r. pose proof (assign_folder_columns name description color now) as Hcols.
  destruct (append_if SetColor color
              (append_if SetDescription description (append_if SetName name [])))
    as [|a updates] eqn:E.
  - assert (name = None /\ description = None /\ color = None) as (-> & -> & ->)
      by (destruct name, description, color; try discriminate E; auto).
    subst r. simpl. split; [|split].
    + apply Forall2_same_length_lookup_2; [reflexivity|].
      intros i f f' H1 H2. assert (f = f') by congruence. subst f'. tauto.
    + reflexivity.
    + intros [[? H]|[[? H]|[? H]]]; discriminate H.
  - assert (Hr : r = (set_folders
                        (update_where (fun f => f_id f =? folder_id)
                           (fun f => fold_left (fun r a => assign_folder a r)
                                       ((a :: updates) ++ [SetFolderUpdatedAt now]) f)
                           (folders db)) db, true)).
    { subst r. unfold update_folder. cbv zeta. rewrite E. reflexivity. }
    rewrite Hr. split; [|split].
    + unfold set_folders. cbn [fst folders]. apply update_where_Forall2. intros f.
      destruct (f_id f =? folder_id) eqn:Ef.
      * rewrite Hcols. simpl. apply Z.eqb_eq in Ef.
        destruct name, description, color; simpl;
          repeat split; try discriminate; try tauto; try congruence; eauto.
      * apply Z.eqb_neq in Ef. tauto.
    + intros -> -> ->. discriminate E.
    + intros _. split; [reflexivity|]. intros Hmiss. cbn [fst].
      rewrite update_where_no_hit, set_folders_id; [reflexivity|].
      apply not_true_iff_false. intros Hex. apply existsb_exists in Hex as (f & Hf & Hid).
      apply Z.eqb_eq in Hid. apply (Hmiss f); [apply list_elem_of_In; exact Hf|exact Hid].
Qed.

(** X8 on a database with folder 1: renaming it keeps description and
    colour; renaming folder 5 changes nothing. *)
Lemma update_folder_none_keeps_column_witness :
  let db := (create_folder "Physics" (Some "Mechanics") "#8A2BE2" 1 3 init_database).1 in
  folders (update_folder 1 (Some "Rotation") None None 9 db).1
  = [mkFolder 1 "Rotation" (Some "Mechanics") "#8A2BE2" 1 3 9] /\
  (update_folder 5 (Some "Rotation") None None 9 db).1 = db.
Proof.
  intros db. split; [reflexivity|].
  destruct (update_folder_none_keeps_column 5 (Some "Rotation") None None 9 db)
    as (_ & _ & H).
  destruct H as [_ H]; [left; eauto|]. apply H.
  intros f Hf Hid. apply list_elem_of_singleton in Hf. subst f. discriminate Hid.
Defined.

End FolderFacts.

(** ** Creating a journal through the endpoint *)

Section CreateJournalFacts.

Import PyStr.

Lemma lstrip_head (s : string) :
  lstrip s = "" \/ exists c t, lstrip s = String c t /\ is_space c = false.
Proof.
  induction s as [|c s IH]; [left; reflexivity|].
  simpl. destruct (is_space c) eqn:E; [exact IH|]. right. eauto.
Qed.

Lemma lstrip_idempotent (s : string) : lstrip (lstrip s) = lstrip s.
Proof.
  destruct (lstrip_head s) as [->|(c & t & -> & Hc)]; [reflexivity|].
  simpl. rewrite Hc. reflexivity.
Qed.

Lemma rev_str_app (a b : string) : rev_str (a +:+ b) = rev_str b +:+ rev_str a.
Proof.
  induction a as [|c a IH].
  - change ("" +:+ b) with b. simpl. rewrite append_empty_r. reflexivity.
  - change (String c a +:+ b) with (String c (a +:+ b)). simpl.
    rewrite IH, append_assoc. reflexivity.
Qed.

Lemma rev_str_involutive (s : string) : rev_str (rev_str s) = s.
Proof.
  induction s as [|c s IH]; [reflexivity|].
  simpl. rewrite rev_str_app, IH. reflexivity.
Qed.

Lemma lstrip_snoc (x : string) (c : ascii) :
  is_space c = false -> exists u, lstrip (x +:+ String c "") = u +:+ String c "".
Proof.
  intros Hc. induction x as [|d x IH].
  - exists "". change ("" +:+ String c "") with (String c ""). simpl. rewrite Hc. reflexivity.
  - change (String d x +:+ String c "") with (String d (x +:+ String c "")). simpl.
    destruct (is_space d); [exact IH|]. exists (String d x). reflexivity.
Qed.

(** Stripping leaves no white space at either end. *)
Lemma strip_lstrip (s : string) : lstrip (strip s) = strip s.
Proof.
  unfold strip, rstrip.
  destruct (lstrip_head s) as [->|(c & t & -> & Hc)]; [reflexivity|].
  change (rev_str (String c t)) with (rev_str t +:+ String c "").
  destruct (lstrip_snoc (rev_str t) c Hc) as (u & Hu). rewrite Hu, rev_str_app.
  change (rev_str (String c "") +:+ rev_str u) with (String c (rev_str u)).
  cbn [lstrip]. rewrite Hc. reflexivity.
Qed.

Lemma strip_idempotent (s : string) : strip (strip s) = strip s.
Proof.
  unfold strip at 1. rewrite strip_lstrip. unfold strip, rstrip.
  rewrite rev_str_involutive, lstrip_idempotent. reflexivity.
Qed.

(** X9. [POST /journals] answers 400 and stores nothing when the title or
    the content is missing, empty or white space only. Otherwise it
    answers 201 with the id of the one journal it adds, whose title and
    content are the texts given without the white space around them: not
    empty, and unchanged by stripping again. *)
Theorem create_journal_validates (title content : option string)
    (tags : option (list string)) (folder_id : option Z) (now : Z) (st : App.State) :
  let r := App.create_journal title content tags folder_id now st in
  (strip (default "" title) = "" \/ strip (default "" content) = "" ->
   r = (st, App.mkReply 400 (App.Error "Title and content are required"))) /\
  (strip (default "" title) <> "" -> strip (default "" content) <> "" ->
   exists j,
     Db.journals (App.db r.1) = Db.journals (App.db st) ++ [j] /\
     r.2 = App.mkReply 201 (App.Json (Db.j_id j)) /\
     Db.j_id j = Db.journals_seq (App.db st) + 1 /\
     Db.j_user_id j = 1 /\
     Db.j_title j = strip (default "" title) /\
     Db.j_content j = strip (default "" content) /\
     Db.j_title j <> "" /\ strip (Db.j_title j) = Db.j_title j /\
     Db.j_content j <> "" /\ strip (Db.j_content j) = Db.j_content j /\
     Db.j_folder_id j = folder_id).
Proof.
  intros r. subst r. unfold App.create_journal.
  set (t := strip (default "" title)). set (c := strip (default "" content)).
  assert (Ht : strip t = t) by apply strip_idempotent.
  assert (Hc : strip c = c) by apply strip_idempotent.
  clearbody t c. split.
  - intros [->| ->]; [reflexivity|]. destruct t; reflexivity.
  - intros Hnt Hnc. destruct t as [|a t]; [congruence|]. destruct c as [|b c]; [congruence|].
    simpl. eexists. split; [reflexivity|]. simpl. repeat split; auto.
Qed.

(** X9 on a title of white space, and on a padded title. *)
Lemma create_journal_validates_witness :
  let st := App.mkState ∅ Db.init_database in
  (App.create_journal (Some "   ") (Some "Body") None None 5 st).2
  = App.mkReply 400 (App.Error "Title and content are required") /\
  Db.j_title <$> Db.journals
                   (App.db (App.create_journal (Some "  Torque ") (Some "Body") None None 5 st).1)
  = ["Torque"].
Proof.
  intros st. split; [|reflexivity].
  rewrite (proj1 (create_journal_validates (Some "   ") (Some "Body") None None 5 st));
    [reflexivity|left; reflexivity].
Defined.

End CreateJournalFacts.

(** ** Sharing, twice *)

Section ShareTwiceFacts.

Import Db.

Lemma share_journal_unfold (journal_id user_id : Z) (share_token : string) (now : Z)
    (db : Database) :
  share_journal journal_id user_id share_token now db
  = let js := update_where (share_hit journal_id user_id) (toggle_share share_token now)
                (journals db) in
    if existsb (share_hit journal_id user_id) (journals db) && negb (unique_tokens js)
    then Raise "UNIQUE constraint failed: journals.share_token"
    else Ok (set_journals js db, share_token).
Proof. reflexivity. Qed.

Lemma unique_id_no_other_hit (journal_id user_id : Z) (j : Journal) (js : list Journal) :
  NoDup (j_id <$> j :: js) -> share_hit journal_id user_id j = true ->
  existsb (share_hit journal_id user_id) js = false.
Proof.
  intros Hnd Hj. rewrite fmap_cons in Hnd. apply NoDup_cons in Hnd as [Hnot _].
  apply not_true_iff_false. intros Hex. apply existsb_exists in Hex as (j' & Hin & Hj').
  apply Hnot. unfold share_hit in *.
  apply andb_true_iff in Hj as [Hj _]. apply andb_true_iff in Hj' as [Hj' _].
  apply Z.eqb_eq in Hj, Hj'. rewrite Hj, <- Hj'.
  apply list_elem_of_fmap. exists j'. split; [reflexivity|apply list_elem_of_In; exact Hin].
Qed.

(** The tokens after the UPDATE: the new one, or the token of a row that
    was not selected. *)
Lemma share_tokens_after (journal_id user_id : Z) (share_token : string) (now : Z)
    (js : list Journal) (x : string) :
  x ∈ share_tokens
        (update_where (share_hit journal_id user_id) (toggle_share share_token now) js) ->
  x = share_token \/
  exists j, j ∈ js /\ share_hit journal_id user_id j = false /\ j_share_token j = Some x.
Proof.
  unfold share_tokens. intros H. apply list_elem_of_omap in H as (j' & Hj' & Hx).
  apply elem_of_update_where in Hj' as (j & Hj & ->).
  destruct (share_hit journal_id user_id j) eqn:E.
  - left. simpl in Hx. congruence.
  - right. eauto.
Qed.

Lemma share_tokens_unique_after (journal_id user_id : Z) (share_token : string) (now : Z)
    (js : list Journal) :
  NoDup (j_id <$> js) -> NoDup (share_tokens js) -> share_token ∉ share_tokens js ->
  NoDup (share_tokens
           (update_where (share_hit journal_id user_id) (toggle_share share_token now) js)).
Proof.
  induction js as [|j js IH]; intros Hids Htok Hfresh; [constructor|].
  simpl update_where. destruct (share_hit journal_id user_id j) eqn:E.
  - rewrite update_where_no_hit by (eapply unique_id_no_other_hit; eauto).
    unfold share_tokens in *. simpl. apply NoDup_cons. split.
    + intros Hin. apply Hfresh. simpl. destruct (j_share_token j); [right|]; exact Hin.
    + simpl in Htok. destruct (j_share_token j); [apply NoDup_cons in Htok; tauto|exact Htok].
  - rewrite fmap_cons in Hids. apply NoDup_cons in Hids as [_ Hids].
    assert (Hfresh' : share_token ∉ share_tokens js).
    { intros Hin. apply Hfresh. unfold share_tokens in *. simpl.
      destruct (j_share_token j); [right|]; exact Hin. }
    unfold share_tokens in *. simpl. simpl in Htok.
    destruct (j_share_token j) as [t|] eqn:Et.
    + apply NoDup_cons in Htok as [Hnot Htok]. apply NoDup_cons. split; [|auto].
      intros Hin. apply share_tokens_after in Hin as [->|(j' & Hj' & _ & Ht')].
      * apply Hfresh. simpl. rewrite Et. left.
      * apply Hnot. apply list_elem_of_omap. eauto.
    + auto.
Qed.

(** X10. On a table that meets its constraints, sharing a journal of the
    owner twice, with two different tokens that no journal holds, succeeds
    both times: the share flag is flipped, then back as it was; the
    journal holds the second token, and no journal holds the first any
    more. *)
Theorem share_journal_twice (journal_id user_id : Z) (token1 token2 : string)
    (now later : Z) (db : Database) (j : Journal) :
  journals_ok db ->
  j ∈ journals db -> j_id j = journal_id -> j_user_id j = user_id ->
  token1 ∉ share_tokens (journals db) -> token2 ∉ share_tokens (journals db) ->
  token1 <> token2 ->
  exists db1 db2,
    share_journal journal_id user_id token1 now db = Ok (db1, token1) /\
    share_journal journal_id user_id token2 later db1 = Ok (db2, token2) /\
    toggle_share token1 now j ∈ journals db1 /\
    toggle_share token2 later (toggle_share token1 now j) ∈ journals db2 /\
    j_is_shared (toggle_share token2 later (toggle_share token1 now j)) = j_is_shared j /\
    (token1 ∉ share_tokens (journals db2)) /\
    journals_ok db2.
Proof.
  intros [Hids Htok] Hj Hid Hu Hf1 Hf2 Hne.
  assert (Hhit : share_hit journal_id user_id j = true).
  { unfold share_hit. rewrite Hid, Hu, !Z.eqb_refl. reflexivity. }
  set (js1 := update_where (share_hit journal_id user_id) (toggle_share token1 now)
                (journals db)).
  set (js2 := update_where (share_hit journal_id user_id) (toggle_share token2 later) js1).
  assert (Hids1 : NoDup (j_id <$> js1)).
  { subst js1. unfold update_where. rewrite <- list_fmap_compose.
    erewrite list_fmap_ext; [exact Hids|]. intros i x _. simpl.
    destruct (share_hit journal_id user_id x); reflexivity. }
  assert (Htok1 : NoDup (share_tokens js1))
    by (apply share_tokens_unique_after; assumption).
  assert (Hf21 : token2 ∉ share_tokens js1).
  { intros Hin. apply share_tokens_after in Hin as [->|(j' & Hj' & _ & Ht')]; [congruence|].
    apply Hf2. apply list_elem_of_omap. eauto. }
  assert (Hids2 : NoDup (j_id <$> js2)).
  { subst js2. unfold update_where. rewrite <- list_fmap_compose.
    erewrite list_fmap_ext; [exact Hids1|]. intros i x _. simpl.
    destruct (share_hit journal_id user_id x); reflexivity. }
  assert (Htok2 : NoDup (share_tokens js2))
    by (apply share_tokens_unique_after; assumption).
  assert (Hj1 : toggle_share token1 now j ∈ js1).
  { apply elem_of_update_where. exists j. rewrite Hhit. auto. }
  exists (set_journals js1 db), (set_journals js2 (set_journals js1 db)).
  split; [|split; [|split; [|split; [|split; [|split]]]]].
  - rewrite share_journal_unfold. cbv zeta. fold js1. unfold unique_tokens.
    rewrite (bool_decide_eq_true_2 _ Htok1), andb_false_r. reflexivity.
  - rewrite share_journal_unfold. cbv zeta.
    change (journals (set_journals js1 db)) with js1. fold js2. unfold unique_tokens.
    rewrite (bool_decide_eq_true_2 _ Htok2), andb_false_r. reflexivity.
  - exact Hj1.
  - change (journals (set_journals js2 (set_journals js1 db))) with js2.
    apply elem_of_update_where. exists (toggle_share token1 now j). split; [exact Hj1|].
    unfold share_hit in *. simpl. rewrite Hhit. reflexivity.
  - simpl. apply negb_involutive.
  - change (journals (set_journals js2 (set_journals js1 db))) with js2.
    intros Hin. apply share_tokens_after in Hin as [?|(j' & Hj' & Hmiss & Ht')]; [congruence|].
    apply elem_of_update_where in Hj' as (j0 & Hj0 & ->).
    destruct (share_hit journal_id user_id j0) eqn:E.
    + unfold share_hit in *. simpl in Hmiss. congruence.
    + apply Hf1. apply list_elem_of_omap. eauto.
  - split; assumption.
Qed.

(** X10 on the one journal of a database. *)
Lemma share_journal_twice_witness :
  let db := (create_journal "Notes" "Torque" None None 1 5 init_database).1 in
  exists db1 db2,
    share_journal 1 1 "tokenA" 8 db = Ok (db1, "tokenA") /\
    share_journal 1 1 "tokenB" 9 db1 = Ok (db2, "tokenB") /\
    "tokenA" ∉ share_tokens (journals db2).
Proof.
  intros db.
  destruct (share_journal_twice 1 1 "tokenA" "tokenB" 8 9 db
              (mkJournal 1 "Notes" "Torque" None None 1 false None 5 5))
    as (db1 & db2 & H1 & H2 & _ & _ & _ & H3 & _).
  - split; simpl; repeat constructor. intros H. inversion H.
  - left.
  - reflexivity.
  - reflexivity.
  - intros H. inversion H.
  - intros H. inversion H.
  - discriminate.
  - exists db1, db2. auto.
Defined.

(** X11. Sharing a journal of the owner with a token that another row
    holds breaks the UNIQUE constraint: [share_journal] raises, and the
    share endpoint answers 500 with the state as it was. *)
Theorem share_journal_token_conflict (journal_id : Z) (host_url share_token : string)
    (now : Z) (st : App.State) (j other : Journal) :
  j ∈ journals (App.db st) -> share_hit journal_id 1 j = true ->
  other ∈ journals (App.db st) -> share_hit journal_id 1 other = false ->
  j_share_token other = Some share_token ->
  share_journal journal_id 1 share_token now (App.db st)
  = Raise "UNIQUE constraint failed: journals.share_token" /\
  App.toggle_journal_sharing journal_id host_url share_token now st
  = (st, App.mkResponse 500 (App.ErrorBody "UNIQUE constraint failed: journals.share_token")).
Proof.
  intros Hj Hhit Ho Hmiss Htok.
  assert (Hraise : share_journal journal_id 1 share_token now (App.db st)
                   = Raise "UNIQUE constraint failed: journals.share_token").
  { rewrite share_journal_unfold. cbv zeta.
    assert (Hex : existsb (share_hit journal_id 1) (journals (App.db st)) = true).
    { apply existsb_exists. exists j. split; [apply list_elem_of_In; exact Hj|exact Hhit]. }
    rewrite Hex. unfold unique_tokens. rewrite bool_decide_eq_false_2; [reflexivity|].
    intros Hnd.
    assert (Hsame : toggle_share share_token now j = other).
    { revert Hnd.
      assert (H1 : toggle_share share_token now j
                   ∈ update_where (share_hit journal_id 1) (toggle_share share_token now)
                       (journals (App.db st)))
        by (apply elem_of_update_where; exists j; rewrite Hhit; auto).
      assert (H2 : other
                   ∈ update_where (share_hit journal_id 1) (toggle_share share_token now)
                       (journals (App.db st)))
        by (apply elem_of_update_where; exists other; rewrite Hmiss; auto).
      revert H1 H2.
      generalize (update_where (share_hit journal_id 1) (toggle_share share_token now)
                    (journals (App.db st))).
      intros l. unfold share_tokens.
      induction l as [|x l IH]; intros H1 H2 Hnd; [inversion H1|].
      apply elem_of_cons in H1 as [H1|H1]; apply elem_of_cons in H2 as [H2|H2].
      - congruence.
      - exfalso. subst x. simpl in Hnd. apply NoDup_cons in Hnd as [Hnot _].
        apply Hnot. apply list_elem_of_omap. eauto.
      - exfalso. subst x. simpl in Hnd. rewrite Htok in Hnd.
        apply NoDup_cons in Hnd as [Hnot _].
        apply Hnot. apply list_elem_of_omap. exists (toggle_share share_token now j). auto.
      - apply IH; auto. simpl in Hnd.
        destruct (j_share_token x); [apply NoDup_cons in Hnd; tauto|exact Hnd]. }
    rewrite <- Hsame in Hmiss. unfold share_hit in *. simpl in Hmiss. congruence. }
  split; [exact Hraise|].
  unfold App.toggle_journal_sharing. rewrite Hraise. reflexivity.
Qed.

(** X11 on two journals, the second one shared with the token drawn for
    the first. *)
Lemma share_journal_token_conflict_witness :
  let db0 := (create_journal "One" "First" None None 1 5 init_database).1 in
  let db1 := (create_journal "Two" "Second" None None 1 6 db0).1 in
  let st :=
    App.mkState ∅
      (set_journals [mkJournal 1 "One" "First" None None 1 false None 5 5;
                     mkJournal 2 "Two" "Second" None None 1 true (Some "tokenA") 6 7] db1) in
  App.toggle_journal_sharing 1 "http://127.0.0.1:5001/" "tokenA" 9 st
  = (st, App.mkResponse 500 (App.ErrorBody "UNIQUE constraint failed: journals.share_token")).
Proof.
  intros db0 db1 st.
  refine (proj2 (share_journal_token_conflict 1 "http://127.0.0.1:5001/" "tokenA" 9 st
                   (mkJournal 1 "One" "First" None None 1 false None 5 5)
                   (mkJournal 2 "Two" "Second" None None 1 true (Some "tokenA") 6 7)
                   _ _ _ _ _)); try reflexivity.
  - left.
  - right. left.
Defined.

End ShareTwiceFacts.

(** ** Sessions and their conversation *)

Section SessionFacts.

Import Db.

Lemma get_or_create_conversation_unfold (session_id : string) (user_id now : Z)
    (db : Database) :
  get_or_create_conversation session_id user_id now db
  = match select_where (of_session session_id user_id) (conversations db) with
    | c :: _ => (db, c_id c)
    | [] => create_conversation session_id user_id None now db
    end.
Proof. reflexivity. Qed.

(** After [get_or_create_conversation] the session resolves to the id
    returned. *)
Lemma get_or_create_conversation_resolved (session_id : string) (user_id now : Z)
    (db : Database) :
  let r := get_or_create_conversation session_id user_id now db in
  exists c rest,
    select_where (of_session session_id user_id) (conversations r.1) = c :: rest /\
    c_id c = r.2.
Proof.
  rewrite get_or_create_conversation_unfold.
  destruct (select_where _ (conversations db)) as [|c rest] eqn:E; simpl.
  - rewrite select_where_app, E. simpl. unfold of_session at 1. simpl.
    rewrite String.eqb_refl, Z.eqb_refl. simpl. eauto.
  - rewrite E. eauto.
Qed.

(** [update_conversation_activity] rewrites each row on its own. *)
Lemma activity_rows (conversation_id : Z) (user_message : option string) (now : Z)
    (cs : list Conversation) :
  exists new_title,
    activity conversation_id user_message now cs
    = map (active_row conversation_id new_title now) cs /\
    (truthy user_message = false -> new_title = None).
Proof.
  unfold activity.
  set (hit := fun c => c_id c =? conversation_id).
  assert (Htouch : update_where hit (touch now) cs
                   = map (active_row conversation_id None now) cs) by reflexivity.
  assert (Hset : forall title,
             update_where hit (set_title title) (update_where hit (touch now) cs)
             = map (active_row conversation_id (Some title) now) cs).
  { intros title. unfold update_where. rewrite map_map. apply map_ext. intros c.
    unfold active_row, hit. destruct (c_id c =? conversation_id) eqn:E; [|rewrite E; reflexivity].
    simpl. rewrite E. reflexivity. }
  destruct (select_where hit (update_where hit (touch now) cs)) as [|c rest].
  - exists None. auto.
  - destruct user_message as [[|a m]|].
    + exists None. auto.
    + destruct (truthy (c_title c)).
      * exists None. split; [exact Htouch|discriminate].
      * exists (Some (derive_title (String a m))). split; [apply Hset|discriminate].
    + exists None. auto.
Qed.

Lemma active_row_keeps (conversation_id : Z) (new_title : option string) (now : Z)
    (c : Conversation) :
  let c' := active_row conversation_id new_title now c in
  c_id c' = c_id c /\ c_session_id c' = c_session_id c /\ c_user_id c' = c_user_id c /\
  c_is_deleted c' = c_is_deleted c /\ c_deleted_at c' = c_deleted_at c /\
  c_created_at c' = c_created_at c /\
  (c_id c <> conversation_id -> c' = c) /\
  (c_id c = conversation_id -> c_updated_at c' = now) /\
  (new_title = None -> c_title c' = c_title c).
Proof.
  unfold active_row. destruct (c_id c =? conversation_id) eqn:E.
  - apply Z.eqb_eq in E. destruct new_title; simpl; repeat split; auto; try congruence.
  - apply Z.eqb_neq in E. repeat split; auto; congruence.
Qed.

Lemma select_where_map_keeps (p : Conversation -> bool) (g : Conversation -> Conversation)
    (cs : list Conversation) :
  (forall c, p (g c) = p c) ->
  select_where p (map g cs) = map g (select_where p cs).
Proof.
  intros Hp. unfold select_where. induction cs as [|c cs IH]; simpl; [reflexivity|].
  rewrite Hp. destruct (p c); simpl; rewrite IH; reflexivity.
Qed.

(** Once a message is stored, its session resolves to its conversation
    without a new one being made. *)
Lemma stored_session_resolves (session_id sender message : string) (user_id now later : Z)
    (db : Database) :
  let r := add_chat_message session_id sender message user_id now db in
  get_or_create_conversation session_id user_id later r.1 = (r.1, r.2).
Proof.
  intros r.
  pose proof (add_chat_message_rows session_id sender message user_id now db)
    as (Hid & Hc & _).
  cbv zeta in *. fold r in Hid, Hc.
  destruct (get_or_create_conversation_resolved session_id user_id now db)
    as (c & rest & Hsel & Hcid).
  destruct (activity_rows
              (get_or_create_conversation session_id user_id now db).2
              (if String.eqb sender "user" then Some message else None) now
              (conversations (get_or_create_conversation session_id user_id now db).1))
    as (new_title & Hact & _).
  rewrite get_or_create_conversation_unfold, Hc, Hact.
  rewrite select_where_map_keeps, Hsel.
  - simpl. f_equal. rewrite Hid.
    pose proof (active_row_keeps
                  (get_or_create_conversation session_id user_id now db).2
                  new_title now c) as (Hk & _). rewrite Hk. exact Hcid.
  - intros x. unfold of_session.
    pose proof (active_row_keeps
                  (get_or_create_conversation session_id user_id now db).2
                  new_title now x) as (_ & Hk1 & Hk2 & _). rewrite Hk1, Hk2. reflexivity.
Qed.


(** X12. Two messages in a row for one session and owner go to one
    conversation: the second call resolves to the id of the first and
    adds no conversation, and the two message rows stored carry that id. *)
Theorem add_chat_message_same_conversation (session_id sender message sender' message' : string)
    (user_id now later : Z) (db : Database) :
  let r := add_chat_message session_id sender message user_id now db in
  let r' := add_chat_message session_id sender' message' user_id later r.1 in
  r'.2 = r.2 /\
  c_id <$> conversations r'.1 = c_id <$> conversations r.1 /\
  chat_messages r'.1
  = chat_messages db
    ++ [mkChatMessage (chat_messages_seq db + 1) r.2 session_id sender message now;
        mkChatMessage (chat_messages_seq db + 1 + 1) r.2 session_id sender' message' later].
Proof.
  intros r r'.
  pose proof (add_chat_message_rows session_id sender message user_id now db)
    as (Hid & _ & _ & Hm & Hs).
  pose proof (add_chat_message_rows session_id sender' message' user_id later r.1)
    as (Hid' & Hc' & _ & Hm' & _).
  cbv zeta in *. fold r in Hid, Hm, Hs, Hid', Hc', Hm'. fold r' in Hid', Hc', Hm'.
  pose proof (stored_session_resolves session_id sender message user_id now later db) as Hres.
  cbv zeta in Hres. fold r in Hres.
  rewrite Hres in Hid', Hc', Hm'. simpl in Hid', Hc', Hm'.
  split; [exact Hid'|]. split.
  - rewrite Hc'. apply activity_ids.
  - rewrite <- Hid in Hm. rewrite Hm', Hm, Hs, <- app_assoc. reflexivity.
Qed.

Lemma of_session_spec (session_id : string) (user_id : Z) (c : Conversation) :
  of_session session_id user_id c = true <-> session_key c = (session_id, user_id).
Proof.
  unfold of_session, session_key. rewrite andb_true_iff, String.eqb_eq, Z.eqb_eq.
  split; [intros [-> ->]; reflexivity|intros H; inversion H; auto].
Qed.

Lemma select_session_none (session_id : string) (user_id : Z) (cs : list Conversation) :
  select_where (of_session session_id user_id) cs = [] ->
  (session_id, user_id) ∉ session_key <$> cs.
Proof.
  intros Hnone Hin. apply list_elem_of_fmap in Hin as (c & Hkey & Hc).
  assert (H : c ∈ select_where (of_session session_id user_id) cs).
  { apply elem_of_select_where. split; [exact Hc|]. apply of_session_spec. auto. }
  rewrite Hnone in H. inversion H.
Qed.

Lemma select_session_unique (session_id : string) (user_id : Z) (cs : list Conversation)
    (c : Conversation) :
  NoDup (session_key <$> cs) -> c ∈ cs -> session_key c = (session_id, user_id) ->
  select_where (of_session session_id user_id) cs = [c].
Proof.
  induction cs as [|x cs IH]; intros Hnd Hc Hkey; [inversion Hc|].
  rewrite fmap_cons in Hnd. apply NoDup_cons in Hnd as [Hx Hnd].
  unfold select_where. simpl. fold (select_where (of_session session_id user_id) cs).
  apply elem_of_cons in Hc as [<-|Hc].
  - rewrite (proj2 (of_session_spec session_id user_id c) Hkey). f_equal.
    destruct (select_where (of_session session_id user_id) cs) as [|y ys] eqn:E; [reflexivity|].
    exfalso. apply Hx. rewrite Hkey. apply list_elem_of_fmap. exists y.
    assert (Hy : y ∈ select_where (of_session session_id user_id) cs) by (rewrite E; left).
    apply elem_of_select_where in Hy as [Hy Hk]. apply of_session_spec in Hk. auto.
  - destruct (of_session session_id user_id x) eqn:E; [|auto].
    exfalso. apply Hx. apply of_session_spec in E. rewrite E, <- Hkey.
    apply list_elem_of_fmap. eauto.
Qed.

Lemma init_sessions_unique : sessions_unique init_database.
Proof. constructor. Qed.

(** X13. [add_chat_message] keeps at most one conversation per session
    and owner: a table without two conversations of one session and owner
    has none after the call, whatever the session, sender and message. *)
Theorem add_chat_message_sessions_unique (session_id sender message : string)
    (user_id now : Z) (db : Database) :
  sessions_unique db ->
  sessions_unique (add_chat_message session_id sender message user_id now db).1.
Proof.
  unfold sessions_unique. intros Hnd.
  pose proof (add_chat_message_rows session_id sender message user_id now db)
    as (_ & Hc & _).
  cbv zeta in Hc. rewrite Hc. clear Hc.
  destruct (activity_rows
              (get_or_create_conversation session_id user_id now db).2
              (if String.eqb sender "user" then Some message else None) now
              (conversations (get_or_create_conversation session_id user_id now db).1))
    as (new_title & -> & _).
  rewrite <- list_fmap_compose.
  erewrite list_fmap_ext with (g := session_key).
  2:{ intros i c _. unfold session_key. simpl.
      pose proof (active_row_keeps
                    (get_or_create_conversation session_id user_id now db).2
                    new_title now c) as (_ & H1 & H2 & _). rewrite H1, H2. reflexivity. }
  rewrite get_or_create_conversation_unfold.
  destruct (select_where _ (conversations db)) as [|c rest] eqn:E; simpl; [|exact Hnd].
  rewrite fmap_app. apply NoDup_app. split; [exact Hnd|]. split.
  - intros k Hk Hk'. simpl in Hk'. apply list_elem_of_singleton in Hk'. subst k.
    apply (select_session_none _ _ _ E). exact Hk.
  - apply NoDup_singleton.
Qed.

(** X13 on three messages of two sessions. *)
Lemma add_chat_message_sessions_unique_witness :
  let db1 := (add_chat_message "s1" "user" "Hello" 1 10 init_database).1 in
  let db2 := (add_chat_message "s2" "user" "Torque" 1 11 db1).1 in
  let db3 := (add_chat_message "s1" "ai" "What turns a door" 1 12 db2).1 in
  sessions_unique db3 /\ c_session_id <$> conversations db3 = ["s1"; "s2"].
Proof.
  intros db1 db2 db3. split; [|reflexivity].
  apply add_chat_message_sessions_unique, add_chat_message_sessions_unique,
    add_chat_message_sessions_unique, init_sessions_unique.
Defined.

End SessionFacts.

(** ** Messages and the state of their conversation *)

Section MessageFacts.

Import Db.

#[local] Instance asc_by_total {A : Type} (key : A -> Z) : Total (asc_by key).
Proof. intros a b. unfold asc_by. lia. Qed.

#[local] Instance asc_by_transitive {A : Type} (key : A -> Z) : Transitive (asc_by key).
Proof. intros a b c. unfold asc_by. lia. Qed.

(** The rows after [add_chat_message], each made from a row of the table
    once the session is resolved. *)
Lemma add_chat_message_conversations (session_id sender message : string) (user_id now : Z)
    (db : Database) :
  let r0 := get_or_create_conversation session_id user_id now db in
  let r := add_chat_message session_id sender message user_id now db in
  exists new_title,
    conversations r.1 = map (active_row r.2 new_title now) (conversations r0.1) /\
    r.2 = r0.2 /\
    (truthy (title_source sender message) = false -> new_title = None).
Proof.
  intros r0 r.
  pose proof (add_chat_message_rows session_id sender message user_id now db)
    as (Hid & Hc & _).
  cbv zeta in Hid, Hc. fold r r0 in Hid, Hc.
  destruct (activity_rows r0.2 (title_source sender message) now (conversations r0.1))
    as (new_title & Hact & Hnone).
  exists new_title. rewrite Hc, Hid. auto.
Qed.

(** X14. A message for a session whose conversation is in the trash is
    stored in that conversation, which stays in the trash: no new
    conversation is made, the message row carries the id of the trashed
    one, whose deletion mark and time are kept while its [updated_at]
    moves to the time of the message, and the default listing still
    leaves it out. *)
Theorem add_chat_message_to_trashed (session_id sender message : string) (user_id now : Z)
    (db : Database) (c : Conversation) :
  conversations_ok db -> sessions_unique db ->
  c ∈ conversations db -> session_key c = (session_id, user_id) ->
  c_is_deleted c = Some true ->
  let r := add_chat_message session_id sender message user_id now db in
  r.2 = c_id c /\
  length (conversations r.1) = length (conversations db) /\
  chat_messages r.1
  = chat_messages db
    ++ [mkChatMessage (chat_messages_seq db + 1) (c_id c) session_id sender message now] /\
  (exists c', c' ∈ conversations r.1 /\ c_id c' = c_id c /\
              c_is_deleted c' = Some true /\ c_deleted_at c' = c_deleted_at c /\
              c_updated_at c' = now) /\
  (forall limit, c_id c ∉ s_id <$> get_conversation_history user_id limit false r.1).
Proof.
  intros Hok Huniq Hc Hkey Hdel r.
  assert (Hsel : select_where (of_session session_id user_id) (conversations db) = [c])
    by (apply select_session_unique; assumption).
  assert (Hr0 : get_or_create_conversation session_id user_id now db = (db, c_id c))
    by (rewrite get_or_create_conversation_unfold, Hsel; reflexivity).
  destruct (add_chat_message_conversations session_id sender message user_id now db)
    as (new_title & Hrows & Hid & _).
  pose proof (add_chat_message_rows session_id sender message user_id now db)
    as (_ & _ & _ & Hm & _).
  cbv zeta in Hrows, Hid, Hm. fold r in Hrows, Hid, Hm. rewrite Hr0 in Hrows, Hid, Hm.
  simpl in Hrows, Hid, Hm.
  pose proof (active_row_keeps r.2 new_title now c) as (K1 & _ & K3 & K4 & K5 & _ & _ & K8 & _).
  split; [exact Hid|]. split; [rewrite Hrows; apply length_map|]. split; [exact Hm|]. split.
  - exists (active_row r.2 new_title now c). split.
    + rewrite Hrows. apply list_elem_of_fmap. eauto.
    + rewrite K1, K4, K5, Hdel. repeat split. apply K8. auto.
  - intros limit Hin. apply listing_ids_sound in Hin as (c' & Hc' & Hl & Hcid).
    rewrite Hrows in Hc'. apply list_elem_of_fmap in Hc' as (c0 & -> & Hc0).
    pose proof (active_row_keeps r.2 new_title now c0) as (J1 & _ & _ & J4 & _).
    cbv zeta in J1, J4. rewrite J1 in Hcid.
    assert (c0 = c) by (apply (unique_id_eq (conversations db)); [apply Hok| | |]; auto).
    subst c0. unfold listed in Hl. rewrite J4, Hdel in Hl. simpl in Hl.
    rewrite andb_false_r in Hl. discriminate.
Qed.

(** X14 on the trashed conversation of session ["s1"]. *)
Lemma add_chat_message_to_trashed_witness :
  let db0 := (add_chat_message "s1" "user" "Hello" 1 10 init_database).1 in
  let db := (delete_conversation 1 1 false 20 db0).1 in
  let r := add_chat_message "s1" "user" "Are you there" 1 30 db in
  r.2 = 1 /\
  s_id <$> get_conversation_history 1 20 false r.1 = [] /\
  s_message_count <$> get_conversation_history 1 20 true r.1 = [2].
Proof.
  intros db0 db r.
  destruct (add_chat_message_to_trashed "s1" "user" "Are you there" 1 30 db
              (mkConversation 1 "s1" (Some "Hello") 1 (Some true) (Some 20) 10 20))
    as (H & _).
  - apply delete_conversation_ok, add_chat_message_ok, init_conversations_ok.
  - repeat constructor. intros H. inversion H.
  - left.
  - reflexivity.
  - reflexivity.
  - split; [exact H|]. split; reflexivity.
Defined.

(** X15. A message of another sender than the user, or an empty one,
    gives no title: every conversation keeps its place and its title,
    NULL included, and a conversation that the message creates has a NULL
    title. *)
Theorem add_chat_message_no_title (session_id sender message : string) (user_id now : Z)
    (db : Database) :
  sender <> "user" \/ message = "" ->
  let r := add_chat_message session_id sender message user_id now db in
  (forall i c, conversations db !! i = Some c ->
               exists c', conversations r.1 !! i = Some c' /\
                          c_id c' = c_id c /\ c_title c' = c_title c) /\
  (forall c', c' ∈ conversations r.1 ->
              (forall c, c ∈ conversations db -> c_id c <> c_id c') ->
              c_id c' = r.2 /\ c_title c' = None /\ c_session_id c' = session_id).
Proof.
  intros Hcase r.
  destruct (add_chat_message_conversations session_id sender message user_id now db)
    as (new_title & Hrows & Hid & Hnone).
  cbv zeta in Hrows, Hid, Hnone. fold r in Hrows, Hid.
  assert (Hnt : new_title = None).
  { apply Hnone. unfold title_source. destruct Hcase as [Hs| ->].
    - apply String.eqb_neq in Hs. rewrite Hs. reflexivity.
    - destruct (String.eqb sender "user"); reflexivity. }
  subst new_title.
  pose proof (get_or_create_conversation_spec session_id user_id now db) as (_ & _ & Hr).
  cbv zeta in Hr.
  split.
  - intros i c Hi.
    assert (Hi0 : conversations (get_or_create_conversation session_id user_id now db).1 !! i
                  = Some c).
    { destruct Hr as [[-> _]|(-> & _ & _)]; [exact Hi|]. apply lookup_app_l_Some. exact Hi. }
    exists (active_row r.2 None now c). rewrite Hrows, list_lookup_fmap, Hi0.
    pose proof (active_row_keeps r.2 None now c) as (K1 & _ & _ & _ & _ & _ & _ & _ & K9).
    split; [reflexivity|]. split; [exact K1|]. apply K9. reflexivity.
  - intros c' Hc' Hnew. rewrite Hrows in Hc'.
    apply list_elem_of_fmap in Hc' as (c0 & -> & Hc0).
    pose proof (active_row_keeps r.2 None now c0) as (K1 & K2 & _ & _ & _ & _ & _ & _ & K9).
    cbv zeta in K1, K2, K9.
    destruct Hr as [[Hr _]|(Hr & _ & Hr2)]; rewrite Hr in Hc0.
    + exfalso. apply (Hnew c0 Hc0). congruence.
    + apply elem_of_app in Hc0 as [Hc0|Hc0]; [exfalso; apply (Hnew c0 Hc0); congruence|].
      apply list_elem_of_singleton in Hc0. subst c0.
      rewrite K1, K2, K9 by reflexivity. simpl. rewrite Hid, Hr2. auto.
Qed.

(** X15 on a first message of the assistant. *)
Lemma add_chat_message_no_title_witness :
  c_title <$> conversations
                (add_chat_message "s1" "ai" "What turns a door" 1 10 init_database).1
  = [None].
Proof.
  destruct (add_chat_message_no_title "s1" "ai" "What turns a door" 1 10 init_database)
    as (_ & H); [left; discriminate|].
  reflexivity.
Defined.

(** The rows of [get_conversation_messages], before sorting. *)
Lemma get_conversation_messages_rows (session_id : string) (user_id : Z) (db : Database)
    (row : MessageRow) :
  row ∈ get_conversation_messages session_id user_id db <->
  exists cm c,
    cm ∈ chat_messages db /\ c ∈ conversations db /\
    m_conversation_id cm = c_id c /\ m_session_id cm = session_id /\
    c_user_id c = user_id /\ row = (m_sender cm, m_message cm, m_timestamp cm).
Proof.
  unfold get_conversation_messages. rewrite merge_sort_Permutation, list_elem_of_bind.
  split.
  - intros (cm & Hrow & Hcm). apply list_elem_of_bind in Hrow as (c & Hrow & Hc).
    apply elem_of_select_where in Hc as [Hc Hid]. apply Z.eqb_eq in Hid.
    destruct (String.eqb (m_session_id cm) session_id && (c_user_id c =? user_id)) eqn:E;
      [|inversion Hrow].
    apply list_elem_of_singleton in Hrow. apply andb_true_iff in E as [E1 E2].
    apply String.eqb_eq in E1. apply Z.eqb_eq in E2. exists cm, c. repeat split; auto.
  - intros (cm & c & Hcm & Hc & Hid & Hs & Hu & ->). exists cm. split; [|exact Hcm].
    apply list_elem_of_bind. exists c. split.
    + rewrite Hs, Hu, String.eqb_refl, Z.eqb_refl. left.
    + apply elem_of_select_where. split; [exact Hc|]. apply Z.eqb_eq. exact Hid.
Qed.

(** X16. A message stored by [add_chat_message] reads back: the messages
    of its session and owner hold its sender, text and time, and every
    message that read back before still does. Any reading is ordered by
    time, earliest first. *)
Theorem add_chat_message_reads_back (session_id sender message : string) (user_id now : Z)
    (db : Database) :
  let db' := (add_chat_message session_id sender message user_id now db).1 in
  (sender, message, now) ∈ get_conversation_messages session_id user_id db' /\
  (forall session user row,
      row ∈ get_conversation_messages session user db ->
      row ∈ get_conversation_messages session user db') /\
  (forall session user,
      StronglySorted (fun a b : MessageRow => a.2 <= b.2)
        (get_conversation_messages session user db')).
Proof.
  intros db'.
  destruct (add_chat_message_conversations session_id sender message user_id now db)
    as (new_title & Hrows & Hid & _).
  pose proof (add_chat_message_rows session_id sender message user_id now db)
    as (_ & _ & _ & Hm & _).
  cbv zeta in Hrows, Hid, Hm. fold db' in Hrows, Hm.
  set (r := add_chat_message session_id sender message user_id now db) in *.
  set (r0 := get_or_create_conversation session_id user_id now db) in *.
  assert (Hkeep : forall c, c ∈ conversations db ->
                            active_row r.2 new_title now c ∈ conversations db').
  { intros c Hc. rewrite Hrows. apply list_elem_of_fmap. exists c. split; [reflexivity|].
    pose proof (get_or_create_conversation_spec session_id user_id now db) as (_ & _ & Hr).
    cbv zeta in Hr. fold r0 in Hr.
    destruct Hr as [[-> _]|(-> & _ & _)]; [exact Hc|]. apply elem_of_app. auto. }
  split; [|split].
  - destruct (get_or_create_conversation_resolved session_id user_id now db)
      as (c & rest & Hsel & Hcid).
    fold r0 in Hsel, Hcid.
    assert (Hc : c ∈ conversations r0.1 /\ of_session session_id user_id c = true).
    { apply elem_of_select_where. rewrite Hsel. left. }
    destruct Hc as [Hc Hkey]. apply of_session_spec in Hkey. inversion Hkey as [[Hs Hu]].
    pose proof (active_row_keeps r.2 new_title now c) as (K1 & _ & K3 & _).
    apply get_conversation_messages_rows.
    exists (mkChatMessage (chat_messages_seq db + 1) r0.2 session_id sender message now),
      (active_row r.2 new_title now c).
    split; [rewrite Hm; apply elem_of_app; right; left|].
    split; [rewrite Hrows; apply list_elem_of_fmap; eauto|].
    simpl. rewrite K1, K3. repeat split; auto.
  - intros session user row Hrow.
    apply get_conversation_messages_rows in Hrow as (cm & c & Hcm & Hc & H1 & H2 & H3 & ->).
    pose proof (active_row_keeps r.2 new_title now c) as (K1 & _ & K3 & _).
    apply get_conversation_messages_rows. exists cm, (active_row r.2 new_title now c).
    split; [rewrite Hm; apply elem_of_app; auto|]. split; [auto|].
    rewrite K1, K3. repeat split; auto.
  - intros session user. unfold get_conversation_messages.
    apply (StronglySorted_merge_sort (asc_by (fun r : MessageRow => r.2))).
Qed.

(** X16 on two messages of session ["s1"]. *)
Lemma add_chat_message_reads_back_witness :
  let db := (add_chat_message "s1" "user" "Hello" 1 10 init_database).1 in
  let db' := (add_chat_message "s1" "ai" "What turns a door" 1 11 db).1 in
  ("user", "Hello", 10) ∈ get_conversation_messages "s1" 1 db'.
Proof.
  intros db db'.
  apply (proj1 (proj2 (add_chat_message_reads_back "s1" "ai" "What turns a door" 1 11 db))).
  apply (proj1 (add_chat_message_reads_back "s1" "user" "Hello" 1 10 init_database)).
Defined.

End MessageFacts.

(** ** Emptying the trash, purging *)

Section PurgeFacts.

Import Db.

Lemma listed_trash (user_id : Z) (c : Conversation) :
  listed user_id true c = is_trashed user_id c.
Proof. unfold listed, is_trashed. destruct (c_is_deleted c) as [[|]|]; reflexivity. Qed.

Lemma listed_default (user_id : Z) (c : Conversation) :
  listed user_id false c = (c_user_id c =? user_id) && negb (is_trashed user_id c).
Proof.
  unfold listed, is_trashed.
  destruct (c_user_id c =? user_id), (c_is_deleted c) as [[|]|]; reflexivity.
Qed.

(** The loop of [empty_trash] over the trashed conversations deletes the
    messages of each of them and nothing else. *)
Lemma empty_trash_loop (trashed : list Conversation) (db : Database) :
  let db' :=
    fold_left
      (fun db conv =>
         set_chat_messages
           (delete_where (fun cm => m_conversation_id cm =? c_id conv) (chat_messages db)) db)
      trashed db in
  conversations db' = conversations db /\
  conversations_seq db' = conversations_seq db /\
  journals db' = journals db /\ folders db' = folders db /\
  video_history db' = video_history db /\
  chat_messages db'
  = delete_where (fun cm => existsb (fun conv => m_conversation_id cm =? c_id conv) trashed)
      (chat_messages db).
Proof.
  revert db. induction trashed as [|conv trashed IH]; intros db.
  - simpl. repeat split; try reflexivity. symmetry. apply delete_where_no_hit.
    apply Forall_forall. reflexivity.
  - cbv zeta. cbn [fold_left]. specialize (IH (set_chat_messages
                                       (delete_where
                                          (fun cm => m_conversation_id cm =? c_id conv)
                                          (chat_messages db)) db)).
    cbv zeta in IH. destruct IH as (H1 & H2 & H3 & H4 & H5 & H6).
    rewrite H1, H2, H3, H4, H5, H6. repeat split; try reflexivity.
    simpl. unfold delete_where. clear.
    induction (chat_messages db) as [|cm cms IHc]; simpl; [reflexivity|].
    destruct (m_conversation_id cm =? c_id conv); simpl; [exact IHc|].
    destruct (existsb _ trashed); simpl; rewrite IHc; reflexivity.
Qed.

Lemma select_delete_disjoint {A : Type} (p q : A -> bool) (rows : list A) :
  (forall r, r ∈ rows -> p r = true -> q r = false) ->
  select_where p (delete_where q rows) = select_where p rows.
Proof.
  unfold select_where, delete_where. induction rows as [|r rows IH]; intros H; [reflexivity|].
  simpl. destruct (q r) eqn:Eq; simpl.
  - destruct (p r) eqn:Ep.
    + rewrite (H r) in Eq; [discriminate|left|exact Ep].
    + apply IH. intros x Hx. apply H. right. exact Hx.
  - rewrite IH; [reflexivity|]. intros x Hx. apply H. right. exact Hx.
Qed.

Lemma trash_of_untrashed (user_id : Z) (cs : list Conversation) :
  select_where (listed user_id true) (delete_where (is_trashed user_id) cs) = [].
Proof.
  unfold select_where, delete_where. induction cs as [|c cs IH]; [reflexivity|]. simpl.
  destruct (is_trashed user_id c) eqn:Et; simpl; [exact IH|].
  rewrite listed_trash, Et. exact IH.
Qed.

Lemma select_of_deleted (conversation_id : Z) (ms : list ChatMessage) :
  select_where (fun cm => m_conversation_id cm =? conversation_id)
    (delete_where (fun cm => m_conversation_id cm =? conversation_id) ms) = [].
Proof.
  unfold select_where, delete_where. induction ms as [|cm ms IH]; [reflexivity|]. simpl.
  destruct (m_conversation_id cm =? conversation_id) eqn:E; simpl; [exact IH|].
  rewrite E. exact IH.
Qed.

(** X17. [empty_trash] removes the trashed conversations of the owner and
    the messages of each of them, and nothing else: the other
    conversations stay in order, the trash listing of the owner is empty
    for every LIMIT, and, ids being unique, the default listing is the one
    before, row for row with the same message counts. *)
Theorem empty_trash_purges (user_id : Z) (db : Database) :
  let db' := (empty_trash user_id db).1 in
  conversations db' = delete_where (is_trashed user_id) (conversations db) /\
  (forall cm, cm ∈ chat_messages db' <->
              cm ∈ chat_messages db /\
              forall c, c ∈ conversations db -> is_trashed user_id c = true ->
                        c_id c <> m_conversation_id cm) /\
  (forall limit, get_conversation_history user_id limit true db' = []) /\
  (NoDup (c_id <$> conversations db) ->
   forall limit,
     get_conversation_history user_id limit false db'
     = get_conversation_history user_id limit false db).
Proof.
  intros db'.
  pose proof (empty_trash_loop (select_where (is_trashed user_id) (conversations db)) db)
    as (L1 & _ & _ & _ & _ & L6).
  cbv zeta in L1, L6.
  assert (Hc : conversations db' = delete_where (is_trashed user_id) (conversations db)).
  { subst db'. unfold empty_trash. simpl. rewrite L1. reflexivity. }
  assert (Hm : chat_messages db'
               = delete_where
                   (fun cm => existsb (fun conv => m_conversation_id cm =? c_id conv)
                                (select_where (is_trashed user_id) (conversations db)))
                   (chat_messages db)).
  { subst db'. unfold empty_trash. simpl. exact L6. }
  assert (Hmem : forall cm,
             cm ∈ chat_messages db' <->
             cm ∈ chat_messages db /\
             forall c, c ∈ conversations db -> is_trashed user_id c = true ->
                       c_id c <> m_conversation_id cm).
  { intros cm. rewrite Hm, elem_of_delete_where. split; intros [H1 H2]; (split; [exact H1|]).
    - intros c Hc' Ht Hid. apply not_true_iff_false in H2. apply H2.
      apply existsb_exists. exists c. split.
      + apply list_elem_of_In, elem_of_select_where. auto.
      + apply Z.eqb_eq. auto.
    - apply not_true_iff_false. intros Hex. apply existsb_exists in Hex as (c & Hc' & Hid).
      apply list_elem_of_In, elem_of_select_where in Hc' as [Hc' Ht].
      apply Z.eqb_eq in Hid. apply (H2 c); auto. }
  split; [exact Hc|]. split; [exact Hmem|]. split.
  - intros limit. unfold get_conversation_history. rewrite Hc.
    rewrite trash_of_untrashed. unfold limit_rows. destruct (limit <? 0); [reflexivity|]. apply take_nil.
  - intros Hnd limit. unfold get_conversation_history. rewrite Hc.
    rewrite select_delete_disjoint.
    2:{ intros c _ Hl. rewrite listed_default in Hl. apply andb_true_iff in Hl as [_ Hl].
        apply negb_true_iff in Hl. exact Hl. }
    f_equal. f_equal. apply map_ext_in. intros c Hc'.
    apply list_elem_of_In, elem_of_select_where in Hc' as [Hc' Hl].
    unfold summarize. rewrite Hm.
    rewrite select_delete_disjoint; [reflexivity|].
    intros cm _ Hid. apply Z.eqb_eq in Hid.
    apply not_true_iff_false. intros Hex. apply existsb_exists in Hex as (t & Ht & Hidt).
    apply list_elem_of_In, elem_of_select_where in Ht as [Ht Htr]. apply Z.eqb_eq in Hidt.
    assert (t = c) by (apply (unique_id_eq (conversations db)); auto; congruence).
    subst t. rewrite listed_default, Htr in Hl. rewrite andb_false_r in Hl. discriminate.
Qed.

(** X17 on an active and a trashed conversation. *)
Lemma empty_trash_purges_witness :
  let db1 := (add_chat_message "s1" "user" "Hello" 1 10 init_database).1 in
  let db2 := (add_chat_message "s2" "user" "Torque" 1 11 db1).1 in
  let db := (delete_conversation 1 1 false 20 db2).1 in
  get_conversation_history 1 20 false (empty_trash 1 db).1
  = get_conversation_history 1 20 false db /\
  m_message <$> chat_messages (empty_trash 1 db).1 = ["Torque"].
Proof.
  intros db1 db2 db. split; [|reflexivity].
  apply (empty_trash_purges 1 db). simpl. repeat constructor.
  - intros H. apply list_elem_of_singleton in H. discriminate H.
  - intros H. inversion H.
Defined.

(** X18. A permanent delete removes the messages by conversation id
    alone: for a conversation that is not of the owner given, the
    conversation stays in the table, yet all its messages are gone. *)
Theorem delete_conversation_purges_messages_of_others (conversation_id user_id now : Z)
    (db : Database) :
  (forall c, c ∈ conversations db -> c_id c = conversation_id -> c_user_id c <> user_id) ->
  let db' := (delete_conversation conversation_id user_id true now db).1 in
  conversations db' = conversations db /\
  Forall (fun cm => m_conversation_id cm <> conversation_id) (chat_messages db') /\
  (forall cm, cm ∈ chat_messages db' <->
              cm ∈ chat_messages db /\ m_conversation_id cm <> conversation_id) /\
  (forall c, c ∈ conversations db -> c_id c = conversation_id ->
             forall limit row,
               row ∈ get_conversation_history (c_user_id c) limit false db' ->
               s_id row = conversation_id -> s_message_count row = 0).
Proof.
  intros Hother db'. subst db'. simpl.
  assert (Hmem : forall cm,
             cm ∈ delete_where (fun cm => m_conversation_id cm =? conversation_id)
                    (chat_messages db) <->
             cm ∈ chat_messages db /\ m_conversation_id cm <> conversation_id).
  { intros cm. rewrite elem_of_delete_where, Z.eqb_neq. reflexivity. }
  split; [|split; [|split]].
  - apply delete_where_no_hit. apply Forall_forall. intros c Hc.
    unfold owned. apply andb_false_iff.
    destruct (c_id c =? conversation_id) eqn:E; [right|left; reflexivity].
    apply Z.eqb_eq in E. apply Z.eqb_neq. auto.
  - apply Forall_forall. intros cm Hcm. apply Hmem in Hcm. tauto.
  - exact Hmem.
  - intros c Hc Hid limit row Hrow Hrid.
    unfold get_conversation_history in Hrow. apply elem_of_limit_rows in Hrow.
    rewrite merge_sort_Permutation in Hrow.
    apply list_elem_of_fmap in Hrow as (c' & -> & _). simpl in *.
    rewrite Hrid, select_of_deleted. reflexivity.
Qed.

(** X18 on a conversation of owner 2, purged by owner 1. *)
Lemma delete_conversation_purges_messages_of_others_witness :
  let db := (add_chat_message "s1" "user" "Hello" 2 10 init_database).1 in
  let db' := (delete_conversation 1 1 true 20 db).1 in
  conversations db' = conversations db /\ chat_messages db' = [].
Proof.
  intros db db'. split; [|reflexivity].
  apply (delete_conversation_purges_messages_of_others 1 1 20 db).
  intros c Hc _. apply list_elem_of_singleton in Hc. subst c. discriminate.
Defined.

End PurgeFacts.

(** ** Listing endpoints, statistics *)

Section ListingFacts.

Import Db.

#[local] Existing Instance desc_by_total.
#[local] Existing Instance desc_by_transitive.

Lemma limit_rows_length {A : Type} (n : Z) (rows : list A) :
  0 <= n -> Z.of_nat (length (limit_rows n rows)) <= n.
Proof.
  intros Hn. unfold limit_rows. destruct (n <? 0) eqn:E; [lia|].
  rewrite length_take. lia.
Qed.

Lemma limit_rows_negative {A : Type} (n : Z) (rows : list A) :
  n < 0 -> limit_rows n rows = rows.
Proof. intros Hn. unfold limit_rows. destruct (n <? 0) eqn:E; [reflexivity|lia]. Qed.

Lemma StronglySorted_take {A : Type} (R : relation A) (n : nat) (l : list A) :
  StronglySorted R l -> StronglySorted R (take n l).
Proof.
  intros Hl. revert n. induction Hl as [|x l Hl IH Hx]; intros [|n]; simpl; try constructor.
  - apply IH.
  - apply Forall_take. exact Hx.
Qed.

(** X19. [GET /chat/history] caps the listing at 50 rows and
    [GET /chat/trash] at 100, for a limit parameter that is not negative
    (20 and 50 when absent). A negative limit passes the cap and reaches
    the query as it is, where it means no limit: every conversation of the
    listing is returned. *)
Theorem conversation_listing_cap (limit : option Z) (st : App.State) :
  exists history trash,
    App.get_conversation_history limit st = App.mkReply 200 (App.Json history) /\
    App.get_trash limit st = App.mkReply 200 (App.Json trash) /\
    (0 <= default 20 limit ->
     Z.of_nat (length history) <= 50 /\ Z.of_nat (length history) <= default 20 limit) /\
    (0 <= default 50 limit ->
     Z.of_nat (length trash) <= 100 /\ Z.of_nat (length trash) <= default 50 limit) /\
    (default 20 limit < 0 ->
     s_id <$> history
     ≡ₚ c_id <$> select_where (listed 1 false) (conversations (App.db st))) /\
    (default 50 limit < 0 ->
     s_id <$> trash
     ≡ₚ c_id <$> select_where (listed 1 true) (conversations (App.db st))).
Proof.
  eexists. eexists. split; [reflexivity|]. split; [reflexivity|].
  unfold get_conversation_history.
  assert (Hids : forall incl,
             s_id <$> merge_sort (desc_by s_updated_at)
                        (map (summarize (App.db st))
                           (select_where (listed 1 incl) (conversations (App.db st))))
             ≡ₚ c_id <$> select_where (listed 1 incl) (conversations (App.db st))).
  { intros incl. rewrite merge_sort_Permutation.
    change (map (summarize (App.db st)) ?l) with (summarize (App.db st) <$> l).
    rewrite <- list_fmap_compose. reflexivity. }
  split; [|split; [|split]].
  - intros Hl. pose proof (limit_rows_length (Z.min (default 20 limit) 50)
                             (merge_sort (desc_by s_updated_at)
                                (map (summarize (App.db st))
                                   (select_where (listed 1 false)
                                      (conversations (App.db st)))))).
    lia.
  - intros Hl. pose proof (limit_rows_length (Z.min (default 50 limit) 100)
                             (merge_sort (desc_by s_updated_at)
                                (map (summarize (App.db st))
                                   (select_where (listed 1 true)
                                      (conversations (App.db st)))))).
    lia.
  - intros Hl. rewrite limit_rows_negative by lia. apply Hids.
  - intros Hl. rewrite limit_rows_negative by lia. apply Hids.
Qed.

(** X19 on 60 conversations: the parameter 1000 gives 50 rows, the
    parameter -1 all 60. *)
Lemma conversation_listing_cap_witness :
  let row i := mkConversation (Z.of_nat i) "s" None 1 (Some false) None 0 0 in
  let st := App.mkState ∅ (set_conversations (map row (seq 1 60)) init_database) in
  exists history all,
    App.get_conversation_history (Some 1000) st = App.mkReply 200 (App.Json history) /\
    App.get_conversation_history (Some (-1)) st = App.mkReply 200 (App.Json all) /\
    Z.of_nat (length history) <= 50 /\ length all = 60%nat.
Proof.
  intros row st.
  destruct (conversation_listing_cap (Some 1000) st) as (history & _ & H1 & _ & H2 & _).
  destruct (conversation_listing_cap (Some (-1)) st) as (all & _ & H3 & _ & _ & _ & H4 & _).
  exists history, all. split; [exact H1|]. split; [exact H3|]. split.
  - apply H2. simpl. lia.
  - rewrite <- (length_fmap s_id), H4 by (simpl; lia). reflexivity.
Defined.

(** X20. [GET /videos/history] lists watch-history rows of owner 1 only,
    latest first, at most 100 of them for a limit parameter that is not
    negative (50 when absent); for a negative one it lists them all. *)
Theorem video_history_listing (limit : option Z) (st : App.State) :
  exists rows,
    App.get_video_history limit st = App.mkReply 200 (App.Json rows) /\
    StronglySorted (fun a b => v_watched_at b <= v_watched_at a) rows /\
    Forall (fun v => v_user_id v = 1 /\ v ∈ video_history (App.db st)) rows /\
    (0 <= default 50 limit ->
     Z.of_nat (length rows) <= 100 /\ Z.of_nat (length rows) <= default 50 limit) /\
    (default 50 limit < 0 ->
     rows ≡ₚ select_where (fun v => v_user_id v =? 1) (video_history (App.db st))).
Proof.
  eexists. split; [reflexivity|]. unfold get_video_history.
  set (sorted := merge_sort (desc_by v_watched_at)
                   (select_where (fun v => v_user_id v =? 1) (video_history (App.db st)))).
  assert (Hsorted : StronglySorted (desc_by v_watched_at) sorted)
    by (apply StronglySorted_merge_sort; apply _).
  split; [|split; [|split]].
  - unfold limit_rows. destruct (_ <? 0); [exact Hsorted|].
    apply StronglySorted_take. exact Hsorted.
  - apply Forall_forall. intros v Hv. apply elem_of_limit_rows in Hv.
    subst sorted. rewrite merge_sort_Permutation in Hv.
    apply elem_of_select_where in Hv as [Hv Hu]. apply Z.eqb_eq in Hu. auto.
  - intros Hl. pose proof (limit_rows_length (Z.min (default 50 limit) 100) sorted). lia.
  - intros Hl. rewrite limit_rows_negative by lia. apply merge_sort_Permutation.
Qed.

(** X20 on a new database. *)
Lemma video_history_listing_witness :
  exists rows,
    App.get_video_history (Some 7) (App.mkState ∅ init_database)
    = App.mkReply 200 (App.Json rows) /\ Z.of_nat (length rows) <= 7.
Proof.
  destruct (video_history_listing (Some 7) (App.mkState ∅ init_database))
    as (rows & H1 & _ & _ & H2 & _).
  exists rows. split; [exact H1|]. apply H2. simpl. lia.
Defined.

Lemma count_where_partition {A : Type} (p q : A -> bool) (rows : list A) :
  count_where p rows
  = count_where (fun r => p r && q r) rows + count_where (fun r => p r && negb (q r)) rows.
Proof.
  unfold count_where, select_where. induction rows as [|r rows IH]; [reflexivity|].
  simpl. destruct (p r), (q r); simpl; lia.
Qed.

Lemma count_where_ext {A : Type} (p q : A -> bool) (rows : list A) :
  (forall r, p r = q r) -> count_where p rows = count_where q rows.
Proof.
  intros H. unfold count_where, select_where. f_equal. f_equal.
  induction rows as [|r rows IH]; [reflexivity|]. simpl. rewrite H, IH. reflexivity.
Qed.

Lemma merge_sort_length {A : Type} (R : relation A) `{!RelDecision R} (l : list A) :
  length (merge_sort R l) = length l.
Proof. apply Permutation_length, merge_sort_Permutation. Qed.

(** X21. The statistics count what the listings show: the conversations
    of the owner are those of the default listing and those of the trash
    listing together, trashed ones included; the videos watched are the
    rows of the watch history, and the folders those of the folder
    listing; the journals of the last seven days are among the journals
    of the owner. *)
Theorem get_user_stats_counts (user_id now : Z) (db : Database) :
  let stats := get_user_stats user_id now db in
  total_conversations stats
  = Z.of_nat (length (get_conversation_history user_id (-1) false db))
    + Z.of_nat (length (get_conversation_history user_id (-1) true db)) /\
  videos_watched stats = Z.of_nat (length (get_video_history user_id (-1) db)) /\
  total_folders stats = Z.of_nat (length (get_folders user_id db)) /\
  0 <= journals_this_week stats <= total_journals stats.
Proof.
  intros stats. subst stats. simpl. split; [|split; [|split]].
  - unfold get_conversation_history. rewrite !limit_rows_negative by lia.
    rewrite !merge_sort_length, !length_map.
    rewrite (count_where_partition _ (is_trashed user_id)), Z.add_comm.
    unfold count_where. f_equal; f_equal; f_equal; unfold select_where.
    + induction (conversations db) as [|c cs IH]; [reflexivity|]. simpl.
      rewrite listed_default, IH. reflexivity.
    + induction (conversations db) as [|c cs IH]; [reflexivity|]. simpl.
      rewrite listed_trash, IH.
      replace ((c_user_id c =? user_id) && is_trashed user_id c) with (is_trashed user_id c);
        [reflexivity|].
      unfold is_trashed. destruct (c_user_id c =? user_id); reflexivity.
  - unfold get_video_history. rewrite limit_rows_negative by lia.
    rewrite merge_sort_length. reflexivity.
  - unfold get_folders. rewrite merge_sort_length, length_map. reflexivity.
  - rewrite (count_where_partition (fun j => j_user_id j =? user_id)
               (fun j => now - 604800 <=? j_created_at j)).
    unfold count_where. lia.
Qed.

End ListingFacts.

(** ** Ids, and clearing a conversation *)

Section IdFacts.

Import Db.

(** X22. The id of a purged conversation is not handed out again: after a
    permanent delete, the conversation that a message of a new session
    creates has an id larger than every id the table held, the purged one
    included. *)
Theorem purged_id_not_reused (session_id sender message : string) (user_id now later : Z)
    (db : Database) (c : Conversation) :
  conversations_ok db -> c ∈ conversations db ->
  let db1 := (delete_conversation (c_id c) (c_user_id c) true now db).1 in
  (forall x, x ∈ conversations db1 -> session_key x <> (session_id, user_id)) ->
  let r := add_chat_message session_id sender message user_id later db1 in
  r.2 = conversations_seq db + 1 /\
  c_id c < r.2 /\
  (forall x, x ∈ conversations db -> c_id x < r.2) /\
  (exists x, x ∈ conversations r.1 /\ c_id x = r.2 /\ c_session_id x = session_id) /\
  c_id c ∉ c_id <$> conversations r.1.
Proof.
  intros [Hnd Hb Ht] Hc db1 Hnew r.
  assert (Hbound : forall x, x ∈ conversations db -> c_id x <= conversations_seq db).
  { intros x Hx. rewrite Forall_fmap, Forall_forall in Hb. apply (Hb x Hx). }
  assert (Hsel : select_where (of_session session_id user_id) (conversations db1) = []).
  { destruct (select_where _ (conversations db1)) as [|x xs] eqn:E; [reflexivity|].
    exfalso. assert (Hx : x ∈ select_where (of_session session_id user_id) (conversations db1))
      by (rewrite E; left).
    apply elem_of_select_where in Hx as [Hx Hk]. apply of_session_spec in Hk.
    exact (Hnew x Hx Hk). }
  assert (Hr0 : get_or_create_conversation session_id user_id later db1
                = create_conversation session_id user_id None later db1)
    by (rewrite get_or_create_conversation_unfold, Hsel; reflexivity).
  destruct (add_chat_message_conversations session_id sender message user_id later db1)
    as (new_title & Hrows & Hid & _).
  cbv zeta in Hrows, Hid. fold r in Hrows, Hid. rewrite Hr0 in Hrows, Hid.
  simpl in Hid. change (conversations_seq db1) with (conversations_seq db) in Hid.
  split; [exact Hid|]. split; [rewrite Hid; specialize (Hbound c Hc); lia|].
  split; [intros x Hx; rewrite Hid; specialize (Hbound x Hx); lia|]. split.
  - exists (active_row r.2 new_title later
              (mkConversation (conversations_seq db1 + 1) session_id None user_id
                 (Some false) None later later)).
    pose proof (active_row_keeps r.2 new_title later
                  (mkConversation (conversations_seq db1 + 1) session_id None user_id
                     (Some false) None later later)) as (K1 & K2 & _).
    split; [|split; [rewrite K1; simpl; rewrite Hid; reflexivity|exact K2]].
    rewrite Hrows. apply list_elem_of_fmap. eexists. split; [reflexivity|].
    simpl. apply elem_of_app. right. left.
  - intros Hin. apply list_elem_of_fmap in Hin as (x & Hx & Hin).
    rewrite Hrows in Hin. apply list_elem_of_fmap in Hin as (x0 & -> & Hx0).
    pose proof (active_row_keeps r.2 new_title later x0) as (K1 & _).
    cbv zeta in K1. rewrite K1 in Hx. simpl in Hx0.
    apply elem_of_app in Hx0 as [Hx0|Hx0].
    + apply elem_of_delete_where in Hx0 as [Hx0 Hown].
      assert (x0 = c) by (apply (unique_id_eq (conversations db)); auto).
      subst x0. unfold owned in Hown. rewrite !Z.eqb_refl in Hown. discriminate.
    + apply list_elem_of_singleton in Hx0. subst x0. simpl in Hx.
      specialize (Hbound c Hc). change (conversations_seq db1) with (conversations_seq db) in Hx.
      lia.
Qed.

(** X22 on session ["s1"], purged, and session ["s2"]. *)
Lemma purged_id_not_reused_witness :
  let db := (add_chat_message "s1" "user" "Hello" 1 10 init_database).1 in
  let db1 := (delete_conversation 1 1 true 20 db).1 in
  (add_chat_message "s2" "user" "Torque" 1 30 db1).2 = 2.
Proof.
  intros db db1.
  destruct (purged_id_not_reused "s2" "user" "Torque" 1 20 30 db
              (mkConversation 1 "s1" (Some "Hello") 1 (Some false) None 10 10))
    as (H & _).
  - apply add_chat_message_ok, init_conversations_ok.
  - left.
  - intros x Hx. inversion Hx.
  - exact H.
Defined.

(** X23. [clear_conversation] returns [False] and changes nothing when
    the session has no conversation of the owner. Otherwise, on a table
    with unique ids and sessions, it returns [True], removes that one
    conversation (the trash does not hold it either) and every message
    that carries its id, and keeps all other conversations. *)
Theorem clear_conversation_removes (session_id : string) (user_id : Z) (db : Database) :
  let r := clear_conversation session_id user_id db in
  ((forall c, c ∈ conversations db -> session_key c <> (session_id, user_id)) ->
   r = (db, false)) /\
  (forall c, conversations_ok db -> sessions_unique db ->
             c ∈ conversations db -> session_key c = (session_id, user_id) ->
             r.2 = true /\
             (forall x, x ∈ conversations r.1 <-> x ∈ conversations db /\ x <> c) /\
             (forall cm, cm ∈ chat_messages r.1 <->
                         cm ∈ chat_messages db /\ m_conversation_id cm <> c_id c) /\
             (forall limit deleted,
                 c_id c ∉ s_id <$> get_conversation_history user_id limit deleted r.1)).
Proof.
  intros r. subst r. unfold clear_conversation.
  fold (of_session session_id user_id). split.
  - intros Hnone.
    destruct (select_where _ (conversations db)) as [|x xs] eqn:E; [reflexivity|].
    exfalso. assert (Hx : x ∈ select_where (of_session session_id user_id) (conversations db))
      by (rewrite E; left).
    apply elem_of_select_where in Hx as [Hx Hk]. apply of_session_spec in Hk.
    exact (Hnone x Hx Hk).
  - intros c [Hnd _ _] Huniq Hc Hkey.
    rewrite (select_session_unique session_id user_id (conversations db) c Huniq Hc Hkey).
    simpl.
    assert (Hconv : forall x,
               x ∈ delete_where (fun c0 => c_id c0 =? c_id c) (conversations db) <->
               x ∈ conversations db /\ x <> c).
    { intros x. rewrite elem_of_delete_where, Z.eqb_neq. split; intros [H1 H2]; split; auto.
      - intros ->. auto.
      - intros Hid. apply H2. apply (unique_id_eq (conversations db)); auto. }
    split; [reflexivity|]. split; [exact Hconv|]. split.
    + intros cm. rewrite elem_of_delete_where, Z.eqb_neq. reflexivity.
    + intros limit deleted Hin. apply listing_ids_sound in Hin as (x & Hx & _ & Hid).
      simpl in Hx. apply Hconv in Hx as [Hx Hne]. apply Hne.
      apply (unique_id_eq (conversations db)); auto.
Qed.

(** X23 on the conversation of session ["s1"], and on a session without
    one. *)
Lemma clear_conversation_removes_witness :
  let db := (add_chat_message "s1" "user" "Hello" 1 10 init_database).1 in
  clear_conversation "s9" 1 db = (db, false) /\
  conversations (clear_conversation "s1" 1 db).1 = [] /\
  chat_messages (clear_conversation "s1" 1 db).1 = [].
Proof.
  intros db. split; [|split; reflexivity].
  apply (clear_conversation_removes "s9" 1 db).
  intros c Hc. apply list_elem_of_singleton in Hc. subst c. discriminate.
Defined.

End IdFacts.

(** ** The chat turn *)

Section ChatTurnFacts.

Import Db App.

Lemma prompt_window_bound (memory : gmap string (list string)) (session user_message : string) :
  (length (prompt_window memory session user_message) <= 10)%nat /\
  ("Human: " +:+ user_message) ∈ prompt_window memory session user_message.
Proof.
  unfold prompt_window. cbv zeta.
  set (history := default [] (memory !! session) ++ ["Human: " +:+ user_message]).
  destruct (10 <? length history)%nat eqn:E.
  - apply Nat.ltb_lt in E. split.
    + unfold last_n. rewrite length_drop. lia.
    + unfold last_n. subst history. rewrite length_app in *. simpl in *.
      rewrite drop_app_le by lia. apply elem_of_app. right. left.
  - apply Nat.ltb_ge in E. split; [exact E|].
    subst history. apply elem_of_app. right. left.
Qed.

(** The state and the answer of [chat] with a provider, on a message that
    is not empty. *)
Lemma chat_with_provider (generate_content : GenAI) (message session_id : option string)
    (now later : Z) (st : State) :
  let user_message := PyStr.strip (default "" message) in
  let session := default "default" session_id in
  let window := prompt_window (conversation_memory st) session user_message in
  let db1 := (add_chat_message session "user" user_message 1 now (db st)).1 in
  user_message <> "" ->
  exists memory reply source answer_session,
    chat (Some generate_content) message session_id now later st
    = (mkState memory (add_chat_message session "ai" reply 1 later db1).1,
       mkResponse 200 (ReplyBody reply source answer_session)) /\
    (forall other, other <> session -> memory !! other = conversation_memory st !! other) /\
    ((source = "ai" /\
      generate_content (full_prompt (PyStr.join newline window)) = Some reply /\
      memory !! session = Some (window ++ ["Scoratis: " +:+ reply])) \/
     (source = "fallback" /\
      generate_content (full_prompt (PyStr.join newline window)) = None /\
      reply = Fallback.generate_fallback user_message /\
      memory !! session = Some window)).
Proof.
  intros user_message session window db1 Hne. subst window db1.
  unfold chat, prompt_window. cbv zeta. fold user_message session.
  destruct user_message as [|a m] eqn:Eu; [congruence|]. rewrite <- Eu. clear Hne.
  set (memory0 := match conversation_memory st !! session with
                  | Some _ => conversation_memory st
                  | None => <[session:=[]]> (conversation_memory st)
                  end).
  assert (H0 : default [] (memory0 !! session)
               = default [] (conversation_memory st !! session)).
  { subst memory0. destruct (conversation_memory st !! session) eqn:E.
    - rewrite E. reflexivity.
    - rewrite lookup_insert_eq. reflexivity. }
  assert (Hother : forall other, other <> session ->
                                 memory0 !! other = conversation_memory st !! other).
  { intros other Hne. subst memory0.
    destruct (conversation_memory st !! session); [reflexivity|].
    apply lookup_insert_ne. congruence. }
  rewrite H0.
  match goal with
  | |- context [PyStr.join newline ?w] => set (window := w)
  end.
  destruct (add_chat_message session "user" user_message 1 now (db st)) as [d1 c1] eqn:E1.
  cbn [fst].
  destruct (generate_content (full_prompt (PyStr.join newline window))) as [text|] eqn:Eg.
  - destruct (add_chat_message session "ai" text 1 later d1) as [d2 c2] eqn:E2.
    eexists _, text, "ai", (Some session). rewrite E2. split; [reflexivity|]. split.
    + intros other Hne. rewrite !lookup_insert_ne by congruence. auto.
    + left. rewrite lookup_insert_eq. auto.
  - destruct (add_chat_message session "ai" (Fallback.generate_fallback user_message)
                1 later d1) as [d2 c2] eqn:E2.
    eexists _, (Fallback.generate_fallback user_message), "fallback", None.
    rewrite E2. split; [reflexivity|]. split.
    + intros other Hne. rewrite lookup_insert_ne by congruence. auto.
    + right. rewrite lookup_insert_eq. auto.
Qed.

(** X24. A chat turn touches the window of its own session only, and
    keeps every window at eleven entries at most: with a provider, the
    window of the session afterwards holds the message of the user and at
    most eleven entries, however long it was; without a provider, or on an
    empty message, the memory is as before. *)
Theorem chat_window_bounded (genai : option GenAI) (message session_id : option string)
    (now later : Z) (st : State) :
  let session := default "default" session_id in
  let user_message := PyStr.strip (default "" message) in
  let memory' := conversation_memory (chat genai message session_id now later st).1 in
  (forall other, other <> session -> memory' !! other = conversation_memory st !! other) /\
  (windows_ok (conversation_memory st) -> windows_ok memory') /\
  (is_Some genai -> user_message <> "" ->
   exists window,
     memory' !! session = Some window /\ (length window <= 11)%nat /\
     ("Human: " +:+ user_message) ∈ window) /\
  (genai = None \/ user_message = "" -> memory' = conversation_memory st).
Proof.
  intros session user_message memory'.
  assert (Hsame : genai = None \/ user_message = "" -> memory' = conversation_memory st).
  { intros Hcase. subst memory'. unfold chat. fold user_message.
    destruct Hcase as [->| ->]; [destruct user_message|]; reflexivity. }
  assert (Hturn : is_Some genai -> user_message <> "" ->
                  (forall other, other <> session ->
                                 memory' !! other = conversation_memory st !! other) /\
                  exists window,
                    memory' !! session = Some window /\ (length window <= 11)%nat /\
                    ("Human: " +:+ user_message) ∈ window).
  { intros [g ->] Hne.
    destruct (chat_with_provider g message session_id now later st Hne)
      as (memory & reply & source & sess & Hchat & Hother & Hcase).
    fold session user_message in Hchat, Hother, Hcase.
    subst memory'. rewrite Hchat. simpl. split; [exact Hother|].
    destruct (prompt_window_bound (conversation_memory st) session user_message) as [Hlen Hin].
    destruct Hcase as [(_ & _ & ->)|(_ & _ & _ & ->)]; eexists; (split; [reflexivity|]).
    - rewrite length_app. simpl. split; [lia|]. apply elem_of_app. auto.
    - split; [lia|exact Hin]. }
  assert (Hcases : (genai = None \/ user_message = "") \/
                   (is_Some genai /\ user_message <> "")).
  { destruct genai as [g|]; [|auto]. destruct user_message; [auto|].
    right. split; [eauto|discriminate]. }
  split; [|split; [|split]].
  - destruct Hcases as [Hc|[Hg Hne]]; [rewrite (Hsame Hc); auto|apply Hturn; auto].
  - intros Hok. destruct Hcases as [Hc|[Hg Hne]]; [rewrite (Hsame Hc); exact Hok|].
    destruct (Hturn Hg Hne) as (Hother & window & Hw & Hlen & _).
    intros s w Hs. destruct (decide (s = session)) as [->|Hns].
    + rewrite Hw in Hs. inversion Hs. subst w. exact Hlen.
    + rewrite Hother in Hs by exact Hns. exact (Hok s w Hs).
  - intros Hg Hne. apply Hturn; auto.
  - exact Hsame.
Qed.

(** X24 on a window of twelve entries. *)
Lemma chat_window_bounded_witness :
  let st := mkState {["s1" := replicate 12 "Human: again"]} init_database in
  exists window,
    conversation_memory
      (chat (Some (fun _ => Some "What turns a door")) (Some "Torque") (Some "s1") 10 11 st).1
    !! "s1" = Some window /\ (length window <= 11)%nat.
Proof.
  intros st.
  destruct (chat_window_bounded (Some (fun _ => Some "What turns a door")) (Some "Torque")
              (Some "s1") 10 11 st) as (_ & _ & H & _).
  destruct H as (window & H1 & H2 & _); [eauto|vm_compute; discriminate|].
  exists window. auto.
Defined.




End ChatTurnFacts.

(** ** Video search and the watch history *)

Section SearchHistoryFacts.

Import Db App.

Variable format_tenths : Z -> Z -> string.

Lemma add_video_to_history_rows (video_id title channel thumbnail_url search_query : string)
    (user_id now : Z) (db : Database) :
  history_ids_ok db ->
  let db' :=
    (add_video_to_history video_id title channel thumbnail_url search_query user_id now db).1 in
  video_history db'
  = video_history db
    ++ [mkVideoHistory (video_history_seq db + 1) video_id title channel thumbnail_url
          search_query user_id now] /\
  history_ids_ok db' /\
  journals db' = journals db /\ folders db' = folders db /\
  conversations db' = conversations db /\ chat_messages db' = chat_messages db.
Proof.
  intros Hok. split; [|split; [|repeat split]].
  - simpl. rewrite delete_where_no_hit; [reflexivity|].
    eapply Forall_impl; [exact Hok|]. simpl. intros v Hv. lia.
  - apply add_video_to_history_ids_ok. exact Hok.
Qed.

Lemma format_video_fields (video_details : gmap string VideoDetail) (item : SearchItem)
    (video_data : VideoData) :
  format_video format_tenths video_details item = Ok video_data ->
  video_id video_data = i_videoId item /\ title video_data = i_title item /\
  channel video_data = i_channelTitle item.
Proof.
  unfold format_video. destruct (int_view_count _); [|discriminate].
  intros H. inversion H. subst. auto.
Qed.

(** The loop of [search_videos]: one history row for each video
    formatted, in order, and nothing else written. *)
Lemma format_videos_history (video_details : gmap string VideoDetail) (query : string)
    (now : Z) (items : list SearchItem) (formatted : list VideoData) (db : Database) :
  history_ids_ok db ->
  let r := format_videos format_tenths video_details query now items formatted db in
  exists rows,
    video_history r.1 = video_history db ++ rows /\
    history_ids_ok r.1 /\
    Forall (fun v => v_user_id v = 1 /\ v_search_query v = query /\ v_watched_at v = now) rows /\
    journals r.1 = journals db /\ folders r.1 = folders db /\
    conversations r.1 = conversations db /\ chat_messages r.1 = chat_messages db /\
    (forall videos, r.2 = Ok videos ->
                    exists new,
                      videos = formatted ++ new /\
                      map video_id new = map i_videoId items /\
                      map v_video_id rows = map video_id new /\
                      map v_title rows = map title new).
Proof.
  revert formatted db. induction items as [|item items IH]; intros formatted db Hok.
  - simpl. exists []. rewrite app_nil_r. repeat split; auto.
    intros videos H. inversion H. exists []. rewrite app_nil_r. auto.
  - cbn [format_videos].
    destruct (format_video format_tenths video_details item) as [video_data|e] eqn:Ef.
    + pose proof (format_video_fields _ _ _ Ef) as (F1 & F2 & F3).
      pose proof (add_video_to_history_rows (i_videoId item) (i_title item)
                    (i_channelTitle item) (thumbnail video_data) query 1 now db Hok)
        as (A1 & A2 & A3 & A4 & A5 & A6).
      cbv zeta in A1, A2, A3, A4, A5, A6.
      destruct (add_video_to_history (i_videoId item) (i_title item) (i_channelTitle item)
                  (thumbnail video_data) query 1 now db) as [db1 id1].
      simpl in A1, A2, A3, A4, A5, A6.
      destruct (IH (formatted ++ [video_data]) db1 A2)
        as (rows & H1 & H2 & H3 & H4 & H5 & H6 & H7 & H8).
      cbv beta iota zeta in *.
      eexists (_ :: rows). rewrite H1, A1, <- app_assoc. split; [reflexivity|].
      split; [exact H2|]. split; [constructor; [simpl; auto|exact H3]|].
      rewrite H4, H5, H6, H7. repeat split; auto.
      intros videos Hv. destruct (H8 videos Hv) as (new & -> & N1 & N2 & N3).
      exists (video_data :: new). rewrite <- app_assoc. simpl.
      rewrite N2, N3, F1, F2, N1. auto.
    + simpl. exists []. rewrite app_nil_r. repeat split; auto. intros videos H. discriminate H.
Qed.

(** X26. A video search only ever adds to the watch history: the rows
    there stay, the new rows are of owner 1 with the query and the time of
    the search, and nothing else of the state changes. When the search
    answers from the provider, the new rows are the videos of the answer,
    one row each in the order of the answer, with their ids and titles,
    and the answer lists the search items in their order. *)
Theorem search_videos_records_history (youtube_client : option YouTube) (q : option string)
    (max_results : option Z) (now : Z) (st : State) :
  history_ids_ok (db st) ->
  let query := PyStr.strip (default "" q) in
  let r := search_videos format_tenths youtube_client q max_results now st in
  exists rows,
    video_history (db r.1) = video_history (db st) ++ rows /\
    history_ids_ok (db r.1) /\
    Forall (fun v => v_user_id v = 1 /\ v_search_query v = query /\ v_watched_at v = now) rows /\
    conversation_memory r.1 = conversation_memory st /\
    journals (db r.1) = journals (db st) /\ folders (db r.1) = folders (db st) /\
    conversations (db r.1) = conversations (db st) /\
    chat_messages (db r.1) = chat_messages (db st) /\
    (forall videos,
        body r.2 = VideosBody videos (Some "youtube") None ->
        map v_video_id rows = map video_id videos /\
        map v_title rows = map title videos /\
        exists client items,
          youtube_client = Some client /\
          search_list client query (Z.min (default 12 max_results) 25) = Ok items /\
          map video_id videos = map i_videoId items).
Proof.
  intros Hok. cbv zeta.
  set (query := PyStr.strip (default "" q)).
  set (r := search_videos format_tenths youtube_client q max_results now st).
  assert (Hstay : forall resp,
             (forall videos, body resp <> VideosBody videos (Some "youtube") None) ->
             r = (st, resp) ->
             exists rows,
               video_history (db r.1) = video_history (db st) ++ rows /\
               history_ids_ok (db r.1) /\
               Forall (fun v => v_user_id v = 1 /\ v_search_query v = query /\
                                v_watched_at v = now) rows /\
               conversation_memory r.1 = conversation_memory st /\
               journals (db r.1) = journals (db st) /\ folders (db r.1) = folders (db st) /\
               conversations (db r.1) = conversations (db st) /\
               chat_messages (db r.1) = chat_messages (db st) /\
               (forall videos,
                   body r.2 = VideosBody videos (Some "youtube") None ->
                   map v_video_id rows = map video_id videos /\
                   map v_title rows = map title videos /\
                   exists client items,
                     youtube_client = Some client /\
                     search_list client query (Z.min (default 12 max_results) 25) = Ok items /\
                     map video_id videos = map i_videoId items)).
  { intros resp Hresp ->. exists []. rewrite app_nil_r. simpl.
    split_and!; auto. intros videos Hv. exfalso. exact (Hresp videos Hv). }
  assert (Herr : forall e videos,
             body (search_error e) <> VideosBody videos (Some "youtube") None).
  { intros e videos. unfold search_error.
    destruct (PyStr.contains "quotaexceeded" _); [discriminate|].
    destruct (_ || _); discriminate. }
  assert (Er : r = search_videos format_tenths youtube_client q max_results now st)
    by reflexivity.
  unfold search_videos in Er. fold query in Er. cbv zeta in Er.
  destruct query as [|a m] eqn:Eq;
    [eapply Hstay; [|exact Er]; intros vs Hvs; discriminate Hvs|].
  rewrite <- Eq in *.
  destruct youtube_client as [client|];
    [|eapply Hstay; [|exact Er]; intros vs Hvs; discriminate Hvs].
  destruct (search_list client query (Z.min (default 12 max_results) 25))
    as [items|e] eqn:Es; [|apply (Hstay _ (Herr e) Er)].
  destruct items as [|item items];
    [eapply Hstay; [|exact Er]; intros vs Hvs; discriminate Hvs|].
  cbn [map] in Er.
  destruct (videos_list client (i_videoId item :: map i_videoId items))
    as [details|e] eqn:Ev; [|apply (Hstay _ (Herr e) Er)].
  destruct (format_videos_history
              (fold_left (fun m d => <[d_id d:=d]> m) details ∅) query now
              (item :: items) [] (db st) Hok)
    as (rows & H1 & H2 & H3 & H4 & H5 & H6 & H7 & H8).
  cbv zeta in H1, H2, H3, H4, H5, H6, H7, H8.
  destruct (format_videos format_tenths
              (fold_left (fun m d => <[d_id d:=d]> m) details ∅) query now
              (item :: items) [] (db st)) as [db' [videos|e]] eqn:Ef;
    simpl in H1, H2, H3, H4, H5, H6, H7, H8; rewrite Er; simpl.
  - exists rows. split_and!; auto.
    intros vs Hvs. inversion Hvs. subst vs.
    destruct (H8 videos eq_refl) as (new & Hnew & N1 & N2 & N3). simpl in Hnew. subst new.
    split; [exact N2|]. split; [exact N3|].
    exists client, (item :: items). auto.
  - exists rows. split_and!; auto.
    intros vs Hvs. exfalso. exact (Herr e vs Hvs).
Qed.

End SearchHistoryFacts.

Section SearchHistoryExamples.

Import Db App.

(** X26 on a search that finds one video. *)
Lemma search_videos_records_history_witness :
  let client :=
    mkYouTube
      (fun _ _ => Ok [mkSearchItem "abc123" "Torque" "Physics Hub" (Some "thumb")
                        None "2024-05-01T00:00:00Z"])
      (fun _ => Ok []) in
  exists rows,
    video_history
      (db (search_videos (fun _ _ => "") (Some client) (Some "torque") None 10
             (mkState ∅ init_database)).1) = rows /\
    Forall (fun v => v_user_id v = 1 /\ v_search_query v = "torque" /\ v_watched_at v = 10) rows.
Proof.
  intros client.
  destruct (search_videos_records_history (fun _ _ => "") (Some client) (Some "torque") None 10
              (mkState ∅ init_database)) as (rows & H1 & _ & H2 & _);
    [vm_compute; constructor|].
  exists rows. split; [exact H1|exact H2].
Defined.

End SearchHistoryExamples.
